(** * The purchase transaction engine of the SLTV VTU backend

    A shallow embedding of [app/api/v1/endpoints/services.py]: price
    computation, admission control, provider routing, vendor dispatch and
    the refund-on-failure compensation, for airtime, data, electricity and
    TV subscriptions.

    Amounts are Python [float]s, that is IEEE 754 binary64 numbers; they are
    embedded as Rocq's primitive floats, whose operations round exactly as
    CPython's do.  Endpoint bodies are written in a state-and-exception
    monad over a [World] that holds the ledger tables, the log of vendor
    calls and the queue of background e-mail tasks. *)

From Stdlib Require Import Floats Ascii.
From stdpp Require Import base strings list gmap pretty.

Open Scope float_scope.
Open Scope stdpp_scope.

(** ** Python values, strings and exceptions *)

(** JSON-like values: members of request payloads and of responses. *)
#[warnings="-register-all"] Inductive value :=
  | VNone
  | VBool (b : bool)
  | VInt (n : nat)
  | VNum (x : float)
  | VStr (s : string)
  | VList (l : list value)
  | VDict (d : list (string * value)).

(** A [dict] literal keeps its insertion order. *)
Definition dict := list (string * value).

(** [d.get(k)] *)
Fixpoint dict_get (k : string) (d : dict) : option value :=
  match d with
  | [] => None
  | (k', v) :: d' => if String.eqb k k' then Some v else dict_get k d'
  end.

(** Truth value of an object in a condition: [if x:]. *)
Definition truthy (v : value) : bool :=
  match v with
  | VNone => false
  | VBool b => b
  | VInt n => negb (Nat.eqb n 0)
  | VNum x => negb (PrimFloat.eqb x 0)
  | VStr s => negb (String.eqb s "")
  | VList l => match l with [] => false | _ => true end
  | VDict d => match d with [] => false | _ => true end
  end.

(** [type(v).__name__] *)
Definition type_name (v : value) : string :=
  match v with
  | VNone => "NoneType"
  | VBool _ => "bool"
  | VInt _ => "int"
  | VNum _ => "float"
  | VStr _ => "str"
  | VList _ => "list"
  | VDict _ => "dict"
  end.

(** [v == s] for a member [v = d.get(k)] and a string literal [s]: a
    missing member is [None], and only a string equals a string. *)
Definition eq_str (v : option value) (s : string) : bool :=
  match v with
  | Some (VStr s') => String.eqb s' s
  | _ => false
  end.

Definition str_truthy (s : option string) : bool :=
  match s with
  | Some s => negb (String.eqb s "")
  | None => false
  end.

(** [x or y] for an optional string [x]. *)
Definition str_or (x : option string) (y : string) : string :=
  if str_truthy x then default y x else y.

(** [str.lower] and [str.upper] on ASCII text: only the 26 letters change. *)
Definition lower_ascii (c : ascii) : ascii :=
  let n := nat_of_ascii c in
  if (65 <=? n)%nat && (n <=? 90)%nat then ascii_of_nat (n + 32) else c.

Definition upper_ascii (c : ascii) : ascii :=
  let n := nat_of_ascii c in
  if (97 <=? n)%nat && (n <=? 122)%nat then ascii_of_nat (n - 32) else c.

Fixpoint lower (s : string) : string :=
  match s with
  | EmptyString => EmptyString
  | String c s' => String (lower_ascii c) (lower s')
  end.

Fixpoint upper (s : string) : string :=
  match s with
  | EmptyString => EmptyString
  | String c s' => String (upper_ascii c) (upper s')
  end.

(** [x in [a, b, ...]] for strings. *)
Definition str_in (x : string) (l : list string) : bool :=
  existsb (String.eqb x) l.

(** Exceptions.  [Exception] stands for every exception other than the
    framework's [HTTPException]; only its [str()] is ever observed. *)
Inductive exn :=
  | HTTPException (status_code : nat) (detail : string)
  | Exception (message : string).

(** The outcome of running a piece of code. *)
Inductive result (A : Type) :=
  | Returns (a : A)
  | Raises (e : exn).
Arguments Returns {A} a.
Arguments Raises {A} e.

#[global] Instance result_ret : MRet result := fun A a => Returns a.
#[global] Instance result_bind : MBind result := fun A B f m =>
  match m with
  | Returns a => f a
  | Raises e => Raises e
  end.

(** True division [x / y] of floats. *)
Definition py_truediv (x y : float) : result float :=
  if PrimFloat.eqb y 0
  then Raises (Exception "float division by zero")
  else Returns (x / y).

(** ** Data model *)

(** The request schemas ([app.schemas.service]) and the ORM models
    ([app.models]) are declared outside the endpoint module; the records
    below carry exactly the attributes the endpoints read or write.
    Amounts and balances are [float]s: the endpoints add the literal [0.0]
    to them and [EmailService] declares [amount: float]. *)

Module Profile.
Record t := { address : option string; phone_number : option string }.
End Profile.

Module User.
Record t := {
  id : nat;
  email : string;
  full_name : option string;
  profile : option Profile.t
}.
End User.

Module AirtimeRequest.
Record t := { network : string; phone_number : string; amount : float }.
End AirtimeRequest.

(** [purchase_data] reads [request.amount] as the cost price. *)
Module DataRequest.
Record t := {
  network : string;
  phone_number : string;
  plan_id : string;
  amount : float
}.
End DataRequest.

Module ElectricityRequest.
Record t := {
  provider : string;
  meter_number : string;
  type : string;
  amount : float
}.
End ElectricityRequest.

Module ElectricityVerifyRequest.
Record t := { provider : string; meter_number : string; type : string }.
End ElectricityVerifyRequest.

Module TVRequest.
Record t := { smart_card_number : string; value : nat }.
End TVRequest.

(** [ProfitType]: the endpoints compare against [FIXED] and [PERCENTAGE];
    any further member of the enumeration is [OTHER]. *)
Inductive ProfitType :=
  | FIXED
  | PERCENTAGE
  | OTHER (name : string).

Module ServicePrice.
Record t := {
  service_identifier : string;
  profit_type : ProfitType;
  profit_value : float
}.
End ServicePrice.

(** A wallet row.  The wallet table is indexed by the owning user's id
    (one wallet per user), so the row itself does not repeat [user_id]. *)
Module Wallet.
Record t := { id : nat; balance : float }.
Definition set_balance (b : float) (w : t) : t :=
  {| id := id w; balance := b |}.
End Wallet.

Module Transaction.
Record t := {
  id : option nat;            (* primary key, [None] until inserted *)
  wallet_id : nat;
  user_id : nat;
  trans_id : string;
  amount : float;
  type : string;
  status : string;
  reference : string;
  service_type : string;
  meta_data : string;
  profit : float
}.
Definition set_id (i : option nat) (x : t) : t :=
  {| id := i; wallet_id := wallet_id x; user_id := user_id x;
     trans_id := trans_id x; amount := amount x; type := type x;
     status := status x; reference := reference x;
     service_type := service_type x; meta_data := meta_data x;
     profit := profit x |}.
(** [transaction.status = s] *)
Definition set_status (s : string) (x : t) : t :=
  {| id := id x; wallet_id := wallet_id x; user_id := user_id x;
     trans_id := trans_id x; amount := amount x; type := type x;
     status := s; reference := reference x;
     service_type := service_type x; meta_data := meta_data x;
     profit := profit x |}.
(** [transaction.meta_data += s] *)
Definition append_meta_data (s : string) (x : t) : t :=
  {| id := id x; wallet_id := wallet_id x; user_id := user_id x;
     trans_id := trans_id x; amount := amount x; type := type x;
     status := status x; reference := reference x;
     service_type := service_type x; meta_data := meta_data x +:+ s;
     profit := profit x |}.
End Transaction.

(** A reply of the eBills service: a JSON object.  [code], [message] and
    [data] are its members of these names: [None] when the object has no
    such key, and otherwise the member's value, whatever its JSON type
    ([null] included); [text] is the printed form [str(response)]. *)
Module EbillsResponse.
Record t := {
  code : option value;
  message : option value;
  data : option value;
  text : string
}.
End EbillsResponse.

(** An e-mail handed to the background task queue by [EmailService]. *)
Inductive email_kind := PurchaseSuccess | PurchaseFailed | Refund.

Module Email.
Record t := {
  kind : email_kind;
  email_to : string;
  name : option string;
  service_name : string;
  amount : float;
  transaction_ref : string;
  extra : option string       (* recipient, or failure reason *)
}.
End Email.

(** A call that reached an external fulfilment provider. *)
Inductive vendor_call :=
  | MobileNigPurchase (payload : dict)
  | EbillsVerify (customer_id service_id variation_id : string)
  | EbillsPurchase (request_id customer_id service_id variation_id : string)
                   (amount : float)
  | SltvPurchase (request : TVRequest.t).

Record datetime := {
  year : nat; month : nat; day : nat;
  hour : nat; minute : nat; second : nat
}.

(** The ledger tables together with everything a request can affect. *)
Record World := {
  service_prices : list ServicePrice.t;
  wallets : gmap nat Wallet.t;           (* by user id *)
  transactions : list Transaction.t;     (* row [i] has primary key [i+1] *)
  vendor_calls : list vendor_call;       (* oldest first *)
  background_tasks : list Email.t;       (* oldest first *)
  trans_ids_issued : nat                 (* calls of [generate_trans_id] *)
}.

(** What the world outside the process answers.  Every field is
    universally quantified in the theorems below.
    - [now k]: the clock reading [datetime.now()] of the [k]-th identifier;
    - [random_index k j]: the [j]-th index [floor(random() * n)] drawn by
      [random.choices] for the [k]-th identifier;
    - [mobilenig_reply], [ebills_verify_reply], [ebills_purchase_reply],
      [sltv_reply]: what the vendor call returns or raises;
    - [sltv_driver]: whether [VTUAutomator()] starts its browser; the
      constructor re-raises what [setup_driver] raised;
    - [str]: Python's [str()] of a value (number formatting included);
    - [str_http_exception]: [str()] of the framework's [HTTPException]. *)
Record Env := {
  now : nat → datetime;
  random_index : nat → nat → nat;
  mobilenig_reply : dict → result value;
  ebills_verify_reply : string → string → string → result EbillsResponse.t;
  ebills_purchase_reply :
    string → string → string → string → float → result EbillsResponse.t;
  sltv_reply : TVRequest.t → result value;
  sltv_driver : result unit;
  str : value → string;
  str_http_exception : nat → string → string
}.

(** ** The state-and-exception monad *)

(** A computation runs in a world and either returns or raises; effects
    made before an exception stay in place, as in Python. *)
Definition M (A : Type) : Type := World → result A * World.

#[global] Instance M_ret : MRet M := fun A a w => (Returns a, w).
#[global] Instance M_bind : MBind M := fun A B f m w =>
  match m w with
  | (Returns a, w') => f a w'
  | (Raises e, w') => (Raises e, w')
  end.

(** [raise e] *)
Definition raise {A} (e : exn) : M A := fun w => (Raises e, w).

(** [try: body except Exception as e: handler]; [HTTPException] is a
    subclass of [Exception] and is caught as well. *)
Definition try_except {A} (body : M A) (handler : exn → M A) : M A :=
  fun w =>
    match body w with
    | (Returns a, w') => (Returns a, w')
    | (Raises e, w') => handler e w'
    end.

Definition lift {A} (r : result A) : M A := fun w => (r, w).

(** *** A [try] block that assigns to a local object

    [transaction.status = ...] and [transaction.meta_data += ...] change
    the object in place, so the [except] block sees the object as the
    [try] block left it.  Such a block runs on the object together with
    the world; an exception leaves both as they are. *)
Definition Local (X A : Type) : Type := X → World → result A * X * World.

#[global] Instance Local_ret {X} : MRet (Local X) :=
  fun A a x w => (Returns a, x, w).
#[global] Instance Local_bind {X} : MBind (Local X) := fun A B f m x w =>
  match m x w with
  | (Returns a, x', w') => f a x' w'
  | (Raises e, x', w') => (Raises e, x', w')
  end.

(** A statement that leaves the object alone. *)
Definition inline {X A} (m : M A) : Local X A :=
  fun x w => let '(r, w') := m w in (r, x, w').

(** [x.attribute = ...] *)
Definition assign {X} (f : X → X) : Local X unit :=
  fun x w => (Returns (), f x, w).

(** Reading the object. *)
Definition the_object {X} : Local X X :=
  fun x w => (Returns x, x, w).

(** [try: body except Exception as e: handler] around a block that
    assigns to [x]. *)
Definition try_except_on {X A} (x : X) (body : Local X A)
    (handler : X → exn → M A) : M A :=
  fun w =>
    match body x w with
    | (Returns a, _, w') => (Returns a, w')
    | (Raises e, x', w') => handler x' e w'
    end.

(** Field updates of the world. *)
Definition with_wallets (f : gmap nat Wallet.t → gmap nat Wallet.t) (w : World) :=
  {| service_prices := service_prices w; wallets := f (wallets w);
     transactions := transactions w; vendor_calls := vendor_calls w;
     background_tasks := background_tasks w;
     trans_ids_issued := trans_ids_issued w |}.

Definition with_transactions
    (f : list Transaction.t → list Transaction.t) (w : World) :=
  {| service_prices := service_prices w; wallets := wallets w;
     transactions := f (transactions w); vendor_calls := vendor_calls w;
     background_tasks := background_tasks w;
     trans_ids_issued := trans_ids_issued w |}.

Definition with_vendor_calls
    (f : list vendor_call → list vendor_call) (w : World) :=
  {| service_prices := service_prices w; wallets := wallets w;
     transactions := transactions w; vendor_calls := f (vendor_calls w);
     background_tasks := background_tasks w;
     trans_ids_issued := trans_ids_issued w |}.

Definition with_background_tasks
    (f : list Email.t → list Email.t) (w : World) :=
  {| service_prices := service_prices w; wallets := wallets w;
     transactions := transactions w; vendor_calls := vendor_calls w;
     background_tasks := f (background_tasks w);
     trans_ids_issued := trans_ids_issued w |}.

Definition with_trans_ids_issued (f : nat → nat) (w : World) :=
  {| service_prices := service_prices w; wallets := wallets w;
     transactions := transactions w; vendor_calls := vendor_calls w;
     background_tasks := background_tasks w;
     trans_ids_issued := f (trans_ids_issued w) |}.

(** ** The ledger store *)

(** [session.exec(select(ServicePrice).where(
      ServicePrice.service_identifier == identifier)).first()] *)
Definition session_exec_first (identifier : string) : M (option ServicePrice.t) :=
  fun w =>
    (Returns (List.find
       (fun p => String.eqb (ServicePrice.service_identifier p) identifier)
       (service_prices w)), w).

(** Modelled from the spec: [WalletRepository]
    ([app.repositories.wallet_repository], imported by the endpoint module),
    after the ledger operations the engine requires: wallet lookup by user,
    a balance write, and creation and update of transaction records.  A
    created record receives the next primary key; records are never
    deleted, so the key of row [i] is [i+1]. *)
Definition wallet_repo_get_by_user_id (user_id : nat) : M (option Wallet.t) :=
  fun w => (Returns (wallets w !! user_id), w).

(** [wallet_repo.update(wallet, {"balance": b})] for the wallet object
    fetched for [owner]. *)
Definition wallet_repo_update (owner : nat) (wallet : Wallet.t) (b : float) : M unit :=
  fun w => (Returns (), with_wallets <[owner := Wallet.set_balance b wallet]> w).

(** [wallet_repo.create_transaction(transaction)]; the object gets its
    primary key, which the endpoints read back as [transaction.id].  That
    the key is the next number is this store's choice of a fresh key. *)
Definition wallet_repo_create_transaction (transaction : Transaction.t)
    : M Transaction.t :=
  fun w =>
    let row := Transaction.set_id (Some (S (length (transactions w)))) transaction in
    (Returns row, with_transactions (fun l => l ++ [row]) w).

(** [wallet_repo.update_transaction(transaction)]: the row with the
    object's primary key takes the object's current attributes. *)
Definition wallet_repo_update_transaction (transaction : Transaction.t) : M unit :=
  fun w =>
    match Transaction.id transaction with
    | Some (S i) => (Returns (), with_transactions <[i := transaction]> w)
    | _ => (Returns (), w)
    end.

(** ** Price computation *)

(** The block "1. Calculate Price", identical in [purchase_airtime],
    [purchase_data] and [purchase_electricity]:
    [profit = 0.0]; with a price row, [profit = profit_value] for [FIXED]
    and [profit = cost_price * (profit_value / 100)] for [PERCENTAGE];
    [selling_price = cost_price + profit].  Returns [(profit, selling_price)]. *)
Definition calculate_price (cost_price : float)
    (price_config : option ServicePrice.t) : result (float * float) :=
  let profit := 0 in
  profit ←
    match price_config with
    | Some price_config =>
        match ServicePrice.profit_type price_config with
        | FIXED => mret (ServicePrice.profit_value price_config)
        | PERCENTAGE =>
            q ← py_truediv (ServicePrice.profit_value price_config) 100;
            mret (cost_price * q)
        | OTHER _ => mret profit
        end
    | None => mret profit
    end;
  let selling_price := cost_price + profit in
  mret (profit, selling_price).

(** ** Identifier generation *)

Definition ascii_uppercase : string := "ABCDEFGHIJKLMNOPQRSTUVWXYZ".
Definition digits : string := "0123456789".

(** A [strftime] field of two decimal digits, zero padded. *)
Definition zero_pad2 (n : nat) : string :=
  let s := pretty n in
  if (String.length s <? 2)%nat then "0" +:+ s else s.

(** [d.strftime("%y%m%d%H%M%S")] *)
Definition strftime_ymdHMS (d : datetime) : string :=
  zero_pad2 (year d mod 100) +:+ zero_pad2 (month d) +:+ zero_pad2 (day d) +:+
  zero_pad2 (hour d) +:+ zero_pad2 (minute d) +:+ zero_pad2 (second d).

(** [''.join(random.choices(population, k=k))], the [j]-th character being
    [population[index j]]. *)
Definition random_choices (population : string) (k : nat) (index : nat → nat)
    : string :=
  String.string_of_list_ascii
    ((fun j => nth (index j) (String.list_ascii_of_string population) "000"%char)
       <$> seq 0 k).

(** The identifier issued at clock reading [d] with random indices [index]. *)
Definition trans_id_at (d : datetime) (index : nat → nat) : string :=
  let timestamp := strftime_ymdHMS d in
  let suffix := random_choices (ascii_uppercase +:+ digits) 3 index in
  timestamp +:+ suffix.

(** [current_user.profile.address if current_user.profile else ""] *)
Definition user_address (current_user : User.t) : value :=
  match User.profile current_user with
  | Some p => match Profile.address p with Some a => VStr a | None => VNone end
  | None => VStr ""
  end.

(** ** Request payloads sent to MobileNig

    The [payload = {...}] literals of the three endpoints. *)
Definition airtime_payload (request : AirtimeRequest.t) (current_user : User.t)
    (cost_price : float) (trans_id : string) : dict :=
  [ ("service_id", VStr (AirtimeRequest.network request));
    ("phoneNumber", VStr (AirtimeRequest.phone_number request));
    ("amount", VNum cost_price);            (* Service provider gets cost price *)
    ("trans_id", VStr trans_id);
    ("email", VStr (User.email current_user));
    ("customerName", VStr (str_or (User.full_name current_user) ""));
    ("address", user_address current_user) ].

Definition data_payload (request : DataRequest.t) (current_user : User.t)
    (trans_id : string) : dict :=
  [ ("service_id", VStr (DataRequest.plan_id request));
    ("phoneNumber", VStr (DataRequest.phone_number request));
    ("trans_id", VStr trans_id);
    ("email", VStr (User.email current_user));
    ("customerName", VStr (str_or (User.full_name current_user) ""));
    ("address", user_address current_user) ].

Definition electricity_payload (request : ElectricityRequest.t)
    (current_user : User.t) (cost_price : float) (trans_id phone_number : string)
    : dict :=
  [ ("service_id", VStr (ElectricityRequest.provider request));
    ("meterNumber", VStr (ElectricityRequest.meter_number request));
    ("amount", VNum cost_price);
    ("trans_id", VStr trans_id);
    ("phoneNumber", VStr phone_number);
    ("customerDtNumber", VStr "0000");
    ("customerAddress",
     VStr (match User.profile current_user with
           | Some p => str_or (Profile.address p) "Nigeria"
           | None => "Nigeria"
           end));
    ("customerAccountType", VStr (upper (ElectricityRequest.type request)));
    ("contactType", VStr "LANDLORD");
    ("email", VStr (User.email current_user));
    ("customerName", VStr (str_or (User.full_name current_user) ""));
    ("address", user_address current_user) ].

(** [phone_number = "08000000000"], replaced by the profile's number when
    the user has a profile with a non-empty one. *)
Definition contact_phone_number (current_user : User.t) : string :=
  let phone_number := "08000000000" in
  match User.profile current_user with
  | Some p =>
      if str_truthy (Profile.phone_number p)
      then default phone_number (Profile.phone_number p)
      else phone_number
  | None => phone_number
  end.

(** [variation_id = "prepaid"], set to ["postpaid"] when
    [request.type.lower() == "postpaid"]. *)
Definition ebills_variation_id (type : string) : string :=
  let variation_id := "prepaid" in
  if String.eqb (lower type) "postpaid" then "postpaid" else variation_id.

Section Engine.
Variable env : Env.

(** [generate_trans_id(prefix)]; the prefix is not used. *)
Definition generate_trans_id (prefix : string) : M string :=
  fun w =>
    let k := trans_ids_issued w in
    (Returns (trans_id_at (now env k) (random_index env k)),
     with_trans_ids_issued S w).

(** [str(e)] *)
Definition str_exn (e : exn) : string :=
  match e with
  | HTTPException status_code detail => str_http_exception env status_code detail
  | Exception message => message
  end.

(** [f"{x}"] for an optional integer or string attribute. *)
Definition str_id (i : option nat) : string :=
  match i with Some n => pretty n | None => "None" end.

(** [str(v)] of a member: a string prints as itself and [None] as
    ["None"]; the other values print as [env] says. *)
Definition str_value (v : value) : string :=
  match v with
  | VStr s => s
  | VNone => "None"
  | _ => str env v
  end.

(** [f"{d.get(k)}"]: a missing member is [None]. *)
Definition str_get (x : option value) : string :=
  match x with
  | Some v => str_value v
  | None => "None"
  end.

(** [v.get(k)]: only a [dict] has the method, any other object raises
    [AttributeError], which is an [Exception]. *)
Definition value_get (v : value) (k : string) : M value :=
  match v with
  | VDict d => mret (default VNone (dict_get k d))
  | _ => raise (Exception
           ("'" +:+ type_name v +:+ "' object has no attribute 'get'"))
  end.

(** *** Provider adapters: every call is logged, then answered by [env]. *)
Definition call_vendor {A} (c : vendor_call) (reply : result A) : M A :=
  fun w => (reply, with_vendor_calls (fun l => l ++ [c]) w).

Definition mobilenig_service_purchase_service (payload : dict) : M value :=
  call_vendor (MobileNigPurchase payload) (mobilenig_reply env payload).

Definition ebills_service_verify_customer
    (customer_id service_id variation_id : string) : M EbillsResponse.t :=
  call_vendor (EbillsVerify customer_id service_id variation_id)
              (ebills_verify_reply env customer_id service_id variation_id).

Definition ebills_service_purchase_electricity
    (request_id customer_id service_id variation_id : string) (amount : float)
    : M EbillsResponse.t :=
  call_vendor
    (EbillsPurchase request_id customer_id service_id variation_id amount)
    (ebills_purchase_reply env request_id customer_id service_id variation_id amount).

(** [VTUAutomator()] *)
Definition VTUAutomator_init : M unit := lift (sltv_driver env).

Definition VTUAutomator_purchase_tv (request : TVRequest.t) : M value :=
  call_vendor (SltvPurchase request) (sltv_reply env request).

(** *** [EmailService]: each method only queues a background task. *)
Definition EmailService_add_task (e : Email.t) : M unit :=
  fun w => (Returns (), with_background_tasks (fun l => l ++ [e]) w).

Definition EmailService_send_purchase_success_email
    (email_to : string) (name : option string) (service_name : string)
    (amount : float) (transaction_ref recipient : string) : M unit :=
  EmailService_add_task
    {| Email.kind := PurchaseSuccess; Email.email_to := email_to;
       Email.name := name; Email.service_name := service_name;
       Email.amount := amount; Email.transaction_ref := transaction_ref;
       Email.extra := Some recipient |}.

Definition EmailService_send_purchase_failed_email
    (email_to : string) (name : option string) (service_name : string)
    (amount : float) (transaction_ref reason : string) : M unit :=
  EmailService_add_task
    {| Email.kind := PurchaseFailed; Email.email_to := email_to;
       Email.name := name; Email.service_name := service_name;
       Email.amount := amount; Email.transaction_ref := transaction_ref;
       Email.extra := Some reason |}.

Definition EmailService_send_refund_email
    (email_to : string) (name : option string) (service_name : string)
    (amount : float) (transaction_ref : string) : M unit :=
  EmailService_add_task
    {| Email.kind := Refund; Email.email_to := email_to;
       Email.name := name; Email.service_name := service_name;
       Email.amount := amount; Email.transaction_ref := transaction_ref;
       Email.extra := None |}.


(** [transaction.id] as a JSON member. *)
Definition id_value (i : option nat) : value :=
  match i with Some n => VInt n | None => VNone end.

(** *** The compensation block

    The [except Exception as e:] block of [purchase_airtime],
    [purchase_data] and [purchase_electricity]; the three copies differ
    only in the product [label] and the [item] line of the e-mails. *)
Definition refund_on_exception (label item : string) (current_user : User.t)
    (wallet : Wallet.t) (selling_price : float)
    (transaction : Transaction.t) (e : exn) : M unit :=
  let transaction := Transaction.set_status "failed" transaction in
  let transaction :=
    Transaction.append_meta_data (" | Error: " +:+ str_exn e) transaction in
  wallet_repo_update_transaction transaction;;
  (* Send Failed Email *)
  EmailService_send_purchase_failed_email
    (User.email current_user) (User.full_name current_user) item
    selling_price (Transaction.reference transaction) (str_exn e);;
  (* Refund *)
  let wallet :=
    Wallet.set_balance (Wallet.balance wallet + selling_price) wallet in
  wallet_repo_update (User.id current_user) wallet (Wallet.balance wallet);;
  refund_trans_id ← generate_trans_id "REFUND";
  let refund_transaction :=
    {| Transaction.id := None;
       Transaction.wallet_id := Wallet.id wallet;
       Transaction.user_id := User.id current_user;
       Transaction.trans_id := refund_trans_id;
       Transaction.amount := selling_price;
       Transaction.type := "credit";
       Transaction.status := "success";
       Transaction.reference :=
         "REFUND-" +:+ str_id (Transaction.id transaction);
       Transaction.service_type := "refund";
       Transaction.meta_data :=
         "Refund for failed " +:+ label +:+ " transaction " +:+
         str_id (Transaction.id transaction);
       Transaction.profit := 0 |} in
  refund_transaction ← wallet_repo_create_transaction refund_transaction;
  (* Send Refund Email *)
  EmailService_send_refund_email
    (User.email current_user) (User.full_name current_user) item
    selling_price (Transaction.reference refund_transaction);;
  raise (HTTPException 400 ("Transaction failed: " +:+ str_exn e)).

(** *** [POST /airtime] *)
Definition purchase_airtime (request : AirtimeRequest.t)
    (current_user : User.t) : M dict :=
  (* 1. Calculate Price *)
  let service_identifier :=
    "airtime-" +:+ lower (AirtimeRequest.network request) in
  price_config ← session_exec_first service_identifier;
  let cost_price := AirtimeRequest.amount request in
  '(profit, selling_price) ← lift (calculate_price cost_price price_config);
  wallet ← wallet_repo_get_by_user_id (User.id current_user);
  match wallet with
  | None => raise (HTTPException 404 "Wallet not found")
  | Some wallet =>
    if Wallet.balance wallet <? selling_price
    then raise (HTTPException 400 "Insufficient funds")
    else
      (* Deduct balance *)
      let wallet :=
        Wallet.set_balance (Wallet.balance wallet - selling_price) wallet in
      wallet_repo_update (User.id current_user) wallet (Wallet.balance wallet);;
      (* Create transaction *)
      trans_id ← generate_trans_id "AIRTIME";
      let transaction :=
        {| Transaction.id := None;
           Transaction.wallet_id := Wallet.id wallet;
           Transaction.user_id := User.id current_user;
           Transaction.trans_id := trans_id;
           Transaction.amount := selling_price;
           Transaction.type := "debit";
           Transaction.status := "processing";
           Transaction.reference :=
             "AIRTIME-" +:+ pretty (Wallet.id wallet) +:+ "-" +:+
             AirtimeRequest.phone_number request;
           Transaction.service_type := "airtime";
           Transaction.meta_data :=
             "Network: " +:+ AirtimeRequest.network request;
           Transaction.profit := profit |} in
      transaction ← wallet_repo_create_transaction transaction;
      let item :=
        "Airtime " +:+ AirtimeRequest.network request +:+ " " +:+
        str env (VNum (AirtimeRequest.amount request)) in
      try_except
        (let payload :=
           airtime_payload request current_user cost_price trans_id in
         response ← mobilenig_service_purchase_service payload;
         let transaction := Transaction.set_status "success" transaction in
         let transaction :=
           Transaction.append_meta_data
             (" | Response: " +:+ str env response) transaction in
         wallet_repo_update_transaction transaction;;
         (* Send Success Email *)
         EmailService_send_purchase_success_email
           (User.email current_user) (User.full_name current_user) item
           selling_price (Transaction.reference transaction)
           (AirtimeRequest.phone_number request))
        (refund_on_exception "Airtime" item current_user wallet
           selling_price transaction);;
      mret [ ("message", VStr "Airtime purchase successful");
             ("transaction_id", id_value (Transaction.id transaction)) ]
  end.

(** *** [POST /data] *)
Definition purchase_data (request : DataRequest.t)
    (current_user : User.t) : M dict :=
  (* 1. Calculate Price *)
  let service_identifier :=
    "data-" +:+ lower (DataRequest.network request) in
  price_config ← session_exec_first service_identifier;
  let cost_price := DataRequest.amount request in
  '(profit, selling_price) ← lift (calculate_price cost_price price_config);
  wallet ← wallet_repo_get_by_user_id (User.id current_user);
  match wallet with
  | None => raise (HTTPException 404 "Wallet not found")
  | Some wallet =>
    if Wallet.balance wallet <? selling_price
    then raise (HTTPException 400 "Insufficient funds")
    else
      (* Deduct balance *)
      let wallet :=
        Wallet.set_balance (Wallet.balance wallet - selling_price) wallet in
      wallet_repo_update (User.id current_user) wallet (Wallet.balance wallet);;
      trans_id ← generate_trans_id "DATA";
      let transaction :=
        {| Transaction.id := None;
           Transaction.wallet_id := Wallet.id wallet;
           Transaction.user_id := User.id current_user;
           Transaction.trans_id := trans_id;
           Transaction.amount := selling_price;
           Transaction.type := "debit";
           Transaction.status := "processing";
           Transaction.reference :=
             "DATA-" +:+ pretty (Wallet.id wallet) +:+ "-" +:+
             DataRequest.phone_number request;
           Transaction.service_type := "data";
           Transaction.meta_data := "Plan: " +:+ DataRequest.plan_id request;
           Transaction.profit := profit |} in
      transaction ← wallet_repo_create_transaction transaction;
      let item :=
        "Data " +:+ DataRequest.network request +:+ " " +:+
        DataRequest.plan_id request in
      try_except
        (let payload := data_payload request current_user trans_id in
         response ← mobilenig_service_purchase_service payload;
         let transaction := Transaction.set_status "success" transaction in
         let transaction :=
           Transaction.append_meta_data
             (" | Response: " +:+ str env response) transaction in
         wallet_repo_update_transaction transaction;;
         (* Send Success Email *)
         EmailService_send_purchase_success_email
           (User.email current_user) (User.full_name current_user) item
           selling_price (Transaction.reference transaction)
           (DataRequest.phone_number request))
        (refund_on_exception "Data" item current_user wallet
           selling_price transaction);;
      mret [ ("message", VStr "Data purchase successful");
             ("transaction_id", id_value (Transaction.id transaction)) ]
  end.

(** *** [POST /electricity/verify] *)
Definition verify_electricity (request : ElectricityVerifyRequest.t) : M dict :=
  try_except
    ((* Map provider aliases *)
     let service_id := ElectricityVerifyRequest.provider request in
     let service_id :=
       if str_in (lower (ElectricityVerifyRequest.provider request))
                 ["enugu-electric"; "eedc"; "eddc"]
       then "enugu-electric" else service_id in
     if String.eqb service_id "enugu-electric"
     then
       (* Map request type to eBills variation *)
       let variation_id :=
         ebills_variation_id (ElectricityVerifyRequest.type request) in
       verify_resp ←
         ebills_service_verify_customer
           (ElectricityVerifyRequest.meter_number request)
           service_id variation_id;
       if eq_str (EbillsResponse.code verify_resp) "success"
       then mret [ ("status", VStr "success");
                   ("data", default VNone (EbillsResponse.data verify_resp)) ]
       else raise (HTTPException 400
              ("Verification Failed: " +:+
               str_get (EbillsResponse.message verify_resp)))
     else
       mret [ ("status", VStr "success");
              ("message",
               VStr "Verification skipped for this provider (not fully implemented yet).");
              ("data", VDict [("customer_name", VStr "Verified User")]) ])
    (fun e => raise (HTTPException 500 (str_exn e))).

(** *** [POST /electricity]

    Between the assignments to [transaction] and its update the [try]
    block evaluates [data.get("token")], which can raise: the block is
    written over [Local], so that the [except] block gets the object as
    assigned so far. *)
Definition purchase_electricity (request : ElectricityRequest.t)
    (current_user : User.t) : M dict :=
  (* 1. Calculate Price *)
  let service_identifier :=
    "electricity-" +:+ lower (ElectricityRequest.provider request) in
  price_config ← session_exec_first service_identifier;
  let cost_price := ElectricityRequest.amount request in
  '(profit, selling_price) ← lift (calculate_price cost_price price_config);
  wallet ← wallet_repo_get_by_user_id (User.id current_user);
  match wallet with
  | None => raise (HTTPException 404 "Wallet not found")
  | Some wallet =>
    if Wallet.balance wallet <? selling_price
    then raise (HTTPException 400 "Insufficient funds")
    else
      (* Deduct balance *)
      let wallet :=
        Wallet.set_balance (Wallet.balance wallet - selling_price) wallet in
      wallet_repo_update (User.id current_user) wallet (Wallet.balance wallet);;
      trans_id ← generate_trans_id "ELEC";
      let transaction :=
        {| Transaction.id := None;
           Transaction.wallet_id := Wallet.id wallet;
           Transaction.user_id := User.id current_user;
           Transaction.trans_id := trans_id;
           Transaction.amount := selling_price;
           Transaction.type := "debit";
           Transaction.status := "processing";
           Transaction.reference :=
             "ELEC-" +:+ pretty (Wallet.id wallet) +:+ "-" +:+
             ElectricityRequest.meter_number request;
           Transaction.service_type := "electricity";
           Transaction.meta_data :=
             "Provider: " +:+ ElectricityRequest.provider request +:+
             ", Type: " +:+ ElectricityRequest.type request;
           Transaction.profit := profit |} in
      transaction ← wallet_repo_create_transaction transaction;
      let item :=
        "Electricity " +:+ ElectricityRequest.provider request +:+ " " +:+
        str env (VNum (ElectricityRequest.amount request)) in
      try_except_on transaction
        ((* Use user profile phone number if available *)
         let phone_number := contact_phone_number current_user in
         (* CHECK PROVIDER FOR ROUTING *)
         if str_in (lower (ElectricityRequest.provider request))
                   ["enugu-electric"; "eedc"; "eddc"]
         then
           (* eBills Africa Integration *)
           (* Map request type to eBills variation (prepaid/postpaid) *)
           let variation_id :=
             ebills_variation_id (ElectricityRequest.type request) in
           inline
             (try_except
                (verify_resp ←
                   ebills_service_verify_customer
                     (ElectricityRequest.meter_number request)
                     "enugu-electric" variation_id;
                 if negb (eq_str (EbillsResponse.code verify_resp) "success")
                 then raise (Exception
                        ("Customer Verification Failed: " +:+
                         str_get (EbillsResponse.message verify_resp)))
                 else mret ())
                (fun verify_err =>
                   raise (Exception
                     ("Verification Error: " +:+ str_exn verify_err))));;
           response ←
             inline
               (ebills_service_purchase_electricity trans_id
                  (ElectricityRequest.meter_number request)
                  "enugu-electric" variation_id cost_price);
           (* Check eBills response code *)
           if eq_str (EbillsResponse.code response) "success"
           then
             assign (Transaction.set_status "success");;
             assign (Transaction.append_meta_data
                       (" | eBills Response: " +:+ EbillsResponse.text response));;
             (* Extract token if available *)
             let data := default (VDict []) (EbillsResponse.data response) in
             token ← inline (value_get data "token");
             (if truthy token
              then assign (Transaction.append_meta_data
                             (" | Token: " +:+ str env token))
              else mret ());;
             transaction ← the_object;
             inline (wallet_repo_update_transaction transaction);;
             (* Send Success Email *)
             inline
               (EmailService_send_purchase_success_email
                  (User.email current_user) (User.full_name current_user) item
                  selling_price (Transaction.reference transaction)
                  (if truthy token
                   then ElectricityRequest.meter_number request +:+
                        " (Token: " +:+ str env token +:+ ")"
                   else ElectricityRequest.meter_number request))
           else
             inline
               (raise (Exception
                  ("eBills Error: " +:+
                   match EbillsResponse.message response with
                   | Some message => str_value message
                   | None => "Unknown error"
                   end)))
         else
           (* MobileNig Integration (Default for others) *)
           let payload :=
             electricity_payload request current_user cost_price trans_id
               phone_number in
           response ← inline (mobilenig_service_purchase_service payload);
           assign (Transaction.set_status "success");;
           assign (Transaction.append_meta_data
                     (" | Response: " +:+ str env response));;
           transaction ← the_object;
           inline (wallet_repo_update_transaction transaction);;
           (* Send Success Email *)
           inline
             (EmailService_send_purchase_success_email
                (User.email current_user) (User.full_name current_user) item
                selling_price (Transaction.reference transaction)
                (ElectricityRequest.meter_number request)))
        (refund_on_exception "Electricity" item current_user wallet
           selling_price);;
      mret [ ("message", VStr "Electricity purchase successful");
             ("transaction_id", id_value (Transaction.id transaction)) ]
  end.

(** *** [POST /tv] *)
Definition purchase_tv (request : TVRequest.t) : M dict :=
  (* Execute purchase synchronously *)
  VTUAutomator_init;;
  try_except
    (result_message ← VTUAutomator_purchase_tv request;
     if truthy result_message
     then mret [ ("status", VStr "success"); ("message", result_message) ]
     else raise (HTTPException 400
            "Transaction failed. Your wallet has been refunded."))
    (fun e =>
       raise (HTTPException 500
         ("Transaction failed with error: " +:+ str_exn e +:+
          ". Your wallet has been refunded."))).

(** *** The router

    [@router.post("/airtime")], [@router.post("/data")] and
    [@router.post("/electricity")]: the three purchase intents that go
    through the ledger. *)
Inductive intent :=
  | Airtime (request : AirtimeRequest.t)
  | Data (request : DataRequest.t)
  | Electricity (request : ElectricityRequest.t).

Definition purchase (i : intent) (current_user : User.t) : M dict :=
  match i with
  | Airtime request => purchase_airtime request current_user
  | Data request => purchase_data request current_user
  | Electricity request => purchase_electricity request current_user
  end.
End Engine.

(** ** Vocabulary of the statements *)

(** The key under which an intent's pricing rule is looked up. *)
Definition service_identifier_of (i : intent) : string :=
  match i with
  | Airtime request => "airtime-" +:+ lower (AirtimeRequest.network request)
  | Data request => "data-" +:+ lower (DataRequest.network request)
  | Electricity request =>
      "electricity-" +:+ lower (ElectricityRequest.provider request)
  end.

(** The requested amount: what the vendor charges. *)
Definition cost_price_of (i : intent) : float :=
  match i with
  | Airtime request => AirtimeRequest.amount request
  | Data request => DataRequest.amount request
  | Electricity request => ElectricityRequest.amount request
  end.

(** The pricing rule in force for an intent, if any. *)
Definition price_config_of (i : intent) (w : World) : option ServicePrice.t :=
  List.find
    (fun p => String.eqb (ServicePrice.service_identifier p) (service_identifier_of i))
    (service_prices w).

(** [(profit, selling_price)] as the endpoint computes them. *)
Definition quote (i : intent) (w : World) : result (float * float) :=
  calculate_price (cost_price_of i) (price_config_of i w).

(** The identifier the next call of [generate_trans_id] issues. *)
Definition next_trans_id (env : Env) (w : World) : string :=
  trans_id_at (now env (trans_ids_issued w)) (random_index env (trans_ids_issued w)).

(** The provider is one of the spellings of Enugu Electric. *)
Definition routes_to_ebills (provider : string) : bool :=
  str_in (lower provider) ["enugu-electric"; "eedc"; "eddc"].

(** The balance of a user's wallet, if the user has one. *)
Definition balance_of (user_id : nat) (w : World) : option float :=
  Wallet.balance <$> wallets w !! user_id.

Section Outcomes.
Variable env : Env.

(** Customer verification at eBills passes: the call returns a reply
    whose code is ["success"].  It fails when the call raises or the
    code is anything else. *)
Definition verification_passes (request : ElectricityRequest.t) : bool :=
  match ebills_verify_reply env (ElectricityRequest.meter_number request)
          "enugu-electric" (ebills_variation_id (ElectricityRequest.type request))
  with
  | Returns resp => eq_str (EbillsResponse.code resp) "success"
  | Raises _ => false
  end.

(** The purchase call at eBills, made with identifier [trans_id] for the
    cost price, returns a reply whose code is ["success"]. *)
Definition ebills_purchase_succeeds (request : ElectricityRequest.t)
    (trans_id : string) : bool :=
  match ebills_purchase_reply env trans_id
          (ElectricityRequest.meter_number request) "enugu-electric"
          (ebills_variation_id (ElectricityRequest.type request))
          (ElectricityRequest.amount request)
  with
  | Returns resp => eq_str (EbillsResponse.code resp) "success"
  | Raises _ => false
  end.

(** The payload an intent sends to MobileNig. *)
Definition mobilenig_payload (i : intent) (current_user : User.t)
    (trans_id : string) : dict :=
  match i with
  | Airtime request =>
      airtime_payload request current_user (AirtimeRequest.amount request) trans_id
  | Data request => data_payload request current_user trans_id
  | Electricity request =>
      electricity_payload request current_user
        (ElectricityRequest.amount request) trans_id
        (contact_phone_number current_user)
  end.

(** The purchase call at MobileNig returns instead of raising. *)
Definition mobilenig_purchase_succeeds (payload : dict) : bool :=
  match mobilenig_reply env payload with
  | Returns _ => true
  | Raises _ => false
  end.

(** Adapter dispatch succeeds ([true]) or fails ([false]).  With the
    verifying adapter it succeeds when verification passes and the
    purchase call then answers ["success"]; with the generic adapter,
    when the purchase call returns. *)
Definition dispatch_succeeds (i : intent) (current_user : User.t)
    (trans_id : string) : bool :=
  match i with
  | Electricity request =>
      if routes_to_ebills (ElectricityRequest.provider request)
      then verification_passes request && ebills_purchase_succeeds request trans_id
      else mobilenig_purchase_succeeds (mobilenig_payload i current_user trans_id)
  | _ => mobilenig_purchase_succeeds (mobilenig_payload i current_user trans_id)
  end.

(** [data.get("token")] can be evaluated on a reply: its [data] member
    is missing (the default [{}] is used) or an object. *)
Definition data_is_object (resp : EbillsResponse.t) : bool :=
  match EbillsResponse.data resp with
  | None | Some (VDict _) => true
  | Some _ => false
  end.

(** The token of the purchase reply can be read.  Only the verifying
    adapter's route reads one; [true] on the other routes and when the
    purchase call raises. *)
Definition token_readable (i : intent) (trans_id : string) : bool :=
  match i with
  | Electricity request =>
      if routes_to_ebills (ElectricityRequest.provider request)
      then
        match ebills_purchase_reply env trans_id
                (ElectricityRequest.meter_number request) "enugu-electric"
                (ebills_variation_id (ElectricityRequest.type request))
                (ElectricityRequest.amount request)
        with
        | Returns resp => data_is_object resp
        | Raises _ => true
        end
      else true
  | _ => true
  end.

(** The [try] block of a purchase runs to its end: the dispatch succeeds
    and the token, where one is read, is readable. *)
Definition completes (i : intent) (current_user : User.t)
    (trans_id : string) : bool :=
  dispatch_succeeds i current_user trans_id && token_readable i trans_id.

(** The vendor calls a dispatched intent makes, in order. *)
Definition calls_of (i : intent) (current_user : User.t) (trans_id : string)
    : list vendor_call :=
  match i with
  | Electricity request =>
      if routes_to_ebills (ElectricityRequest.provider request)
      then
        EbillsVerify (ElectricityRequest.meter_number request) "enugu-electric"
          (ebills_variation_id (ElectricityRequest.type request))
        :: (if verification_passes request
            then [EbillsPurchase trans_id
                    (ElectricityRequest.meter_number request) "enugu-electric"
                    (ebills_variation_id (ElectricityRequest.type request))
                    (ElectricityRequest.amount request)]
            else [])
      else [MobileNigPurchase (mobilenig_payload i current_user trans_id)]
  | _ => [MobileNigPurchase (mobilenig_payload i current_user trans_id)]
  end.
End Outcomes.

(** The selling price under a percentage rule, as the specification words
    it: [cost_price * (1 + v/100)]. *)
Definition percentage_formula (cost_price v : float) : float :=
  cost_price * (1 + v / 100).

(** A pricing rule of the given type and value. *)
Definition rule (ident : string) (t : ProfitType) (v : float) : ServicePrice.t :=
  {| ServicePrice.service_identifier := ident;
     ServicePrice.profit_type := t;
     ServicePrice.profit_value := v |}.

(** C3, as stated, at a percentage rule: the selling price equals
    [cost_price * (1 + v/100)]. *)
Definition percentage_rule_as_stated (cost_price v : float) : Prop :=
  ∀ ident, ∃ profit selling_price,
    calculate_price cost_price (Some (rule ident PERCENTAGE v))
      = Returns (profit, selling_price) ∧
    (selling_price =? percentage_formula cost_price v) = true.

(** The timestamp as the specification words it: two decimal digits each
    for year, month, day, hour, minute and second. *)
Definition two_digits (n : nat) : string :=
  String (ascii_of_nat (48 + n / 10)) (String (ascii_of_nat (48 + n mod 10)) "").

Definition timestamp_of (d : datetime) : string :=
  two_digits (year d mod 100) +:+ two_digits (month d) +:+ two_digits (day d) +:+
  two_digits (hour d) +:+ two_digits (minute d) +:+ two_digits (second d).

(** The readings [datetime.now()] can give. *)
Definition valid_datetime (d : datetime) : Prop :=
  (1 ≤ month d ≤ 12 ∧ 1 ≤ day d ≤ 31 ∧
   hour d < 24 ∧ minute d < 60 ∧ second d < 60)%nat.

(** The world after a purchase that was admitted: the owner's wallet
    rewritten, [rows] appended to the transaction table, [calls] to the
    vendor log, [mails] to the task queue, and [ids] identifiers issued. *)
Definition settled (w : World) (owner : nat) (wallet : Wallet.t)
    (rows : list Transaction.t) (calls : list vendor_call)
    (mails : list Email.t) (ids : nat) : World :=
  {| service_prices := service_prices w;
     wallets := <[owner := wallet]> (wallets w);
     transactions := transactions w ++ rows;
     vendor_calls := vendor_calls w ++ calls;
     background_tasks := background_tasks w ++ mails;
     trans_ids_issued := ids + trans_ids_issued w |}.

(** C1, as stated: after the attempt the wallet balance equals the balance
    before it. *)
Definition balance_restored (env : Env) (i : intent) (u : User.t) (w : World)
    : Prop :=
  balance_of (User.id u) (purchase env i u w).2 = balance_of (User.id u) w.

(** A purchase call forwards amount [x] to the vendor: the [amount] member
    of a MobileNig payload, the [amount] argument of an eBills purchase. *)
Definition forwards_amount (x : float) (c : vendor_call) : Prop :=
  match c with
  | MobileNigPurchase payload => dict_get "amount" payload = Some (VNum x)
  | EbillsPurchase _ _ _ _ amount => amount = x
  | EbillsVerify _ _ _ | SltvPurchase _ => True
  end.

(** C8, as stated: every purchase call of the attempt forwards the cost
    price. *)
Definition cost_price_forwarded (env : Env) (i : intent) (u : User.t)
    (w : World) : Prop :=
  ∃ calls,
    vendor_calls (purchase env i u w).2 = vendor_calls w ++ calls ∧
    Forall (forwards_amount (cost_price_of i)) calls.

(** The call goes to eBills. *)
Definition is_ebills_call (c : vendor_call) : Prop :=
  match c with
  | EbillsVerify _ _ _ | EbillsPurchase _ _ _ _ _ => True
  | MobileNigPurchase _ | SltvPurchase _ => False
  end.

(** The provider string lower-cases to one of the three spellings of
    Enugu Electric. *)
Definition is_enugu_alias (provider : string) : Prop :=
  lower provider = "enugu-electric" ∨ lower provider = "eedc" ∨
  lower provider = "eddc".

(** ** Concrete scenarios *)

Definition a_moment : datetime :=
  {| year := 2025; month := 11; day := 30; hour := 23; minute := 59; second := 7 |}.

Definition reply_success : EbillsResponse.t :=
  {| EbillsResponse.code := Some (VStr "success");
     EbillsResponse.message := Some (VStr "ORDER COMPLETED");
     EbillsResponse.data :=
       Some (VDict [("token", VStr "1234-5678-9012-3456")]);
     EbillsResponse.text := "{code: success}" |}.

Definition reply_failure : EbillsResponse.t :=
  {| EbillsResponse.code := Some (VStr "failure");
     EbillsResponse.message := Some (VStr "Invalid meter number");
     EbillsResponse.data := None;
     EbillsResponse.text := "{code: failure}" |}.

(** eBills completes the order and sends [null] for its data:
    [{"code": "success", "message": "ORDER COMPLETED", "data": null}]. *)
Definition reply_null_data : EbillsResponse.t :=
  {| EbillsResponse.code := Some (VStr "success");
     EbillsResponse.message := Some (VStr "ORDER COMPLETED");
     EbillsResponse.data := Some VNone;
     EbillsResponse.text := "{code: success, data: None}" |}.

Definition str_plain (v : value) : string :=
  match v with
  | VStr s => s
  | VInt n => pretty n
  | _ => "?"
  end.

(** Every vendor answers favourably. *)
Definition vendors_up : Env :=
  {| now := fun _ => a_moment;
     random_index := fun _ j => (11 * j + 3)%nat;
     mobilenig_reply := fun _ => Returns (VStr "OK");
     ebills_verify_reply := fun _ _ _ => Returns reply_success;
     ebills_purchase_reply := fun _ _ _ _ _ => Returns reply_success;
     sltv_reply := fun _ => Returns (VStr "Recharge successful");
     sltv_driver := Returns ();
     str := str_plain;
     str_http_exception := fun c d => pretty c +:+ ": " +:+ d |}.

(** As [vendors_up], but the purchase reply of eBills has [null] data. *)
Definition ebills_null_data : Env :=
  {| now := fun _ => a_moment;
     random_index := fun _ j => (11 * j + 3)%nat;
     mobilenig_reply := fun _ => Returns (VStr "OK");
     ebills_verify_reply := fun _ _ _ => Returns reply_success;
     ebills_purchase_reply := fun _ _ _ _ _ => Returns reply_null_data;
     sltv_reply := fun _ => Returns (VStr "Recharge successful");
     sltv_driver := Returns ();
     str := str_plain;
     str_http_exception := fun c d => pretty c +:+ ": " +:+ d |}.

(** Chrome does not start: [VTUAutomator()] raises. *)
Definition chrome_missing : Env :=
  {| now := fun _ => a_moment;
     random_index := fun _ j => (11 * j + 3)%nat;
     mobilenig_reply := fun _ => Returns (VStr "OK");
     ebills_verify_reply := fun _ _ _ => Returns reply_success;
     ebills_purchase_reply := fun _ _ _ _ _ => Returns reply_success;
     sltv_reply := fun _ => Returns (VStr "Recharge successful");
     sltv_driver := Raises (Exception "Message: unable to obtain driver for chrome");
     str := str_plain;
     str_http_exception := fun c d => pretty c +:+ ": " +:+ d |}.

(** MobileNig times out, eBills rejects the customer, the TV portal fails. *)
Definition vendors_down : Env :=
  {| now := fun _ => a_moment;
     random_index := fun _ j => (11 * j + 3)%nat;
     mobilenig_reply := fun _ => Raises (Exception "timeout");
     ebills_verify_reply := fun _ _ _ => Returns reply_failure;
     ebills_purchase_reply := fun _ _ _ _ _ => Raises (Exception "timeout");
     sltv_reply := fun _ => Returns (VBool false);
     sltv_driver := Returns ();
     str := str_plain;
     str_http_exception := fun c d => pretty c +:+ ": " +:+ d |}.

Definition alice : User.t :=
  {| User.id := 1; User.email := "alice@example.com";
     User.full_name := Some "Alice"; User.profile := None |}.

(** A ledger without pricing rules in which Alice's wallet holds [b]. *)
Definition ledger (b : float) : World :=
  {| service_prices := [];
     wallets := {[ 1%nat := {| Wallet.id := 7; Wallet.balance := b |} ]};
     transactions := [];
     vendor_calls := [];
     background_tasks := [];
     trans_ids_issued := 0 |}.

Definition airtime_of (x : float) : intent :=
  Airtime {| AirtimeRequest.network := "MTN";
             AirtimeRequest.phone_number := "08031234567";
             AirtimeRequest.amount := x |}.

Definition data_of (x : float) : intent :=
  Data {| DataRequest.network := "MTN";
          DataRequest.phone_number := "08031234567";
          DataRequest.plan_id := "mtn-1gb";
          DataRequest.amount := x |}.

Definition electricity_of (provider : string) (x : float) : intent :=
  Electricity {| ElectricityRequest.provider := provider;
                 ElectricityRequest.meter_number := "45067198783";
                 ElectricityRequest.type := "prepaid";
                 ElectricityRequest.amount := x |}.

(** The same ledger with a 10 percent markup on MTN airtime. *)
Definition priced_ledger (b : float) : World :=
  {| service_prices := [rule "airtime-mtn" PERCENTAGE 10];
     wallets := {[ 1%nat := {| Wallet.id := 7; Wallet.balance := b |} ]};
     transactions := [];
     vendor_calls := [];
     background_tasks := [];
     trans_ids_issued := 0 |}.

Definition eedc_request : ElectricityRequest.t :=
  {| ElectricityRequest.provider := "EEDC";
     ElectricityRequest.meter_number := "45067198783";
     ElectricityRequest.type := "prepaid";
     ElectricityRequest.amount := 50 |}.

Definition ikeja_verify_request : ElectricityVerifyRequest.t :=
  {| ElectricityVerifyRequest.provider := "ikeja-electric";
     ElectricityVerifyRequest.meter_number := "45067198783";
     ElectricityVerifyRequest.type := "prepaid" |}.

Definition alice_wallet (b : float) : Wallet.t :=
  {| Wallet.id := 7; Wallet.balance := b |}.

(** ** The outcomes of a purchase *)

(** What the three endpoints write into the debit record and the e-mails,
    per product. *)
Definition reference_of (i : intent) (wallet : Wallet.t) : string :=
  match i with
  | Airtime request =>
      "AIRTIME-" +:+ pretty (Wallet.id wallet) +:+ "-" +:+
      AirtimeRequest.phone_number request
  | Data request =>
      "DATA-" +:+ pretty (Wallet.id wallet) +:+ "-" +:+
      DataRequest.phone_number request
  | Electricity request =>
      "ELEC-" +:+ pretty (Wallet.id wallet) +:+ "-" +:+
      ElectricityRequest.meter_number request
  end.

Definition service_type_of (i : intent) : string :=
  match i with
  | Airtime _ => "airtime"
  | Data _ => "data"
  | Electricity _ => "electricity"
  end.

Definition label_of (i : intent) : string :=
  match i with
  | Airtime _ => "Airtime"
  | Data _ => "Data"
  | Electricity _ => "Electricity"
  end.

(** The audit trail a debit record starts with. *)
Definition initial_meta_data (i : intent) : string :=
  match i with
  | Airtime request => "Network: " +:+ AirtimeRequest.network request
  | Data request => "Plan: " +:+ DataRequest.plan_id request
  | Electricity request =>
      "Provider: " +:+ ElectricityRequest.provider request +:+
      ", Type: " +:+ ElectricityRequest.type request
  end.

(** The product line of the e-mails. *)
Definition item_of (env : Env) (i : intent) : string :=
  match i with
  | Airtime request =>
      "Airtime " +:+ AirtimeRequest.network request +:+ " " +:+
      str env (VNum (AirtimeRequest.amount request))
  | Data request =>
      "Data " +:+ DataRequest.network request +:+ " " +:+
      DataRequest.plan_id request
  | Electricity request =>
      "Electricity " +:+ ElectricityRequest.provider request +:+ " " +:+
      str env (VNum (ElectricityRequest.amount request))
  end.

Definition success_message (i : intent) : string :=
  label_of i +:+ " purchase successful".

(** The debit record of an attempt, with its final [status] and the [trail]
    appended to its audit trail. *)
Definition debit_record (env : Env) (i : intent) (u : User.t) (w : World)
    (wallet : Wallet.t) (profit selling_price : float)
    (status trail : string) : Transaction.t :=
  {| Transaction.id := Some (S (length (transactions w)));
     Transaction.wallet_id := Wallet.id wallet;
     Transaction.user_id := User.id u;
     Transaction.trans_id := next_trans_id env w;
     Transaction.amount := selling_price;
     Transaction.type := "debit";
     Transaction.status := status;
     Transaction.reference := reference_of i wallet;
     Transaction.service_type := service_type_of i;
     Transaction.meta_data := initial_meta_data i +:+ trail;
     Transaction.profit := profit |}.

(** The credit record of the compensation. *)
Definition refund_record (env : Env) (i : intent) (u : User.t) (w : World)
    (wallet : Wallet.t) (selling_price : float) : Transaction.t :=
  {| Transaction.id := Some (S (S (length (transactions w))));
     Transaction.wallet_id := Wallet.id wallet;
     Transaction.user_id := User.id u;
     Transaction.trans_id :=
       trans_id_at (now env (S (trans_ids_issued w)))
                   (random_index env (S (trans_ids_issued w)));
     Transaction.amount := selling_price;
     Transaction.type := "credit";
     Transaction.status := "success";
     Transaction.reference :=
       "REFUND-" +:+ pretty (S (length (transactions w)));
     Transaction.service_type := "refund";
     Transaction.meta_data :=
       "Refund for failed " +:+ label_of i +:+ " transaction " +:+
       pretty (S (length (transactions w)));
     Transaction.profit := 0 |}.

(** An e-mail about an attempt. *)
Definition mail_of (env : Env) (i : intent) (u : User.t) (kind : email_kind)
    (selling_price : float) (transaction_ref : string)
    (extra : option string) : Email.t :=
  {| Email.kind := kind;
     Email.email_to := User.email u;
     Email.name := User.full_name u;
     Email.service_name := item_of env i;
     Email.amount := selling_price;
     Email.transaction_ref := transaction_ref;
     Email.extra := extra |}.

(** The five ways a purchase can end, each with its response and the world
    it leaves behind: without a wallet; with insufficient funds; delivered;
    refunded because the adapter dispatch failed; and refunded although
    the dispatch succeeded, because the token of the reply could not be
    read, in which case the debit record keeps the [trail] appended before
    the error. *)
Inductive purchase_outcome (env : Env) (i : intent) (u : User.t) (w : World)
    : result dict → World → Prop :=
  | outcome_no_wallet :
      wallets w !! User.id u = None →
      purchase_outcome env i u w
        (Raises (HTTPException 404 "Wallet not found")) w
  | outcome_insufficient_funds wallet profit selling_price :
      quote i w = Returns (profit, selling_price) →
      wallets w !! User.id u = Some wallet →
      (Wallet.balance wallet <? selling_price) = true →
      purchase_outcome env i u w
        (Raises (HTTPException 400 "Insufficient funds")) w
  | outcome_delivered wallet profit selling_price trail recipient :
      quote i w = Returns (profit, selling_price) →
      wallets w !! User.id u = Some wallet →
      (Wallet.balance wallet <? selling_price) = false →
      dispatch_succeeds env i u (next_trans_id env w) = true →
      token_readable env i (next_trans_id env w) = true →
      purchase_outcome env i u w
        (Returns [ ("message", VStr (success_message i));
                   ("transaction_id", VInt (S (length (transactions w)))) ])
        (settled w (User.id u)
           (Wallet.set_balance (Wallet.balance wallet - selling_price) wallet)
           [debit_record env i u w wallet profit selling_price "success" trail]
           (calls_of env i u (next_trans_id env w))
           [mail_of env i u PurchaseSuccess selling_price
              (reference_of i wallet) (Some recipient)]
           1)
  | outcome_refunded wallet profit selling_price reason :
      quote i w = Returns (profit, selling_price) →
      wallets w !! User.id u = Some wallet →
      (Wallet.balance wallet <? selling_price) = false →
      dispatch_succeeds env i u (next_trans_id env w) = false →
      purchase_outcome env i u w
        (Raises (HTTPException 400 ("Transaction failed: " +:+ reason)))
        (settled w (User.id u)
           (Wallet.set_balance
              (Wallet.balance wallet - selling_price + selling_price) wallet)
           [ debit_record env i u w wallet profit selling_price "failed"
               (" | Error: " +:+ reason);
             refund_record env i u w wallet selling_price ]
           (calls_of env i u (next_trans_id env w))
           [ mail_of env i u PurchaseFailed selling_price
               (reference_of i wallet) (Some reason);
             mail_of env i u Refund selling_price
               ("REFUND-" +:+ pretty (S (length (transactions w)))) None ]
           2)
  | outcome_token_unreadable wallet profit selling_price trail reason :
      quote i w = Returns (profit, selling_price) →
      wallets w !! User.id u = Some wallet →
      (Wallet.balance wallet <? selling_price) = false →
      dispatch_succeeds env i u (next_trans_id env w) = true →
      token_readable env i (next_trans_id env w) = false →
      purchase_outcome env i u w
        (Raises (HTTPException 400 ("Transaction failed: " +:+ reason)))
        (settled w (User.id u)
           (Wallet.set_balance
              (Wallet.balance wallet - selling_price + selling_price) wallet)
           [ debit_record env i u w wallet profit selling_price "failed"
               (trail +:+ " | Error: " +:+ reason);
             refund_record env i u w wallet selling_price ]
           (calls_of env i u (next_trans_id env w))
           [ mail_of env i u PurchaseFailed selling_price
               (reference_of i wallet) (Some reason);
             mail_of env i u Refund selling_price
               ("REFUND-" +:+ pretty (S (length (transactions w)))) None ]
           2).

(** The e-mail that announces a transaction record. *)
Definition announcement (t : Transaction.t) : email_kind :=
  if String.eqb (Transaction.type t) "credit" then Refund
  else if String.eqb (Transaction.status t) "success" then PurchaseSuccess
  else PurchaseFailed.

(** The identifier a purchase call carries: the [trans_id] member of a
    MobileNig payload, the [request_id] of an eBills purchase. *)
Definition carries_identifier (x : string) (c : vendor_call) : Prop :=
  match c with
  | MobileNigPurchase payload => dict_get "trans_id" payload = Some (VStr x)
  | EbillsPurchase request_id _ _ _ _ => request_id = x
  | EbillsVerify _ _ _ | SltvPurchase _ => True
  end.

(** A ledger with two wallets: Alice's (user 1) and another user's. *)
Definition shared_ledger (b other : float) : World :=
  {| service_prices := [];
     wallets := {[ 1%nat := {| Wallet.id := 7; Wallet.balance := b |};
                   2%nat := {| Wallet.id := 8; Wallet.balance := other |} ]};
     transactions := [];
     vendor_calls := [];
     background_tasks := [];
     trans_ids_issued := 0 |}.

Module TVRefreshRequest.
Record t := { smart_card_number : string }.
End TVRefreshRequest.

(** ** The TV portal: browser automation ([automation_service.py]) *)

(** *** Text of the scraped details ([str] methods, on ASCII text) *)

(** [c.isspace()] of an ASCII character: the space, [\t \n \v \f \r] and
    the separators [\x1c] to [\x1f]. *)
Definition isspace (c : ascii) : bool :=
  let n := nat_of_ascii c in
  Nat.eqb n 32 || (Nat.leb 9 n && Nat.leb n 13) || (Nat.leb 28 n && Nat.leb n 31).

Fixpoint lstrip (s : string) : string :=
  match s with
  | EmptyString => EmptyString
  | String c s' => if isspace c then lstrip s' else s
  end.

Fixpoint rstrip (s : string) : string :=
  match s with
  | EmptyString => EmptyString
  | String c s' =>
      match rstrip s' with
      | EmptyString => if isspace c then EmptyString else String c EmptyString
      | r => String c r
      end
  end.

(** [s.strip()] *)
Definition strip (s : string) : string := rstrip (lstrip s).

(** [c in s] for a character [c]. *)
Fixpoint contains (c : ascii) (s : string) : bool :=
  match s with
  | EmptyString => false
  | String c' s' => Ascii.eqb c c' || contains c s'
  end.

(** [s.split(sep, 1)] for a separator of one character. *)
Fixpoint split1 (sep : ascii) (s : string) : list string :=
  match s with
  | EmptyString => [EmptyString]
  | String c s' =>
      if Ascii.eqb c sep then [EmptyString; s']
      else match split1 sep s' with
           | head :: tail => String c head :: tail
           | [] => [String c EmptyString]
           end
  end.

(** [s.replace(old, new)] for an [old] of one character. *)
Fixpoint replace (old : ascii) (new : string) (s : string) : string :=
  match s with
  | EmptyString => EmptyString
  | String c s' =>
      if Ascii.eqb c old then new +:+ replace old new s'
      else String c (replace old new s')
  end.

(** [d[k] = v]: a key that is there keeps its place. *)
Fixpoint dict_set (k : string) (v : value) (d : dict) : dict :=
  match d with
  | [] => [(k, v)]
  | (k', v') :: d' =>
      if String.eqb k k' then (k', v) :: d' else (k', v') :: dict_set k v d'
  end.

(** [raw_key.lower().replace(" ", "_").replace(".", "")] *)
Definition normalize_key (raw_key : string) : string :=
  replace "." "" (replace " " "_" (lower raw_key)).

(** The body of the scraping loop after [text = element.text.strip()]:
    parse the [Key:\nValue] format, or fall back to [detail_<i>]. *)
Definition store_detail (i : nat) (text : string) (user_details : dict) : dict :=
  if contains ":" text
  then
    let parts := split1 ":" text in
    let raw_key := strip (nth 0 parts "") in
    let value := if Nat.ltb 1 (length parts) then strip (nth 1 parts "") else "" in
    (* Normalize key *)
    let key := normalize_key raw_key in
    dict_set key (VStr value) user_details
  else
    (* Fallback for unexpected format *)
    dict_set ("detail_" +:+ pretty i) (VStr text) user_details.

(** *** Selenium *)

(** What a piece of automation can raise.  Selenium's own exceptions all
    derive from [WebDriverException] ([InvalidSessionIdException],
    [NoSuchElementException], ... and [TimeoutException]); the handlers
    tell apart [TimeoutException], the other Selenium errors, and every
    other exception.  The string is [str(e)]. *)
Inductive raised :=
  | TimeoutException (msg : string)
  | WebDriverException (msg : string)
  | Python (e : exn).

Inductive outcome (A : Type) :=
  | Ok (a : A)
  | Throws (e : raised).
Arguments Ok {A} a.
Arguments Throws {A} e.

Inductive By := ID | NAME | XPATH | LINK_TEXT | TAG_NAME.

Definition locator : Type := By * string.

(** [selenium.webdriver.support.expected_conditions] *)
Inductive expected_condition :=
  | visibility_of_element_located (l : locator)
  | element_to_be_clickable (l : locator)
  | presence_of_element_located (l : locator)
  | presence_of_all_elements_located (l : locator)
  | alert_is_present.

(** A web element: the browser session that found it and its handle. *)
Record element := { session : nat; handle : nat }.

(** The commands the service sends to a browser. *)
Inductive command :=
  | Chrome                                   (* webdriver.Chrome(service, options) *)
  | MaximizeWindow
  | DeleteAllCookies
  | Get (url : string)
  | Until (c : expected_condition)           (* wait.until(c) *)
  | FindElement (l : locator)
  | FindElements (l : locator)
  | ExecuteScript (script : string) (argument : nat)
  | SwitchToDefaultContent
  | SwitchToFrame (frame : nat)
  | AlertAccept                              (* switch_to.alert.accept() *)
  | SendKeys (e : nat) (keys : string)
  | Click (e : nat)
  | Text (e : nat).

(** Every command is logged with the session it went to, oldest first. *)
Definition history_t : Type := list (nat * command).

(** The class attributes of [VTUAutomator] and the log of the browsers.
    A session is named by the length of the log when it was started. *)
Record Browser := {
  _driver : option nat;      (* [VTUAutomator._driver]: its session *)
  _wait : option nat;        (* [VTUAutomator._wait]: the session it polls *)
  history : history_t
}.

(** What the browsers and the portal answer: to a command sent to a
    session after a given history, either a value or an exception.  Every
    field is universally quantified in the theorems below. *)
Record Portal := {
  reply_unit : history_t → nat → command → outcome unit;
  reply_element : history_t → nat → command → outcome nat;
  reply_elements : history_t → nat → command → outcome (list nat);
  reply_text : history_t → nat → command → outcome string
}.

(** Automation code runs against the browser state and either returns or
    raises; what it did before an exception stays done. *)
Definition Script (A : Type) : Type := Browser → outcome A * Browser.

#[global] Instance Script_ret : MRet Script := fun A a b => (Ok a, b).
#[global] Instance Script_bind : MBind Script := fun A B f m b =>
  match m b with
  | (Ok a, b') => f a b'
  | (Throws e, b') => (Throws e, b')
  end.

Definition throw {A} (e : raised) : Script A := fun b => (Throws e, b).

(** [try: body except <classes> as e: handler e]; the handler re-throws
    the classes it does not name. *)
Definition try_catch {A} (body : Script A) (handler : raised → Script A)
    : Script A :=
  fun b =>
    match body b with
    | (Ok a, b') => (Ok a, b')
    | (Throws e, b') => handler e b'
    end.

(** [except TimeoutException] *)
Definition on_timeout {A} (handler : Script A) (e : raised) : Script A :=
  match e with
  | TimeoutException _ => handler
  | _ => throw e
  end.

(** [None.<name>] *)
Definition attribute_error (name : string) : raised :=
  Python (Exception ("'NoneType' object has no attribute '" +:+ name +:+ "'")).

Definition logged (s : nat) (c : command) (b : Browser) : Browser :=
  {| _driver := _driver b; _wait := _wait b; history := history b ++ [(s, c)] |}.

(** Send [c] to session [s] and take the answer. *)
Definition send {A} (reply : history_t → nat → command → outcome A)
    (s : nat) (c : command) : Script A :=
  fun b => (reply (history b) s c, logged s c b).

Section Selenium.
Variable portal : Portal.

(** [self.driver.<name>(...)] *)
Definition driver_do {A} (reply : Portal → history_t → nat → command → outcome A)
    (name : string) (c : command) : Script A :=
  fun b =>
    match _driver b with
    | Some s => send (reply portal) s c b
    | None => (Throws (attribute_error name), b)
    end.

Definition driver_get (url : string) : Script unit :=
  driver_do reply_unit "get" (Get url).

Definition driver_delete_all_cookies : Script unit :=
  driver_do reply_unit "delete_all_cookies" DeleteAllCookies.

Definition driver_execute_script (script : string) (e : element) : Script unit :=
  driver_do reply_unit "execute_script" (ExecuteScript script (handle e)).

Definition driver_switch_to_default_content : Script unit :=
  driver_do reply_unit "switch_to" SwitchToDefaultContent.

Definition driver_switch_to_frame (frame : element) : Script unit :=
  driver_do reply_unit "switch_to" (SwitchToFrame (handle frame)).

Definition driver_switch_to_alert_accept : Script unit :=
  driver_do reply_unit "switch_to" AlertAccept.

Definition as_element (s : nat) (h : nat) : element :=
  {| session := s; handle := h |}.

Definition driver_find_element (l : locator) : Script element :=
  fun b =>
    match _driver b with
    | Some s => (h ← send (reply_element portal) s (FindElement l);
                 mret (as_element s h)) b
    | None => (Throws (attribute_error "find_element"), b)
    end.

Definition driver_find_elements (l : locator) : Script (list element) :=
  fun b =>
    match _driver b with
    | Some s => (hs ← send (reply_elements portal) s (FindElements l);
                 mret (as_element s <$> hs)) b
    | None => (Throws (attribute_error "find_elements"), b)
    end.

(** [self.wait.until(c)] for a condition on one element. *)
Definition wait_until (c : expected_condition) : Script element :=
  fun b =>
    match _wait b with
    | Some s => (h ← send (reply_element portal) s (Until c);
                 mret (as_element s h)) b
    | None => (Throws (attribute_error "until"), b)
    end.

(** [self.wait.until(EC.presence_of_all_elements_located(l))] *)
Definition wait_until_all (l : locator) : Script (list element) :=
  fun b =>
    match _wait b with
    | Some s => (hs ← send (reply_elements portal) s
                         (Until (presence_of_all_elements_located l));
                 mret (as_element s <$> hs)) b
    | None => (Throws (attribute_error "until"), b)
    end.

(** [self.wait.until(EC.alert_is_present())] *)
Definition wait_until_alert : Script unit :=
  fun b =>
    match _wait b with
    | Some s => send (reply_unit portal) s (Until alert_is_present) b
    | None => (Throws (attribute_error "until"), b)
    end.

(** The methods of a web element go to the session that found it. *)
Definition element_click (e : element) : Script unit :=
  send (reply_unit portal) (session e) (Click (handle e)).

Definition element_send_keys (e : element) (keys : string) : Script unit :=
  send (reply_unit portal) (session e) (SendKeys (handle e) keys).

Definition element_text (e : element) : Script string :=
  send (reply_text portal) (session e) (Text (handle e)).
End Selenium.

(** *** [class VTUAutomator] *)

Module VTUAutomator.
Section Methods.
Variable portal : Portal.
(** [settings.SLTV_USERNAME], [settings.SLTV_PASSWORD] *)
Variables SLTV_USERNAME SLTV_PASSWORD : string.

(** Reads and writes of the class attributes. *)
Definition get_driver : Script (option nat) := fun b => (Ok (_driver b), b).

Definition set_driver (d : option nat) : Script unit :=
  fun b => (Ok (), {| _driver := d; _wait := _wait b; history := history b |}).

Definition set_wait (w : option nat) : Script unit :=
  fun b => (Ok (), {| _driver := _driver b; _wait := w; history := history b |}).

Definition new_session : Script nat := fun b => (Ok (length (history b)), b).

(** [setup_driver()]: start Chrome, maximize the window, create the wait;
    an exception is logged and raised again. *)
Definition setup_driver : Script unit :=
  try_catch
    (s ← new_session;
     send (reply_unit portal) s Chrome;;
     set_driver (Some s);;
     send (reply_unit portal) s MaximizeWindow;;
     set_wait (Some s))
    (fun e => throw e).

(** [if not self.driver: self.setup_driver()] *)
Definition ensure_driver : Script unit :=
  d ← get_driver;
  match d with
  | Some _ => mret ()
  | None => setup_driver
  end.

(** [VTUAutomator()]: [__new__] hands out the one instance and [__init__]
    starts a driver when there is none. *)
Definition init : Script unit := ensure_driver.

(** [_safe_click(element)] *)
Definition _safe_click (e : element) : Script unit :=
  try_catch
    (driver_execute_script portal
       "arguments[0].scrollIntoView({block: 'center'});" e;;
     element_click portal e)
    (fun _ => driver_execute_script portal "arguments[0].click();" e).

(** The loop of [_switch_to_iframe_with_element]. *)
Fixpoint scan_frames (locator_tuple : locator) (iframes : list element)
    : Script bool :=
  match iframes with
  | [] => mret false
  | frame :: rest =>
      driver_switch_to_frame portal frame;;
      found ← driver_find_elements portal locator_tuple;
      if Nat.ltb 0 (length found) then mret true
      else driver_switch_to_default_content portal;;
           scan_frames locator_tuple rest
  end.

(** [_switch_to_iframe_with_element(locator_tuple)] *)
Definition _switch_to_iframe_with_element (locator_tuple : locator)
    : Script bool :=
  driver_switch_to_default_content portal;;
  try_catch
    (iframes ← wait_until_all portal (TAG_NAME, "iframe");
     scan_frames locator_tuple iframes)
    (on_timeout (mret false)).

(** [_sltv_login_and_navigate(username, password)] *)
Definition _sltv_login_and_navigate (username password : string) : Script unit :=
  driver_get portal "https://sltvpro.com/main/lco_login";;
  (* Fast Login *)
  name ← wait_until portal (visibility_of_element_located (ID, "name"));
  element_send_keys portal name username;;
  pass ← driver_find_element portal (ID, "password");
  element_send_keys portal pass password;;
  login_btn ← driver_find_element portal (XPATH, "//*[@id='loginForm']/button");
  _safe_click login_btn;;
  recharge_link ← wait_until portal (element_to_be_clickable (LINK_TEXT, "RECHARGE"));
  _safe_click recharge_link.

(** The head of every attempt: a driver if there is none, a clean
    session, the login. *)
Definition open_portal : Script unit :=
  ensure_driver;;
  (* Ensure clean session *)
  try_catch (driver_delete_all_cookies portal) (fun _ => mret ());;
  _sltv_login_and_navigate SLTV_USERNAME SLTV_PASSWORD.

(** The search for a smart card in the frame of [keywordSearch]. *)
Definition search_customer (smart_card_number : string) : Script unit :=
  input_element ← driver_find_element portal (ID, "keywordSearch");
  (* JS Inject *)
  driver_execute_script portal
    ("arguments[0].value = '" +:+ smart_card_number +:+ "';") input_element;;
  driver_execute_script portal
    "arguments[0].dispatchEvent(new Event('input'));" input_element;;
  driver_execute_script portal
    "arguments[0].dispatchEvent(new Event('change'));" input_element;;
  button ← driver_find_element portal (NAME, "customerSearch");
  element_click portal button.

(** The loop [for attempt in range(2)] with its two handlers: a Selenium
    error drops the driver and goes round again, any other exception
    returns [False], and so does the end of the loop. *)
Fixpoint attempts (n : nat) (body : Script value) : Script value :=
  match n with
  | O => mret (VBool false)
  | S rest =>
      try_catch body
        (fun e =>
           match e with
           | TimeoutException _ | WebDriverException _ =>
               (* Force reset *)
               set_driver None;;
               attempts rest body
           | Python _ => mret (VBool false)
           end)
  end.

(** One round of the scraping loop. *)
Definition scrape_detail (i : nat) (user_details : dict) : Script dict :=
  let xpath := "/html/body/div[5]/div[2]/div/div[2]/div[" +:+ pretty i +:+ "]" in
  try_catch
    (element ←
       (if Nat.eqb i 1
        then wait_until portal (visibility_of_element_located (XPATH, xpath))
        else driver_find_element portal (XPATH, xpath));
     text ← element_text portal element;
     mret (store_detail i (strip text) user_details))
    (fun _ => mret user_details).

Fixpoint scrape_details (rounds : list nat) (user_details : dict) : Script dict :=
  match rounds with
  | [] => mret user_details
  | i :: rest =>
      user_details ← scrape_detail i user_details;
      scrape_details rest user_details
  end.

(** One pass of the loop of [get_sltv_user_details]. *)
Definition details_attempt (request : TVRequest.t) : Script value :=
  open_portal;;
  found ← _switch_to_iframe_with_element (ID, "keywordSearch");
  if (found : bool)
  then
    search_customer (TVRequest.smart_card_number request);;
    (* Scrape the 5 Divs *)
    user_details ← scrape_details (seq 1 5) [];
    driver_switch_to_default_content portal;;
    mret (VDict user_details)
  else mret (VBool false).

(** [get_sltv_user_details(request)] *)
Definition get_sltv_user_details (request : TVRequest.t) : Script value :=
  attempts 2 (details_attempt request).

(** One pass of the loop of [purchase_tv]. *)
Definition purchase_attempt (request : TVRequest.t) : Script value :=
  open_portal;;
  found ← _switch_to_iframe_with_element (ID, "keywordSearch");
  (if (found : bool)
   then
     search_customer (TVRequest.smart_card_number request);;
     result_link ← wait_until portal (element_to_be_clickable
       (XPATH, "/html/body/div[5]/div[2]/div/table/tbody/tr/td[6]/a"));
     _safe_click result_link;;
     driver_switch_to_default_content portal
   else throw (Python (Exception "Search iframe not found.")));;
  let plan_xpath :=
    if Nat.eqb (TVRequest.value request) 1
    then "//*[@id='rechagestblist']/table/tbody/tr[1]/td[2]/input"
    else "//*[@id='rechagestblist']/table/tbody/tr[2]/td[2]/input" in
  let recharge_btn_xpath := "//*[@id='recharge']" in
  let success_msg_xpath := "//*[@id='error']/div" in
  found ← _switch_to_iframe_with_element (XPATH, plan_xpath);
  if (found : bool)
  then
    (* A. Click Plan *)
    plan_element ← wait_until portal
      (presence_of_element_located (XPATH, plan_xpath));
    _safe_click plan_element;;
    (* B. Click Recharge *)
    recharge_btn ← wait_until portal
      (presence_of_element_located (XPATH, recharge_btn_xpath));
    _safe_click recharge_btn;;
    (* C. Handle Popup *)
    try_catch
      (wait_until_alert portal;;
       driver_switch_to_alert_accept portal)
      (on_timeout (mret ()));;
    (* D. Capture Success Message *)
    final_message ←
      try_catch
        (msg_element ← wait_until portal
           (visibility_of_element_located (XPATH, success_msg_xpath));
         element_text portal msg_element)
        (on_timeout
           (found ← _switch_to_iframe_with_element (XPATH, success_msg_xpath);
            if (found : bool)
            then
              msg_element ← wait_until portal
                (visibility_of_element_located (XPATH, success_msg_xpath));
              element_text portal msg_element
            else mret "Success (Message not captured)"));
    driver_switch_to_default_content portal;;
    mret (VStr final_message)
  else throw (Python (Exception "Plan Selection iframe not found.")).

(** [purchase_tv(request)] *)
Definition purchase_tv (request : TVRequest.t) : Script value :=
  attempts 2 (purchase_attempt request).

(** One pass of the loop of [refresh_tv]. *)
Definition refresh_attempt (request : TVRefreshRequest.t) : Script value :=
  open_portal;;
  found ← _switch_to_iframe_with_element (ID, "keywordSearch");
  if (found : bool)
  then
    search_customer (TVRefreshRequest.smart_card_number request);;
    result_link ← wait_until portal (element_to_be_clickable
      (XPATH, "/html/body/div[5]/div[2]/div/table/tbody/tr/td[7]/a"));
    _safe_click result_link;;
    driver_switch_to_default_content portal;;
    (* Capture Success Message *)
    let success_msg_xpath := "/html/body/div[1]/div" in
    found ← _switch_to_iframe_with_element (XPATH, success_msg_xpath);
    if (found : bool)
    then
      try_catch
        (msg_element ← wait_until portal
           (visibility_of_element_located (XPATH, success_msg_xpath));
         final_message ← element_text portal msg_element;
         driver_switch_to_default_content portal;;
         mret (VStr final_message))
        (on_timeout
           (driver_switch_to_default_content portal;;
            mret (VStr "Refresh initiated (Message not captured)")))
    else
      (* Fallback: check default content *)
      try_catch
        (msg_element ← wait_until portal
           (visibility_of_element_located (XPATH, success_msg_xpath));
         final_message ← element_text portal msg_element;
         mret (VStr final_message))
        (on_timeout
           (mret (VStr "Refresh initiated (Message not captured)")))
  else throw (Python (Exception "Search iframe not found.")).

(** [refresh_tv(request)] *)
Definition refresh_tv (request : TVRefreshRequest.t) : Script value :=
  attempts 2 (refresh_attempt request).
End Methods.
End VTUAutomator.

(** *** The TV endpoints that drive the portal ([services.py]) *)

Section TV.
Variable env : Env.
Variable portal : Portal.
Variables SLTV_USERNAME SLTV_PASSWORD : string.

(** [str(e)] *)
Definition str_raised (e : raised) : string :=
  match e with
  | TimeoutException msg | WebDriverException msg => msg
  | Python e => str_exn env e
  end.

(** [POST /tv/details] *)
Definition get_tv_details (request : TVRequest.t) : Script dict :=
  VTUAutomator.init portal;;
  try_catch
    (details ← VTUAutomator.get_sltv_user_details
                 portal SLTV_USERNAME SLTV_PASSWORD request;
     if negb (truthy details)
     then throw (Python (HTTPException 404
            "Could not retrieve details. Please check smart card number."))
     else mret [ ("status", VStr "success"); ("data", details) ])
    (fun e => throw (Python (HTTPException 500 (str_raised e)))).

(** [POST /tv/refresh] *)
Definition refresh_tv (request : TVRefreshRequest.t) : Script dict :=
  VTUAutomator.init portal;;
  try_catch
    (result_message ← VTUAutomator.refresh_tv
                        portal SLTV_USERNAME SLTV_PASSWORD request;
     if truthy result_message
     then mret [ ("status", VStr "success"); ("message", result_message) ]
     else throw (Python (HTTPException 400 "Refresh failed.")))
    (fun e => throw (Python (HTTPException 500 (str_raised e)))).
End TV.

(** *** Vocabulary of the retry loop *)

(** The value a script returns, when it returns, satisfies [Φ]. *)
Definition returns_only {A} (Φ : A → Prop) (m : Script A) : Prop :=
  ∀ b a b', m b = (Ok a, b') → Φ a.

Definition selenium_error (e : raised) : Prop :=
  match e with
  | TimeoutException _ | WebDriverException _ => True
  | Python _ => False
  end.

Definition drop_driver (b : Browser) : Browser :=
  {| _driver := None; _wait := _wait b; history := history b |}.

(** The five ways through [for attempt in range(2)]. *)
Inductive two_attempts (body : Script value) (b : Browser)
    : value → Browser → Prop :=
  | first_returns v b1 :
      body b = (Ok v, b1) → two_attempts body b v b1
  | first_fails e b1 :
      body b = (Throws (Python e), b1) →
      two_attempts body b (VBool false) b1
  | second_returns e b1 v b2 :
      body b = (Throws e, b1) → selenium_error e →
      body (drop_driver b1) = (Ok v, b2) →
      two_attempts body b v b2
  | second_fails e b1 e' b2 :
      body b = (Throws e, b1) → selenium_error e →
      body (drop_driver b1) = (Throws (Python e'), b2) →
      two_attempts body b (VBool false) b2
  | both_crash e b1 e' b2 :
      body b = (Throws e, b1) → selenium_error e →
      body (drop_driver b1) = (Throws e', b2) → selenium_error e' →
      two_attempts body b (VBool false) (drop_driver b2).

(** A script that leaves [_driver] and [_wait] as they were, however it
    ends. *)
Definition keeps {A} (m : Script A) : Prop :=
  ∀ b, _driver (m b).2 = _driver b ∧ _wait (m b).2 = _wait b.

(** The page [_sltv_login_and_navigate] opens. *)
Definition login_page : string := "https://sltvpro.com/main/lco_login".

(** *** Scenarios of the portal *)

Definition eedc_verify_request : ElectricityVerifyRequest.t :=
  {| ElectricityVerifyRequest.provider := "EEDC";
     ElectricityVerifyRequest.meter_number := "45067198783";
     ElectricityVerifyRequest.type := "prepaid" |}.

(** The portal answers every command; each text reads [Status:\nActive]. *)
Definition portal_up : Portal :=
  {| reply_unit := fun _ _ _ => Ok ();
     reply_element := fun h _ _ => Ok (length h);
     reply_elements := fun h _ _ => Ok [length h];
     reply_text := fun _ _ _ =>
       Ok ("Status:" +:+ String (ascii_of_nat 10) "Active") |}.

(** Chrome starts, but its window cannot be maximized. *)
Definition portal_no_window : Portal :=
  {| reply_unit := fun _ _ c =>
       match c with
       | MaximizeWindow => Throws (WebDriverException "cannot maximize")
       | _ => Ok ()
       end;
     reply_element := fun h _ _ => Ok (length h);
     reply_elements := fun h _ _ => Ok [length h];
     reply_text := fun _ _ _ => Ok "" |}.

Definition no_browser : Browser :=
  {| _driver := None; _wait := None; history := [] |}.

Definition tv_request : TVRequest.t :=
  {| TVRequest.smart_card_number := "2029384756"; TVRequest.value := 1 |}.

Definition tv_refresh_request : TVRefreshRequest.t :=
  {| TVRefreshRequest.smart_card_number := "2029384756" |}.

(** *** Vocabulary of the scraped details *)

(** A character a normalised key can hold: no space, no dot, no ASCII
    capital. *)
Definition key_char (c : ascii) : bool :=
  negb (Ascii.eqb c " ") && negb (Ascii.eqb c ".") &&
  Ascii.eqb (lower_ascii c) c.

Fixpoint key_ok (k : string) : bool :=
  match k with
  | EmptyString => true
  | String c k' => key_char c && key_ok k'
  end.

(** An entry of the details: a normalised key, a stripped string. *)
Definition detail_entry (entry : string * value) : Prop :=
  key_ok entry.1 = true ∧ ∃ s, entry.2 = VStr s ∧ strip s = s.

Definition line_feed : string := String (ascii_of_nat 10) EmptyString.

(** What holds of the details after [n] rounds of the scraping loop. *)
Definition details_ok (n : nat) (d : dict) : Prop :=
  (length d ≤ n)%nat ∧ NoDup d.*1 ∧ Forall detail_entry d.

(** *** Vocabulary of the command log *)

(** How many of the commands of a history satisfy [p]. *)
Definition sent (p : command → bool) (h : history_t) : nat :=
  length (List.filter (fun x => p x.2) h).

(** A script that only adds to the history, and among the commands it
    adds, however it ends, at most [n] satisfy [p]. *)
Definition at_most {A} (n : nat) (p : command → bool) (m : Script A) : Prop :=
  ∀ b, ∃ added,
    history (m b).2 = history b ++ added ∧ (sent p added ≤ n)%nat.

(** A script that sends no command satisfying [p]. *)
Definition free {A} (p : command → bool) (m : Script A) : Prop :=
  at_most 0 p m.

(** Chrome is started. *)
Definition is_chrome (c : command) : bool :=
  match c with Chrome => true | _ => false end.

(** A page is loaded. *)
Definition is_get (c : command) : bool :=
  match c with Get _ => true | _ => false end.

(** The Recharge button of the plan page is looked up. *)
Definition is_recharge_lookup (c : command) : bool :=
  match c with
  | Until (presence_of_element_located (XPATH, xpath)) =>
      String.eqb xpath "//*[@id='recharge']"
  | _ => false
  end.

(** [p] counts nothing but browser starts, page loads and waits for the
    presence of one element. *)
Definition selective (p : command → bool) : Prop :=
  ∀ c, match c with
       | Chrome | Get _ | Until (presence_of_element_located _) => True
       | _ => p c = false
       end.

(** ** Vocabulary of the books and the identifiers *)

(** Posting a transaction record to a balance: a debit takes its amount
    off, a credit adds it. *)
Definition post (balance : float) (t : Transaction.t) : float :=
  if String.eqb (Transaction.type t) "debit"
  then balance - Transaction.amount t
  else balance + Transaction.amount t.

(** Two clock readings that [%y%m%d%H%M%S] cannot tell apart: the same
    second of the same day, in years that agree in their last two
    digits. *)
Definition same_timestamp (d1 d2 : datetime) : Prop :=
  (year d1 mod 100 = year d2 mod 100 ∧ month d1 = month d2 ∧ day d1 = day d2 ∧
   hour d1 = hour d2 ∧ minute d1 = minute d2 ∧ second d1 = second d2)%nat.

(** The draws of [random.choices] stay inside the alphabet. *)
Definition draws_in_range (index : nat → nat) : Prop :=
  ∀ j, (j < 3)%nat → (index j < 36)%nat.

(** ** E-mail delivery ([email_service.py]) *)

(** What [template_env.get_template(name).render(context)] does. *)
Inductive rendering :=
  | Rendered (html : string)
  | TemplateNotFound
  | RenderError (message : string).

(** The one message of a Mailjet request. *)
Record message := {
  From_Email : string;
  From_Name : string;
  To_Email : string;
  To_Name : value;
  Subject : string;
  TextPart : string;
  HTMLPart : string
}.

(** The settings and what lies outside the service: the template engine,
    the Mailjet client ([mailjet.send.create] returns a status code or
    raises, and [result.json()] may raise as well) and the formatting of
    amounts, [f"{amount:,.2f}"]. *)
Record Mailer := {
  MAIL_FROM : string;
  MAIL_FROM_NAME : string;
  render : string → dict → rendering;
  mailjet_send_create : message → result nat;
  result_json : message → result string;
  format_amount : float → string
}.

(** [d.get(k, default)] *)
Definition dict_get_default (k : string) (default : value) (d : dict) : value :=
  match dict_get k d with
  | Some v => v
  | None => default
  end.

(** A sent request: the Mailjet requests made so far, oldest first. *)
Definition Outbox (A : Type) : Type := list message → result A * list message.

#[global] Instance Outbox_ret : MRet Outbox := fun A a o => (Returns a, o).
#[global] Instance Outbox_bind : MBind Outbox := fun A B f m o =>
  match m o with
  | (Returns a, o') => f a o'
  | (Raises e, o') => (Raises e, o')
  end.

Definition outbox_try {A} (body : Outbox A) (handler : exn → Outbox A) : Outbox A :=
  fun o =>
    match body o with
    | (Returns a, o') => (Returns a, o')
    | (Raises e, o') => handler e o'
    end.

Section EmailService.
Variable env : Env.
Variable mailer : Mailer.

(** [f"{v}"] of a member of the template body. *)
Definition str_member (v : option value) : string :=
  match v with
  | Some (VStr s) => s
  | Some v => str env v
  | None => "None"
  end.

(** [_render_template(template_name, context)] *)
Definition _render_template (template_name : string) (context : dict) : string :=
  match render mailer template_name context with
  | Rendered html => html
  | TemplateNotFound => "Error: Template " +:+ template_name +:+ " not found."
  | RenderError e => "Error rendering template: " +:+ e
  end.

(** [mailjet.send.create(data=message_data)] *)
Definition mailjet_send (message_data : message) : Outbox nat :=
  fun o => (mailjet_send_create mailer message_data, o ++ [message_data]).

(** [_send_email_async(subject, email_to, template_body, template_name)] *)
Definition _send_email_async (subject email_to : string) (template_body : dict)
    (template_name : string) : Outbox unit :=
  let html_part := _render_template template_name template_body in
  let text_part :=
    "SLTV VTU | " +:+ subject +:+ line_feed +:+ line_feed +:+
    "This email requires an HTML-compatible client. Please view this message in a modern email client." in
  let text_part :=
    if match dict_get "title" template_body with
       | Some title => truthy title
       | None => false
       end
    then str_member (dict_get "title" template_body) +:+ line_feed +:+ line_feed
         +:+ "(Please view in an HTML-compatible client)"
    else text_part in
  let message_data :=
    {| From_Email := MAIL_FROM mailer;
       From_Name := MAIL_FROM_NAME mailer;
       To_Email := email_to;
       To_Name :=
         dict_get_default "name"
           (dict_get_default "user_name" (VStr "Valued User") template_body)
           template_body;
       Subject := "SLTV VTU | " +:+ subject;
       TextPart := text_part;
       HTMLPart := html_part |} in
  outbox_try
    (status_code ← mailjet_send message_data;
     if Nat.eqb status_code 200
     then mret ()
     else ((fun o => (result_json mailer message_data, o)) : Outbox string);;
          mret ())
    (fun e => mret ()).

(** The value of an optional [name] argument. *)
Definition name_value (name : option string) : value :=
  match name with
  | Some s => VStr s
  | None => VNone
  end.

(** What [send_purchase_success_email], [send_purchase_failed_email] and
    [send_refund_email] hand to [_add_task]: subject, template body and
    template name. *)
Definition subject_of (e : Email.t) : string :=
  match Email.kind e with
  | PurchaseSuccess => "Purchase Successful: " +:+ Email.service_name e
  | PurchaseFailed => "Purchase Failed: " +:+ Email.service_name e
  | Refund => "Refund Processed"
  end.

Definition title_of (e : Email.t) : string :=
  match Email.kind e with
  | PurchaseSuccess => "Purchase Successful"
  | PurchaseFailed => "Purchase Failed"
  | Refund => "Refund Processed"
  end.

Definition template_body_of (e : Email.t) : dict :=
  [ ("title", VStr (title_of e));
    ("user_name", name_value (Email.name e));
    ("service_name", VStr (Email.service_name e));
    ("amount", VStr ("₦" +:+ format_amount mailer (Email.amount e)));
    ("transaction_ref", VStr (Email.transaction_ref e)) ] ++
  match Email.kind e with
  | PurchaseSuccess => [ ("recipient", VStr (default "" (Email.extra e))) ]
  | PurchaseFailed => [ ("reason", VStr (default "" (Email.extra e))) ]
  | Refund => []
  end.

Definition template_name_of (e : Email.t) : string :=
  match Email.kind e with
  | PurchaseSuccess => "purchase_success.html"
  | PurchaseFailed => "purchase_failed.html"
  | Refund => "refund_processed.html"
  end.

(** The background task of a queued e-mail. *)
Definition deliver (e : Email.t) : Outbox unit :=
  _send_email_async (subject_of e) (Email.email_to e) (template_body_of e)
    (template_name_of e).

(** [BackgroundTasks.__call__]: the tasks of a response run one after the
    other; an exception would end the run. *)
Fixpoint run_tasks (tasks : list Email.t) : Outbox unit :=
  match tasks with
  | [] => mret ()
  | e :: rest => deliver e;; run_tasks rest
  end.

(** What the framework does with the tasks an endpoint [queued] once the
    endpoint is done.  FastAPI attaches the [BackgroundTasks] of a
    request to the response the endpoint returns, and the tasks run after
    that response is sent; when the endpoint raises, the response comes
    from the exception handler, carries no tasks, and the queue is
    dropped. *)
Definition after_response {A} (outcome : result A) (queued : list Email.t)
    : Outbox unit :=
  match outcome with
  | Returns _ => run_tasks queued
  | Raises _ => mret ()
  end.
End EmailService.

(** Message [m] is the delivery of the queued e-mail [e]. *)
Definition delivers (mailer : Mailer) (e : Email.t) (m : message) : Prop :=
  From_Email m = MAIL_FROM mailer ∧
  To_Email m = Email.email_to e ∧
  To_Name m = name_value (Email.name e) ∧
  Subject m = "SLTV VTU | " +:+ subject_of e ∧
  TextPart m = title_of e +:+ line_feed +:+ line_feed +:+
               "(Please view in an HTML-compatible client)" ∧
  HTMLPart m = _render_template mailer (template_name_of e)
                 (template_body_of mailer e).

(** * Properties *)

(** ** Tactics for running endpoint code *)

Ltac unfold_engine :=
  unfold purchase, purchase_airtime, purchase_data, purchase_electricity,
    verify_electricity, purchase_tv, refund_on_exception,
    mobilenig_service_purchase_service, ebills_service_verify_customer,
    ebills_service_purchase_electricity, VTUAutomator_purchase_tv,
    EmailService_send_purchase_success_email,
    EmailService_send_purchase_failed_email, EmailService_send_refund_email,
    EmailService_add_task, call_vendor, generate_trans_id,
    wallet_repo_get_by_user_id, wallet_repo_update,
    wallet_repo_create_transaction, wallet_repo_update_transaction,
    session_exec_first, lift, raise, try_except,
    VTUAutomator_init, value_get, try_except_on, inline, assign, the_object,
    mbind, M_bind, Local_bind, mret, M_ret, Local_ret.

Tactic Notation "simp" :=
  cbn -[pretty lower upper String.append insert lookup trans_id_at
        calculate_price routes_to_ebills str_in ebills_variation_id
        airtime_payload data_payload electricity_payload contact_phone_number
        PrimFloat.add PrimFloat.sub PrimFloat.ltb].
Tactic Notation "simp" "in" hyp(H) :=
  cbn -[pretty lower upper String.append insert lookup trans_id_at
        calculate_price routes_to_ebills str_in ebills_variation_id
        airtime_payload data_payload electricity_payload contact_phone_number
        PrimFloat.add PrimFloat.sub PrimFloat.ltb] in H.

(** ** Facts on binary64 arithmetic *)

Lemma SFcompare_finite_refl s m e :
  SFcompare (S754_finite s m e) (S754_finite s m e) = Some Eq.
Proof.
  simpl. rewrite Z.compare_refl.
  assert (H : Pos.compare_cont Eq m m = Eq) by apply Pos.compare_cont_refl.
  rewrite H. by destruct s.
Qed.

(** Adding [0.0] to a non-negative float gives a float that compares equal
    to it ([-0.0 + 0.0] is [0.0], and the two zeros compare equal). *)
Lemma add_zero_eqb (x : float) : (0 <=? x) = true → (x + 0 =? x) = true.
Proof.
  rewrite FloatAxioms.leb_spec, FloatAxioms.eqb_spec, FloatAxioms.add_spec.
  change (Prim2SF 0) with (S754_zero false).
  destruct (Prim2SF x) as [s|s| |s m e]; unfold SF64add, SFeqb, SFleb.
  - by destruct s.
  - by destruct s.
  - done.
  - intros _. cbn [SFadd]. by rewrite SFcompare_finite_refl.
Qed.

(** ** Price computation *)

(** The divisor of the percentage rule is the literal [100]: the division
    never raises. *)
Lemma py_truediv_100 (x : float) : py_truediv x 100 = Returns (x / 100).
Proof. reflexivity. Qed.

Lemma calculate_price_returns cost_price price_config :
  ∃ profit, calculate_price cost_price price_config
            = Returns (profit, cost_price + profit).
Proof.
  unfold calculate_price.
  destruct price_config as [[ident [| |other] v]|]; cbn -[py_truediv];
    rewrite ?py_truediv_100; cbn; eauto.
Qed.

(** C3, counterexample: with a cost price of 100 and a 10 percent rule the
    endpoint computes [100 + 100 * (10 / 100) = 110.0], whereas
    [100 * (1 + 10 / 100)] is [110.00000000000001] in binary64. *)
Lemma percentage_rule_counterexample :
  (0 <=? 100) = true ∧ (0 <=? 10) = true ∧ ¬ percentage_rule_as_stated 100 10.
Proof.
  split; [reflexivity|]. split; [reflexivity|].
  intros H. destruct (H "airtime-mtn") as (profit & selling & Hrun & Heq).
  cbv in Hrun. injection Hrun as <- <-.
  vm_compute in Heq. discriminate.
Qed.

(** C3 (amended): for non-negative [cost_price] and rule value [v] the
    price computation always returns, never raises, and
    - without a matching rule, or with a rule of another type, the profit
      is [0.0] and the selling price compares equal to the cost price;
    - a fixed rule gives profit [v] and selling price [cost_price + v];
    - a percentage rule gives profit [cost_price * (v / 100)] and selling
      price [cost_price + cost_price * (v / 100)], each operation rounded
      to binary64. *)
Theorem calculate_price_cases (cost_price v : float) (ident other : string) :
  (0 <=? cost_price) = true →
  (0 <=? v) = true →
  (∃ s, calculate_price cost_price None = Returns (0, s) ∧
        (s =? cost_price) = true) ∧
  (∃ s, calculate_price cost_price (Some (rule ident (OTHER other) v))
          = Returns (0, s) ∧
        (s =? cost_price) = true) ∧
  calculate_price cost_price (Some (rule ident FIXED v))
    = Returns (v, cost_price + v) ∧
  calculate_price cost_price (Some (rule ident PERCENTAGE v))
    = Returns (cost_price * (v / 100), cost_price + cost_price * (v / 100)) ∧
  (∀ price_config, ∃ profit selling_price,
     calculate_price cost_price price_config = Returns (profit, selling_price)).
Proof.
  intros Hcost _. repeat split.
  - exists (cost_price + 0). split; [reflexivity | by apply add_zero_eqb].
  - exists (cost_price + 0). split; [reflexivity | by apply add_zero_eqb].
  - intros price_config.
    destruct (calculate_price_returns cost_price price_config) as [p Hp]; eauto.
Qed.

Lemma calculate_price_cases_witness :
  (0 <=? 50) = true ∧ (0 <=? 10) = true ∧
  calculate_price 50 (Some (rule "airtime-mtn" PERCENTAGE 10)) = Returns (5, 55).
Proof.
  split; [reflexivity|]. split; [reflexivity|].
  exact (proj1 (proj2 (proj2 (proj2
    (calculate_price_cases 50 10 "airtime-mtn" "" eq_refl eq_refl))))).
Defined.

(** ** Identifier generation *)

Lemma zero_pad2_two_digits n : (n < 100)%nat → zero_pad2 n = two_digits n.
Proof.
  intros Hn.
  assert (H : forallb (fun n => String.eqb (zero_pad2 n) (two_digits n))
                (seq 0 100) = true) by (vm_compute; reflexivity).
  rewrite forallb_forall in H.
  apply String.eqb_eq, H, in_seq. lia.
Qed.

Lemma strftime_timestamp d : valid_datetime d → strftime_ymdHMS d = timestamp_of d.
Proof.
  intros (Hmo & Hd & Hh & Hmi & Hs).
  unfold strftime_ymdHMS, timestamp_of.
  rewrite !zero_pad2_two_digits; [done|lia..| ].
  apply Nat.mod_upper_bound. lia.
Qed.

(** C5: whenever it is called, [generate_trans_id] returns the 12-character
    timestamp (two digits each for year, month, day, hour, minute, second)
    followed by 3 characters of the 36-symbol alphabet A-Z, 0-9: a string of
    exactly 15 characters. *)
Theorem generate_trans_id_format (env : Env) (prefix : string) (w : World) :
  valid_datetime (now env (trans_ids_issued w)) →
  (∀ j, (j < 3)%nat → (random_index env (trans_ids_issued w) j < 36)%nat) →
  ∃ suffix,
    (generate_trans_id env prefix w).1
      = Returns (timestamp_of (now env (trans_ids_issued w)) +:+ suffix) ∧
    String.length (timestamp_of (now env (trans_ids_issued w))) = 12%nat ∧
    String.length suffix = 3%nat ∧
    (∀ c, In c (String.list_ascii_of_string suffix) →
          In c (String.list_ascii_of_string (ascii_uppercase +:+ digits))) ∧
    String.length (ascii_uppercase +:+ digits) = 36%nat ∧
    String.length (timestamp_of (now env (trans_ids_issued w)) +:+ suffix)
      = 15%nat.
Proof.
  intros Hvalid Hidx.
  set (d := now env (trans_ids_issued w)) in *.
  set (index := random_index env (trans_ids_issued w)) in *.
  exists (random_choices (ascii_uppercase +:+ digits) 3 index).
  split.
  { unfold generate_trans_id, trans_id_at. cbn [fst]. fold d index.
    by rewrite strftime_timestamp. }
  split; [reflexivity|].
  split; [reflexivity|].
  split; [|split; reflexivity].
  intros c. unfold random_choices.
  rewrite String.list_ascii_of_string_of_list_ascii.
  cbn [seq fmap list_fmap].
  intros [<-|[<-|[<-|[]]]]; apply nth_In;
    change (length _) with 36%nat; apply Hidx; lia.
Qed.

Lemma generate_trans_id_format_witness :
  valid_datetime (now vendors_up 0) ∧
  (generate_trans_id vendors_up "AIRTIME" (ledger 100)).1
    = Returns "251130235907DOZ".
Proof.
  assert (Hvalid : valid_datetime (now vendors_up 0))
    by (unfold valid_datetime; cbn; lia).
  split; [exact Hvalid|].
  destruct (generate_trans_id_format vendors_up "AIRTIME" (ledger 100) Hvalid)
    as (suffix & Hrun & _).
  - intros j Hj. cbn. lia.
  - reflexivity.
Defined.

(** ** Running a purchase *)

Lemma insert_last {A} (l : list A) (x y : A) :
  <[length l := y]> (l ++ [x]) = l ++ [y].
Proof. rewrite insert_app_r_alt by lia. by rewrite Nat.sub_diag. Qed.

Lemma length_snoc {A} (l : list A) (x : A) : length (l ++ [x]) = S (length l).
Proof. rewrite length_app. simpl. lia. Qed.

(** Two worlds with the same six components are the same world. *)
Lemma world_eq_intro (w1 w2 : World) :
  service_prices w1 = service_prices w2 →
  wallets w1 = wallets w2 →
  transactions w1 = transactions w2 →
  vendor_calls w1 = vendor_calls w2 →
  background_tasks w1 = background_tasks w2 →
  trans_ids_issued w1 = trans_ids_issued w2 →
  w1 = w2.
Proof. destruct w1, w2; cbn; by intros -> -> -> -> -> ->. Qed.

Ltac world_eq :=
  apply world_eq_intro; simp;
  rewrite ?insert_last, ?insert_insert_eq, <- ?app_assoc;
  reflexivity.

(** Price, wallet lookup and balance check of an admitted purchase. *)
Ltac admit_purchase Hq Hw Hlt :=
  unfold_engine; simp; rewrite Hq; simp; rewrite Hw; simp; rewrite Hlt; simp.

Ltac conclude_success :=
  eexists _, _, _; split; [f_equal; world_eq|done].

Ltac conclude_failure :=
  eexists _, _, _, _, _;
  split; [f_equal; world_eq|];
  simp; rewrite ?length_snoc; done.

Lemma append_assoc (a b c : string) : (a +:+ b) +:+ c = a +:+ (b +:+ c).
Proof.
  induction a as [|x a IH]; [reflexivity|].
  change (String x ((a +:+ b) +:+ c) = String x (a +:+ (b +:+ c))).
  by rewrite IH.
Qed.

Ltac refund_world_eq :=
  apply world_eq_intro; simp;
  rewrite ?length_insert, ?length_snoc, ?insert_last, ?insert_insert_eq,
    <- ?app_assoc;
  reflexivity.

Lemma eq_str_true (v : option value) (s : string) :
  eq_str v s = true ↔ v = Some (VStr s).
Proof.
  destruct v as [[]|]; cbn; try (split; [done|by intros [=]]).
  rewrite String.eqb_eq. split; [by intros ->|by intros [= ->]].
Qed.

Section Runs.
Variable env : Env.

(** An admitted purchase whose dispatch succeeds and whose token can be
    read: the whole final world. *)
Lemma purchase_success_run (i : intent) (u : User.t) (w : World)
  (wallet : Wallet.t) (profit selling_price : float) :
quote i w = Returns (profit, selling_price) →
wallets w !! User.id u = Some wallet →
(Wallet.balance wallet <? selling_price) = false →
dispatch_succeeds env i u (next_trans_id env w) = true →
token_readable env i (next_trans_id env w) = true →
∃ debit mail message,
  purchase env i u w
    = (Returns [ ("message", VStr message);
                 ("transaction_id", VInt (S (length (transactions w)))) ],
       settled w (User.id u)
         (Wallet.set_balance (Wallet.balance wallet - selling_price) wallet)
         [debit] (calls_of env i u (next_trans_id env w)) [mail] 1) ∧
  Transaction.id debit = Some (S (length (transactions w))) ∧
  Transaction.type debit = "debit" ∧
  Transaction.amount debit = selling_price ∧
  Transaction.status debit = "success" ∧
  Transaction.profit debit = profit ∧
  Email.kind mail = PurchaseSuccess.
Proof.
intros Hq Hw Hlt Hd Ht.
unfold quote, price_config_of in Hq. unfold calls_of.
unfold next_trans_id in *.
destruct i as [r|r|r]; simp in Hq; simp in Hd; simp in Ht.
- unfold mobilenig_purchase_succeeds in Hd.
  destruct (mobilenig_reply env _) as [v|] eqn:Hv in Hd; [|done].
  admit_purchase Hq Hw Hlt. rewrite Hv. simp. conclude_success.
- unfold mobilenig_purchase_succeeds in Hd.
  destruct (mobilenig_reply env _) as [v|] eqn:Hv in Hd; [|done].
  admit_purchase Hq Hw Hlt. rewrite Hv. simp. conclude_success.
- destruct (routes_to_ebills (ElectricityRequest.provider r)) eqn:Hroute.
  + apply andb_true_iff in Hd as [Hver Hpur].
    unfold verification_passes in *. unfold ebills_purchase_succeeds in Hpur.
    destruct (ebills_verify_reply env _ _ _) as [vr|] eqn:Hvr; [|done].
    destruct (ebills_purchase_reply env _ _ _ _ _) as [pr|] eqn:Hpr; [|done].
    unfold data_is_object in Ht.
    admit_purchase Hq Hw Hlt.
    fold (routes_to_ebills (ElectricityRequest.provider r)).
    rewrite Hroute. simp.
    rewrite Hvr. simp. rewrite Hver. simp. rewrite Hpr. simp.
    rewrite Hpur. simp.
    destruct (EbillsResponse.data pr) as [[]|]; try done; simp;
      try destruct (truthy _); simp; conclude_success.
  + unfold mobilenig_purchase_succeeds in Hd.
    destruct (mobilenig_reply env _) as [v|] eqn:Hv in Hd; [|done].
    admit_purchase Hq Hw Hlt.
    fold (routes_to_ebills (ElectricityRequest.provider r)).
    rewrite Hroute. simp.
    rewrite Hv. simp. conclude_success.
Qed.

(** An admitted purchase whose dispatch fails: the whole final world. *)
Lemma purchase_failure_run (i : intent) (u : User.t) (w : World)
  (wallet : Wallet.t) (profit selling_price : float) :
quote i w = Returns (profit, selling_price) →
wallets w !! User.id u = Some wallet →
(Wallet.balance wallet <? selling_price) = false →
dispatch_succeeds env i u (next_trans_id env w) = false →
∃ debit credit mail1 mail2 reason,
  purchase env i u w
    = (Raises (HTTPException 400 ("Transaction failed: " +:+ reason)),
       settled w (User.id u)
         (Wallet.set_balance
            (Wallet.balance wallet - selling_price + selling_price) wallet)
         [debit; credit] (calls_of env i u (next_trans_id env w))
         [mail1; mail2] 2) ∧
  (Transaction.id debit = Some (S (length (transactions w))) ∧
   Transaction.type debit = "debit" ∧
   Transaction.amount debit = selling_price ∧
   Transaction.status debit = "failed" ∧
   Transaction.profit debit = profit) ∧
  (Transaction.id credit = Some (S (S (length (transactions w)))) ∧
   Transaction.type credit = "credit" ∧
   Transaction.amount credit = selling_price ∧
   Transaction.status credit = "success" ∧
   Transaction.reference credit
     = "REFUND-" +:+ pretty (S (length (transactions w))) ∧
   Transaction.service_type credit = "refund" ∧
   Transaction.profit credit = 0) ∧
  Email.kind mail1 = PurchaseFailed ∧
  Email.kind mail2 = Refund.
Proof.
intros Hq Hw Hlt Hd.
unfold quote, price_config_of in Hq. unfold calls_of.
unfold next_trans_id in *.
destruct i as [r|r|r]; simp in Hq; simp in Hd.
- unfold mobilenig_purchase_succeeds in Hd.
  destruct (mobilenig_reply env _) as [|e] eqn:Hv in Hd; [done|].
  admit_purchase Hq Hw Hlt. rewrite Hv. simp. conclude_failure.
- unfold mobilenig_purchase_succeeds in Hd.
  destruct (mobilenig_reply env _) as [|e] eqn:Hv in Hd; [done|].
  admit_purchase Hq Hw Hlt. rewrite Hv. simp. conclude_failure.
- destruct (routes_to_ebills (ElectricityRequest.provider r)) eqn:Hroute.
  + unfold verification_passes, ebills_purchase_succeeds in *.
    admit_purchase Hq Hw Hlt.
    fold (routes_to_ebills (ElectricityRequest.provider r)).
    rewrite Hroute. simp.
    destruct (ebills_verify_reply env _ _ _) as [vr|e] eqn:Hvr; simp.
    * destruct (eq_str (EbillsResponse.code vr) "success") eqn:Hc; simp.
      -- simp in Hd.
         destruct (ebills_purchase_reply env _ _ _ _ _) as [pr|e] eqn:Hpr;
           simp.
         ++ rewrite Hd. simp. conclude_failure.
         ++ conclude_failure.
      -- conclude_failure.
    * conclude_failure.
  + unfold mobilenig_purchase_succeeds in Hd.
    destruct (mobilenig_reply env _) as [|e] eqn:Hv in Hd; [done|].
    admit_purchase Hq Hw Hlt.
    fold (routes_to_ebills (ElectricityRequest.provider r)).
    rewrite Hroute. simp.
    rewrite Hv. simp. conclude_failure.
Qed.

(** The object after [status = st] and [meta_data += s]. *)
Lemma assigned_after_dispatch (s st : string) (i : option nat)
    (x : Transaction.t) :
  Transaction.append_meta_data s
    (Transaction.set_status st (Transaction.set_id i x))
  = {| Transaction.id := i;
       Transaction.wallet_id := Transaction.wallet_id x;
       Transaction.user_id := Transaction.user_id x;
       Transaction.trans_id := Transaction.trans_id x;
       Transaction.amount := Transaction.amount x;
       Transaction.type := Transaction.type x;
       Transaction.status := st;
       Transaction.reference := Transaction.reference x;
       Transaction.service_type := Transaction.service_type x;
       Transaction.meta_data := Transaction.meta_data x +:+ s;
       Transaction.profit := Transaction.profit x |}.
Proof. reflexivity. Qed.

(** An admitted purchase whose dispatch succeeds but whose token cannot be
    read: the whole final world.  Only the verifying adapter's route reads
    a token. *)
Lemma purchase_slip_run (i : intent) (u : User.t) (w : World)
  (wallet : Wallet.t) (profit selling_price : float) :
quote i w = Returns (profit, selling_price) →
wallets w !! User.id u = Some wallet →
(Wallet.balance wallet <? selling_price) = false →
dispatch_succeeds env i u (next_trans_id env w) = true →
token_readable env i (next_trans_id env w) = false →
∃ request reply data,
  i = Electricity request ∧
  routes_to_ebills (ElectricityRequest.provider request) = true ∧
  ebills_purchase_reply env (next_trans_id env w)
    (ElectricityRequest.meter_number request) "enugu-electric"
    (ebills_variation_id (ElectricityRequest.type request))
    (ElectricityRequest.amount request) = Returns reply ∧
  EbillsResponse.code reply = Some (VStr "success") ∧
  EbillsResponse.data reply = Some data ∧
  (∀ d, data ≠ VDict d) ∧
  let reason := "'" +:+ type_name data +:+ "' object has no attribute 'get'" in
  let trail := " | eBills Response: " +:+ EbillsResponse.text reply in
  purchase env i u w
    = (Raises (HTTPException 400 ("Transaction failed: " +:+ reason)),
       settled w (User.id u)
         (Wallet.set_balance
            (Wallet.balance wallet - selling_price + selling_price) wallet)
         [ debit_record env i u w wallet profit selling_price "failed"
             (trail +:+ " | Error: " +:+ reason);
           refund_record env i u w wallet selling_price ]
         (calls_of env i u (next_trans_id env w))
         [ mail_of env i u PurchaseFailed selling_price
             (reference_of i wallet) (Some reason);
           mail_of env i u Refund selling_price
             ("REFUND-" +:+ pretty (S (length (transactions w)))) None ]
         2).
Proof.
intros Hq Hw Hlt Hd Ht.
unfold quote, price_config_of in Hq.
unfold next_trans_id in *.
destruct i as [r|r|r]; simp in Hq; simp in Hd; simp in Ht; try done.
destruct (routes_to_ebills (ElectricityRequest.provider r)) eqn:Hroute;
  [|done].
apply andb_true_iff in Hd as [Hver Hpur].
unfold verification_passes in *. unfold ebills_purchase_succeeds in Hpur.
destruct (ebills_verify_reply env _ _ _) as [vr|] eqn:Hvr; [|done].
destruct (ebills_purchase_reply env _ _ _ _ _) as [pr|] eqn:Hpr; [|done].
unfold data_is_object in Ht.
destruct (EbillsResponse.data pr) as [data|] eqn:Hdata; [|done].
exists r, pr, data.
split; [done|]. split; [done|]. split; [done|].
split; [by apply eq_str_true|]. split; [done|].
split; [by intros d ->|].
unfold calls_of, verification_passes. rewrite Hroute, Hvr, Hver.
admit_purchase Hq Hw Hlt.
fold (routes_to_ebills (ElectricityRequest.provider r)).
rewrite Hroute. simp.
rewrite Hvr. simp. rewrite Hver. simp. rewrite Hpr. simp.
rewrite Hpur. simp. rewrite Hdata. simp.
rewrite assigned_after_dispatch. simp.
unfold debit_record, refund_record, mail_of. unfold next_trans_id.
destruct data; try discriminate Ht; simp; f_equal; apply world_eq_intro; simp;
  rewrite ?length_insert, ?length_snoc, ?insert_last, ?insert_insert_eq,
    <- ?app_assoc; try reflexivity;
  do 2 f_equal;
  unfold Transaction.append_meta_data, Transaction.set_status,
    Transaction.set_id; simp; f_equal; by rewrite !append_assoc.
Qed.

(** Reading the settled world. *)
Lemma balance_of_settled w owner wallet rows calls mails ids :
balance_of owner (settled w owner wallet rows calls mails ids)
= Some (Wallet.balance wallet).
Proof. unfold balance_of, settled. cbn. by rewrite lookup_insert_eq. Qed.

End Runs.

(** ** Admission control *)

(** C4: a purchase whose wallet balance is strictly below the selling price
    is rejected with 400 "Insufficient funds", and a purchase without a
    wallet with 404 "Wallet not found"; either way the world is left exactly
    as it was: no balance change, no transaction record, no vendor call, no
    e-mail, no identifier issued. *)
Theorem rejected_purchase_has_no_effect
    (env : Env) (i : intent) (u : User.t) (w : World) :
  (∀ wallet profit selling_price,
     quote i w = Returns (profit, selling_price) →
     wallets w !! User.id u = Some wallet →
     (Wallet.balance wallet <? selling_price) = true →
     purchase env i u w
       = (Raises (HTTPException 400 "Insufficient funds"), w)) ∧
  (wallets w !! User.id u = None →
     purchase env i u w = (Raises (HTTPException 404 "Wallet not found"), w)).
Proof.
  split.
  - intros wallet profit selling Hq Hw Hlt.
    unfold quote, price_config_of in Hq.
    destruct i; simp in Hq; unfold_engine; simp; rewrite Hq; simp;
      rewrite Hw; simp; rewrite Hlt; reflexivity.
  - intros Hw.
    destruct (calculate_price_returns (cost_price_of i) (price_config_of i w))
      as [profit Hq].
    unfold price_config_of in Hq.
    destruct i; simp in Hq; unfold_engine; simp; rewrite Hq; simp;
      rewrite Hw; reflexivity.
Qed.

(** Scenario D: balance 10, selling price 50. *)
Lemma rejected_purchase_has_no_effect_witness :
  quote (airtime_of 50) (ledger 10) = Returns (0, 50) ∧
  wallets (ledger 10) !! User.id alice
    = Some {| Wallet.id := 7; Wallet.balance := 10 |} ∧
  (10 <? 50) = true ∧
  purchase vendors_up (airtime_of 50) alice (ledger 10)
    = (Raises (HTTPException 400 "Insufficient funds"), ledger 10).
Proof.
  assert (Hq : quote (airtime_of 50) (ledger 10) = Returns (0, 50))
    by reflexivity.
  assert (Hw : wallets (ledger 10) !! User.id alice
               = Some {| Wallet.id := 7; Wallet.balance := 10 |})
    by reflexivity.
  split; [exact Hq|]. split; [exact Hw|]. split; [reflexivity|].
  exact (proj1 (rejected_purchase_has_no_effect vendors_up (airtime_of 50)
                  alice (ledger 10)) _ _ _ Hq Hw eq_refl).
Defined.

(** ** Successful purchases *)

(** C2, where [purchase_electricity] departs from it: an admitted purchase
    whose adapter dispatch succeeds is not always debited once.  Alice
    holds 100 and buys electricity for 50 from EEDC; eBills verifies the
    meter, completes the order and answers
    [{"code": "success", "message": "ORDER COMPLETED", "data": null}].
    The adapter dispatch has succeeded and the vendor was called for the
    purchase, yet [data.get("token")] raises on the [null]: the [except]
    block marks the debit [failed] and refunds it.  The request ends in
    400, the wallet is back at 100 instead of 50, and two records exist, a
    failed debit and a credit, instead of one successful debit. *)
Theorem completed_order_refunded_on_null_data :
  quote (Electricity eedc_request) (ledger 100) = Returns (0, 50) ∧
  (100 <? 50) = false ∧
  dispatch_succeeds ebills_null_data (Electricity eedc_request) alice
    (next_trans_id ebills_null_data (ledger 100)) = true ∧
  (purchase ebills_null_data (Electricity eedc_request) alice (ledger 100)).1
    = Raises (HTTPException 400
        "Transaction failed: 'NoneType' object has no attribute 'get'") ∧
  balance_of 1
    (purchase ebills_null_data (Electricity eedc_request) alice (ledger 100)).2
    = Some 100 ∧
  (λ t, (Transaction.type t, Transaction.amount t, Transaction.status t)) <$>
    transactions
      (purchase ebills_null_data (Electricity eedc_request) alice
         (ledger 100)).2
    = [ ("debit", 50, "failed"); ("credit", 50, "success") ] ∧
  vendor_calls
    (purchase ebills_null_data (Electricity eedc_request) alice (ledger 100)).2
    = [ EbillsVerify "45067198783" "enugu-electric" "prepaid";
        EbillsPurchase "251130235907DOZ" "45067198783" "enugu-electric"
          "prepaid" 50 ].
Proof.
  split; [reflexivity|]. split; [reflexivity|]. split; [reflexivity|].
  split; [reflexivity|]. split; [reflexivity|]. split; reflexivity.
Qed.

(** X25: an admitted purchase (airtime, data or electricity) whose adapter
    dispatch succeeds and whose token can be read (on the verifying
    adapter's route the [data] member of the purchase reply is missing or
    an object; nothing is asked on the other routes) leaves the wallet at
    the balance before minus the selling price and adds exactly one
    transaction record: a debit of the selling price whose status is
    [success]. *)
Theorem completed_purchase_debits_once
    (env : Env) (i : intent) (u : User.t) (w : World)
    (wallet : Wallet.t) (profit selling_price : float) :
  quote i w = Returns (profit, selling_price) →
  wallets w !! User.id u = Some wallet →
  (Wallet.balance wallet <? selling_price) = false →
  dispatch_succeeds env i u (next_trans_id env w) = true →
  token_readable env i (next_trans_id env w) = true →
  balance_of (User.id u) (purchase env i u w).2
    = Some (Wallet.balance wallet - selling_price) ∧
  ∃ debit,
    transactions (purchase env i u w).2 = transactions w ++ [debit] ∧
    Transaction.type debit = "debit" ∧
    Transaction.amount debit = selling_price ∧
    Transaction.status debit = "success".
Proof.
  intros Hq Hw Hlt Hd Ht.
  destruct (purchase_success_run env i u w wallet profit selling_price
              Hq Hw Hlt Hd Ht)
    as (debit & mail & message & -> & _ & Htype & Hamount & Hstatus & _).
  split; [apply balance_of_settled|].
  by exists debit.
Qed.

(** Scenario A: balance 100, electricity for 50 from EEDC, no pricing
    rule, eBills verifies the meter and answers with a token; the balance
    becomes 50. *)
Lemma completed_purchase_debits_once_witness :
  quote (Electricity eedc_request) (ledger 100) = Returns (0, 50) ∧
  (100 <? 50) = false ∧
  dispatch_succeeds vendors_up (Electricity eedc_request) alice
    (next_trans_id vendors_up (ledger 100)) = true ∧
  token_readable vendors_up (Electricity eedc_request)
    (next_trans_id vendors_up (ledger 100)) = true ∧
  balance_of 1
    (purchase vendors_up (Electricity eedc_request) alice (ledger 100)).2
    = Some 50.
Proof.
  split; [reflexivity|]. split; [reflexivity|]. split; [reflexivity|].
  split; [reflexivity|].
  exact (proj1 (completed_purchase_debits_once vendors_up
                  (Electricity eedc_request) alice (ledger 100)
                  (alice_wallet 100) 0 50 eq_refl eq_refl eq_refl eq_refl
                  eq_refl)).
Defined.

(** ** Failed purchases *)

Set Warnings "-inexact-float".

(** C1, counterexample: Alice holds 100.2 and buys airtime for 16.1; the
    vendor call times out.  The debit leaves [100.2 - 16.1], the refund adds
    16.1 back, and the rounded sum is 100.19999999999999, not 100.2. *)
Lemma refund_balance_counterexample :
  quote (airtime_of 16.1) (ledger 100.2) = Returns (0, 16.1) ∧
  (100.2 <? 16.1) = false ∧
  dispatch_succeeds vendors_down (airtime_of 16.1) alice
    (next_trans_id vendors_down (ledger 100.2)) = false ∧
  balance_of 1 (purchase vendors_down (airtime_of 16.1) alice (ledger 100.2)).2
    = Some (100.2 - 16.1 + 16.1) ∧
  (100.2 - 16.1 + 16.1 =? 100.2) = false ∧
  ¬ balance_restored vendors_down (airtime_of 16.1) alice (ledger 100.2).
Proof.
  split; [reflexivity|]. split; [reflexivity|]. split; [reflexivity|].
  split; [reflexivity|]. split; [reflexivity|].
  unfold balance_restored. intros H.
  apply (f_equal (fun b => match b with
                           | Some x => PrimFloat.eqb x 100.2
                           | None => false
                           end)) in H.
  vm_compute in H. discriminate.
Qed.

Set Warnings "+inexact-float".

(** C1 (amended): an admitted purchase (airtime, data or electricity) whose
    adapter dispatch fails is debited and credited the same selling price,
    so the wallet ends at [(balance - selling_price) + selling_price], each
    operation rounded to binary64; and exactly two transaction records are
    added: the debit, with status [failed], and a credit with status
    [success], reference [REFUND-<id of the debit>], service type [refund]
    and profit 0. *)
Theorem failed_purchase_is_refunded
    (env : Env) (i : intent) (u : User.t) (w : World)
    (wallet : Wallet.t) (profit selling_price : float) :
  quote i w = Returns (profit, selling_price) →
  wallets w !! User.id u = Some wallet →
  (Wallet.balance wallet <? selling_price) = false →
  dispatch_succeeds env i u (next_trans_id env w) = false →
  balance_of (User.id u) (purchase env i u w).2
    = Some (Wallet.balance wallet - selling_price + selling_price) ∧
  ∃ debit credit n,
    transactions (purchase env i u w).2 = transactions w ++ [debit; credit] ∧
    (Transaction.id debit = Some n ∧
     Transaction.type debit = "debit" ∧
     Transaction.amount debit = selling_price ∧
     Transaction.status debit = "failed") ∧
    (Transaction.type credit = "credit" ∧
     Transaction.amount credit = selling_price ∧
     Transaction.status credit = "success" ∧
     Transaction.reference credit = "REFUND-" +:+ pretty n ∧
     Transaction.service_type credit = "refund" ∧
     Transaction.profit credit = 0).
Proof.
  intros Hq Hw Hlt Hd.
  destruct (purchase_failure_run env i u w wallet profit selling_price
              Hq Hw Hlt Hd)
    as (debit & credit & mail1 & mail2 & reason & -> & Hdebit & Hcredit & _).
  split; [apply balance_of_settled|].
  exists debit, credit, (S (length (transactions w))).
  destruct Hdebit as (? & ? & ? & ? & _).
  destruct Hcredit as (_ & ? & ? & ? & ? & ? & ?).
  done.
Qed.

(** Scenario B: balance 100, airtime for 50, the vendor call times out; the
    balance is 100 again. *)
Lemma failed_purchase_is_refunded_witness :
  quote (airtime_of 50) (ledger 100) = Returns (0, 50) ∧
  (100 <? 50) = false ∧
  dispatch_succeeds vendors_down (airtime_of 50) alice
    (next_trans_id vendors_down (ledger 100)) = false ∧
  balance_of 1 (purchase vendors_down (airtime_of 50) alice (ledger 100)).2
    = Some 100.
Proof.
  split; [reflexivity|]. split; [reflexivity|]. split; [reflexivity|].
  exact (proj1 (failed_purchase_is_refunded vendors_down (airtime_of 50)
                  alice (ledger 100) (alice_wallet 100)
                  0 50 eq_refl eq_refl eq_refl eq_refl)).
Defined.

(** ** Provider routing *)

Lemma lower_upper_ascii c : lower_ascii (upper_ascii c) = lower_ascii c.
Proof. by destruct c as [[] [] [] [] [] [] [] []]. Qed.

Lemma lower_upper s : lower (upper s) = lower s.
Proof.
  induction s as [|c s IH]; cbn [lower upper]; [done|].
  by rewrite lower_upper_ascii, IH.
Qed.

Lemma routes_to_ebills_alias provider :
  routes_to_ebills provider = true ↔ is_enugu_alias provider.
Proof.
  unfold routes_to_ebills, str_in, is_enugu_alias. cbn [existsb].
  rewrite !orb_true_iff, !String.eqb_eq. intuition discriminate.
Qed.

Lemma routes_to_ebills_other provider :
  ¬ is_enugu_alias provider → routes_to_ebills provider = false.
Proof.
  intros H. destruct (routes_to_ebills provider) eqn:E; [|done].
  by apply routes_to_ebills_alias in E.
Qed.

(** The vendor calls and the debit record of an admitted purchase, whatever
    its outcome. *)
Lemma purchase_calls (env : Env) (i : intent) (u : User.t) (w : World)
    (wallet : Wallet.t) (profit selling_price : float) :
  quote i w = Returns (profit, selling_price) →
  wallets w !! User.id u = Some wallet →
  (Wallet.balance wallet <? selling_price) = false →
  vendor_calls (purchase env i u w).2
    = vendor_calls w ++ calls_of env i u (next_trans_id env w) ∧
  ∃ debit rows,
    transactions (purchase env i u w).2 = transactions w ++ debit :: rows ∧
    Transaction.type debit = "debit" ∧
    Transaction.amount debit = selling_price.
Proof.
  intros Hq Hw Hlt.
  destruct (dispatch_succeeds env i u (next_trans_id env w)) eqn:Hd;
    [destruct (token_readable env i (next_trans_id env w)) eqn:Ht|].
  - destruct (purchase_success_run env i u w wallet profit selling_price
                Hq Hw Hlt Hd Ht)
      as (debit & mail & message & -> & _ & ? & ? & _).
    split; [done|]. by exists debit, [].
  - destruct (purchase_slip_run env i u w wallet profit selling_price
                Hq Hw Hlt Hd Ht)
      as (request & reply & data & _ & _ & _ & _ & _ & _ & ->).
    split; [done|]. by eexists _, [_].
  - destruct (purchase_failure_run env i u w wallet profit selling_price
                Hq Hw Hlt Hd)
      as (debit & credit & mail1 & mail2 & reason & -> & (_ & ? & ? & _) & _).
    split; [done|]. by exists debit, [credit].
Qed.

(** The verification endpoint sends the three spellings to eBills. *)
Lemma verify_electricity_calls (env : Env)
    (request : ElectricityVerifyRequest.t) (w : World) :
  is_enugu_alias (ElectricityVerifyRequest.provider request) →
  vendor_calls (verify_electricity env request w).2
    = vendor_calls w ++
      [EbillsVerify (ElectricityVerifyRequest.meter_number request)
         "enugu-electric"
         (ebills_variation_id (ElectricityVerifyRequest.type request))].
Proof.
  intros Halias. apply routes_to_ebills_alias in Halias.
  unfold_engine. simp.
  fold (routes_to_ebills (ElectricityVerifyRequest.provider request)).
  rewrite Halias. simp.
  destruct (ebills_verify_reply env _ _ _) as [resp|e]; simp; [|done].
  by destruct (eq_str (EbillsResponse.code resp) "success").
Qed.

(** C6: an admitted electricity purchase whose provider lower-cases to
    [eedc], [eddc] or [enugu-electric] goes to the verifying eBills adapter:
    its first vendor call is the eBills customer verification and every
    later call is an eBills call.  With any other provider string the only
    vendor call is the MobileNig purchase: no provider is turned away before
    dispatch.  Upper-casing a provider does not change its route, and the
    verification endpoint routes the three spellings to eBills as well. *)
Theorem electricity_routing
    (env : Env) (request : ElectricityRequest.t) (u : User.t) (w : World)
    (wallet : Wallet.t) (profit selling_price : float) :
  quote (Electricity request) w = Returns (profit, selling_price) →
  wallets w !! User.id u = Some wallet →
  (Wallet.balance wallet <? selling_price) = false →
  (is_enugu_alias (ElectricityRequest.provider request) →
   ∃ rest,
     vendor_calls (purchase env (Electricity request) u w).2
       = vendor_calls w ++
         EbillsVerify (ElectricityRequest.meter_number request) "enugu-electric"
           (ebills_variation_id (ElectricityRequest.type request)) :: rest ∧
     Forall is_ebills_call rest) ∧
  (¬ is_enugu_alias (ElectricityRequest.provider request) →
   vendor_calls (purchase env (Electricity request) u w).2
     = vendor_calls w ++
       [MobileNigPurchase
          (electricity_payload request u (ElectricityRequest.amount request)
             (next_trans_id env w) (contact_phone_number u))]) ∧
  (∀ provider, is_enugu_alias (upper provider) ↔ is_enugu_alias provider) ∧
  (∀ verify_request w0,
     is_enugu_alias (ElectricityVerifyRequest.provider verify_request) →
     vendor_calls (verify_electricity env verify_request w0).2
       = vendor_calls w0 ++
         [EbillsVerify (ElectricityVerifyRequest.meter_number verify_request)
            "enugu-electric"
            (ebills_variation_id (ElectricityVerifyRequest.type verify_request))]).
Proof.
  intros Hq Hw Hlt.
  destruct (purchase_calls env (Electricity request) u w wallet profit
              selling_price Hq Hw Hlt) as [-> _].
  unfold calls_of. split; [|split; [|split]].
  - intros Halias. apply routes_to_ebills_alias in Halias. rewrite Halias.
    eexists. split; [reflexivity|].
    destruct (verification_passes env request); repeat constructor.
  - intros Hother. by rewrite routes_to_ebills_other.
  - intros provider. unfold is_enugu_alias. by rewrite lower_upper.
  - intros verify_request w0. apply verify_electricity_calls.
Qed.

Lemma electricity_routing_witness :
  quote (Electricity eedc_request) (ledger 100) = Returns (0, 50) ∧
  (100 <? 50) = false ∧
  is_enugu_alias "EEDC" ∧
  ∃ rest,
    vendor_calls
      (purchase vendors_up (Electricity eedc_request) alice (ledger 100)).2
      = [] ++ EbillsVerify "45067198783" "enugu-electric" "prepaid" :: rest ∧
    Forall is_ebills_call rest.
Proof.
  assert (Halias : is_enugu_alias "EEDC") by (right; left; reflexivity).
  split; [reflexivity|]. split; [reflexivity|]. split; [exact Halias|].
  exact (proj1 (electricity_routing vendors_up eedc_request
                  alice (ledger 100) (alice_wallet 100)
                  0 50 eq_refl eq_refl eq_refl) Halias).
Defined.

(** ** Verification before purchase *)

(** C7: in an admitted electricity purchase routed to eBills the customer
    verification is called first.  When it passes, the purchase call
    follows it.  When it fails (the call raises, or answers with a code
    other than [success]) no purchase call is made and the failure is
    handled as a vendor failure: the request ends in a 400 error, the debit
    record is marked [failed], the wallet is credited the selling price and
    the linked refund record is added. *)
Theorem verification_gates_purchase
    (env : Env) (request : ElectricityRequest.t) (u : User.t) (w : World)
    (wallet : Wallet.t) (profit selling_price : float) :
  routes_to_ebills (ElectricityRequest.provider request) = true →
  quote (Electricity request) w = Returns (profit, selling_price) →
  wallets w !! User.id u = Some wallet →
  (Wallet.balance wallet <? selling_price) = false →
  (verification_passes env request = true →
   vendor_calls (purchase env (Electricity request) u w).2
     = vendor_calls w ++
       [ EbillsVerify (ElectricityRequest.meter_number request) "enugu-electric"
           (ebills_variation_id (ElectricityRequest.type request));
         EbillsPurchase (next_trans_id env w)
           (ElectricityRequest.meter_number request) "enugu-electric"
           (ebills_variation_id (ElectricityRequest.type request))
           (ElectricityRequest.amount request) ]) ∧
  (verification_passes env request = false →
   vendor_calls (purchase env (Electricity request) u w).2
     = vendor_calls w ++
       [ EbillsVerify (ElectricityRequest.meter_number request) "enugu-electric"
           (ebills_variation_id (ElectricityRequest.type request)) ] ∧
   (∃ reason,
      (purchase env (Electricity request) u w).1
        = Raises (HTTPException 400 ("Transaction failed: " +:+ reason))) ∧
   balance_of (User.id u) (purchase env (Electricity request) u w).2
     = Some (Wallet.balance wallet - selling_price + selling_price) ∧
   ∃ debit credit n,
     transactions (purchase env (Electricity request) u w).2
       = transactions w ++ [debit; credit] ∧
     (Transaction.id debit = Some n ∧
      Transaction.type debit = "debit" ∧
      Transaction.amount debit = selling_price ∧
      Transaction.status debit = "failed") ∧
     (Transaction.type credit = "credit" ∧
      Transaction.amount credit = selling_price ∧
      Transaction.status credit = "success" ∧
      Transaction.reference credit = "REFUND-" +:+ pretty n ∧
      Transaction.service_type credit = "refund" ∧
      Transaction.profit credit = 0)).
Proof.
  intros Hroute Hq Hw Hlt. split.
  - intros Hver.
    destruct (purchase_calls env (Electricity request) u w wallet profit
                selling_price Hq Hw Hlt) as [-> _].
    unfold calls_of. by rewrite Hroute, Hver.
  - intros Hver.
    assert (Hd : dispatch_succeeds env (Electricity request) u
                   (next_trans_id env w) = false).
    { unfold dispatch_succeeds. by rewrite Hroute, Hver. }
    destruct (purchase_failure_run env (Electricity request) u w wallet profit
                selling_price Hq Hw Hlt Hd)
      as (debit & credit & mail1 & mail2 & reason & -> & Hdebit & Hcredit & _).
    split.
    { unfold calls_of. cbn [snd settled vendor_calls].
      by rewrite Hroute, Hver. }
    split; [by exists reason|].
    split; [apply balance_of_settled|].
    exists debit, credit, (S (length (transactions w))).
    destruct Hdebit as (? & ? & ? & ? & _).
    destruct Hcredit as (_ & ? & ? & ? & ? & ? & ?).
    done.
Qed.

(** Scenario C: provider [EEDC], the verification answers with a code other
    than [success]; the only vendor call is the verification. *)
Lemma verification_gates_purchase_witness :
  routes_to_ebills "EEDC" = true ∧
  quote (Electricity eedc_request) (ledger 100) = Returns (0, 50) ∧
  (100 <? 50) = false ∧
  verification_passes vendors_down eedc_request = false ∧
  vendor_calls
    (purchase vendors_down (Electricity eedc_request) alice (ledger 100)).2
    = [] ++ [EbillsVerify "45067198783" "enugu-electric" "prepaid"].
Proof.
  split; [reflexivity|]. split; [reflexivity|]. split; [reflexivity|].
  split; [reflexivity|].
  exact (proj1 (proj2 (verification_gates_purchase vendors_down eedc_request
                  alice (ledger 100) (alice_wallet 100)
                  0 50 eq_refl eq_refl eq_refl eq_refl) eq_refl)).
Defined.

(** ** Cost price and selling price *)

(** C8, counterexample: the payload of a data purchase has no [amount]
    member, so the purchase call does not carry the cost price. *)
Lemma data_payload_has_no_amount :
  quote (data_of 50) (ledger 100) = Returns (0, 50) ∧
  (100 <? 50) = false ∧
  ¬ cost_price_forwarded vendors_up (data_of 50) alice (ledger 100).
Proof.
  split; [reflexivity|]. split; [reflexivity|].
  intros (calls & Hcalls & Hall).
  assert (Hrun : vendor_calls
                   (purchase vendors_up (data_of 50) alice (ledger 100)).2
                 = [MobileNigPurchase
                      (mobilenig_payload (data_of 50) alice
                         (next_trans_id vendors_up (ledger 100)))])
    by reflexivity.
  rewrite Hrun in Hcalls. cbn [vendor_calls ledger app] in Hcalls.
  subst calls.
  apply Forall_cons in Hall as [Hamount _].
  cbv in Hamount. discriminate.
Qed.

(** The wallet after an admitted purchase: debited the selling price when
    the purchase returns, debited and credited it when the purchase ends
    in an error. *)
Lemma purchase_balance (env : Env) (i : intent) (u : User.t) (w : World)
    (wallet : Wallet.t) (profit selling_price : float) :
  quote i w = Returns (profit, selling_price) →
  wallets w !! User.id u = Some wallet →
  (Wallet.balance wallet <? selling_price) = false →
  balance_of (User.id u) (purchase env i u w).2
    = Some match (purchase env i u w).1 with
           | Returns _ => Wallet.balance wallet - selling_price
           | Raises _ => Wallet.balance wallet - selling_price + selling_price
           end.
Proof.
  intros Hq Hw Hlt.
  destruct (dispatch_succeeds env i u (next_trans_id env w)) eqn:Hd;
    [destruct (token_readable env i (next_trans_id env w)) eqn:Ht|].
  - destruct (purchase_success_run env i u w wallet profit selling_price
                Hq Hw Hlt Hd Ht) as (debit & mail & message & -> & _).
    apply balance_of_settled.
  - destruct (purchase_slip_run env i u w wallet profit selling_price
                Hq Hw Hlt Hd Ht)
      as (request & reply & data & _ & _ & _ & _ & _ & _ & ->).
    apply balance_of_settled.
  - destruct (purchase_failure_run env i u w wallet profit selling_price
                Hq Hw Hlt Hd)
      as (debit & credit & mail1 & mail2 & reason & -> & _).
    apply balance_of_settled.
Qed.

(** The selling price is the cost price plus the profit. *)
Lemma quote_selling_price (i : intent) (w : World)
    (profit selling_price : float) :
  quote i w = Returns (profit, selling_price) →
  selling_price = cost_price_of i + profit.
Proof.
  unfold quote. intros Hq.
  destruct (calculate_price_returns (cost_price_of i) (price_config_of i w))
    as [p Hp].
  rewrite Hp in Hq. congruence.
Qed.

(** C8 (amended): in every admitted purchase the wallet is debited the
    selling price, which is the cost price plus the profit: the debit
    record carries the selling price, and the wallet holds the balance
    before less the selling price when the purchase returns (and gets the
    selling price back when the purchase ends in an error).  For airtime
    and electricity, with the eBills adapter as with MobileNig, each
    purchase call carries the cost price as its amount, never the selling
    price.  The purchase call of a data purchase carries no amount at all:
    its payload holds exactly [service_id] (the plan id), [phoneNumber],
    [trans_id], [email], [customerName] and [address]. *)
Theorem vendor_receives_cost_price
    (env : Env) (i : intent) (u : User.t) (w : World)
    (wallet : Wallet.t) (profit selling_price : float) :
  quote i w = Returns (profit, selling_price) →
  wallets w !! User.id u = Some wallet →
  (Wallet.balance wallet <? selling_price) = false →
  selling_price = cost_price_of i + profit ∧
  balance_of (User.id u) (purchase env i u w).2
    = Some match (purchase env i u w).1 with
           | Returns _ => Wallet.balance wallet - selling_price
           | Raises _ => Wallet.balance wallet - selling_price + selling_price
           end ∧
  ∃ calls debit rows,
    vendor_calls (purchase env i u w).2 = vendor_calls w ++ calls ∧
    transactions (purchase env i u w).2 = transactions w ++ debit :: rows ∧
    Transaction.type debit = "debit" ∧
    Transaction.amount debit = selling_price ∧
    match i with
    | Data request =>
        ∃ payload,
          calls = [MobileNigPurchase payload] ∧
          payload
            = [ ("service_id", VStr (DataRequest.plan_id request));
                ("phoneNumber", VStr (DataRequest.phone_number request));
                ("trans_id", VStr (next_trans_id env w));
                ("email", VStr (User.email u));
                ("customerName", VStr (str_or (User.full_name u) ""));
                ("address", user_address u) ] ∧
          dict_get "amount" payload = None
    | Airtime _ | Electricity _ =>
        Forall (forwards_amount (cost_price_of i)) calls
    end.
Proof.
  intros Hq Hw Hlt.
  split; [by eapply quote_selling_price|].
  split; [by apply purchase_balance with profit|].
  destruct (purchase_calls env i u w wallet profit selling_price Hq Hw Hlt)
    as (Hcalls & debit & rows & Hrows & Htype & Hamount).
  exists (calls_of env i u (next_trans_id env w)), debit, rows.
  repeat (split; [done|]).
  unfold calls_of. destruct i as [r|r|r].
  - by repeat constructor.
  - eexists. split; [reflexivity|]. split; reflexivity.
  - destruct (routes_to_ebills _); [|by repeat constructor].
    destruct (verification_passes env r); by repeat constructor.
Qed.

(** Airtime for 50 under a 10 percent markup: the wallet is debited 55,
    leaving 45 of 100, and MobileNig is asked for 50. *)
Lemma vendor_receives_cost_price_witness :
  quote (airtime_of 50) (priced_ledger 100) = Returns (5, 55) ∧
  (100 <? 55) = false ∧
  balance_of 1
    (purchase vendors_up (airtime_of 50) alice (priced_ledger 100)).2
    = Some 45 ∧
  ∃ calls debit rows,
    vendor_calls
      (purchase vendors_up (airtime_of 50) alice (priced_ledger 100)).2
      = [] ++ calls ∧
    transactions
      (purchase vendors_up (airtime_of 50) alice (priced_ledger 100)).2
      = [] ++ debit :: rows ∧
    Transaction.type debit = "debit" ∧
    Transaction.amount debit = 55 ∧
    Forall (forwards_amount 50) calls.
Proof.
  split; [reflexivity|]. split; [reflexivity|].
  destruct (vendor_receives_cost_price vendors_up (airtime_of 50) alice
              (priced_ledger 100) (alice_wallet 100) 5 55
              eq_refl eq_refl eq_refl) as (_ & Hbalance & Hcalls).
  split; [exact Hbalance|exact Hcalls].
Defined.

(** ** TV subscriptions *)

(** C9: the TV purchase touches no wallet and no transaction record.
    When [VTUAutomator()] cannot start its browser the endpoint raises
    before the [try] block and the world is left as it was; otherwise,
    whether the vendor call returns a message, returns nothing or raises,
    the world afterwards is the world before plus one logged vendor call.
    Either way the wallets and the transaction records are those of
    before, and the response is the same in every world, so it depends on
    no balance and no record. *)
Theorem purchase_tv_leaves_ledger
    (env : Env) (request : TVRequest.t) (w : World) :
  match sltv_driver env with
  | Returns _ =>
      (purchase_tv env request w).2
        = with_vendor_calls (fun l => l ++ [SltvPurchase request]) w
  | Raises e =>
      purchase_tv env request w = (Raises e, w)
  end ∧
  wallets (purchase_tv env request w).2 = wallets w ∧
  transactions (purchase_tv env request w).2 = transactions w ∧
  (∀ w2, (purchase_tv env request w).1 = (purchase_tv env request w2).1).
Proof.
  unfold_engine. simp.
  destruct (sltv_driver env) as [[]|e0]; simp; [|done].
  destruct (sltv_reply env request) as [v|e]; simp.
  - destruct (truthy v); simp; done.
  - done.
Qed.

(** Chrome does not start: the endpoint raises what the constructor raised
    and calls no vendor. *)
Example purchase_tv_without_browser :
  purchase_tv chrome_missing tv_request (ledger 100)
    = (Raises (Exception "Message: unable to obtain driver for chrome"),
       ledger 100).
Proof. reflexivity. Qed.

(** ** Verification of other providers *)

(** C10: for a provider that does not lower-case to [eedc], [eddc] or
    [enugu-electric], the verification endpoint returns success with the
    customer name [Verified User] and the message that verification was
    skipped, and leaves the world as it was: no vendor is called. *)
Theorem verification_skipped_for_other_providers
    (env : Env) (request : ElectricityVerifyRequest.t) (w : World) :
  ¬ is_enugu_alias (ElectricityVerifyRequest.provider request) →
  verify_electricity env request w
    = (Returns
         [ ("status", VStr "success");
           ("message",
            VStr "Verification skipped for this provider (not fully implemented yet).");
           ("data", VDict [("customer_name", VStr "Verified User")]) ],
       w).
Proof.
  intros Hother.
  assert (Hroute := routes_to_ebills_other _ Hother).
  assert (Hne : String.eqb (ElectricityVerifyRequest.provider request)
                  "enugu-electric" = false).
  { apply String.eqb_neq. intros Heq. apply Hother. left. by rewrite Heq. }
  unfold_engine. simp.
  fold (routes_to_ebills (ElectricityVerifyRequest.provider request)).
  rewrite Hroute. by rewrite Hne.
Qed.

Lemma verification_skipped_for_other_providers_witness :
  ¬ is_enugu_alias "ikeja-electric" ∧
  (verify_electricity vendors_down ikeja_verify_request (ledger 0)).2
    = ledger 0.
Proof.
  assert (Hother : ¬ is_enugu_alias "ikeja-electric").
  { intros [H|[H|H]]; vm_compute in H; discriminate. }
  split; [exact Hother|].
  exact (f_equal snd (verification_skipped_for_other_providers vendors_down
                        ikeja_verify_request (ledger 0) Hother)).
Defined.

(** * Further properties of the engine *)

(** ** Every purchase ends in one of the five outcomes *)

Lemma purchase_outcome_sound (env : Env) (i : intent) (u : User.t) (w : World) :
  purchase_outcome env i u w (purchase env i u w).1 (purchase env i u w).2.
Proof.
  destruct (wallets w !! User.id u) as [wallet|] eqn:Hw.
  2:{ destruct (calculate_price_returns (cost_price_of i) (price_config_of i w))
        as [profit Hq].
      assert (Hrun : purchase env i u w
                     = (Raises (HTTPException 404 "Wallet not found"), w)).
      { unfold price_config_of in Hq.
        destruct i; simp in Hq; unfold_engine; simp; rewrite Hq; simp;
          rewrite Hw; reflexivity. }
      rewrite Hrun. by constructor. }
  destruct (calculate_price_returns (cost_price_of i) (price_config_of i w))
    as [profit Hq].
  fold (quote i w) in Hq.
  set (selling_price := cost_price_of i + profit) in *.
  destruct (Wallet.balance wallet <? selling_price) eqn:Hlt.
  { assert (Hrun : purchase env i u w
                   = (Raises (HTTPException 400 "Insufficient funds"), w)).
    { unfold quote, price_config_of in Hq.
      destruct i; simp in Hq; unfold_engine; simp; rewrite Hq; simp;
        rewrite Hw; simp; rewrite Hlt; reflexivity. }
    rewrite Hrun. by econstructor. }
  destruct (dispatch_succeeds env i u (next_trans_id env w)) eqn:Hd;
    [destruct (token_readable env i (next_trans_id env w)) eqn:Ht|].
  - (* delivered *)
    assert (Hrun : ∃ trail recipient,
      purchase env i u w
      = (Returns [ ("message", VStr (success_message i));
                   ("transaction_id", VInt (S (length (transactions w)))) ],
         settled w (User.id u)
           (Wallet.set_balance (Wallet.balance wallet - selling_price) wallet)
           [debit_record env i u w wallet profit selling_price "success" trail]
           (calls_of env i u (next_trans_id env w))
           [mail_of env i u PurchaseSuccess selling_price
              (reference_of i wallet) (Some recipient)]
           1)).
    { pose proof Hq as Hq'. unfold quote, price_config_of in Hq'.
      unfold calls_of, debit_record, mail_of. unfold next_trans_id in *.
      destruct i as [r|r|r]; simp in Hq'; simp in Hd; simp in Ht.
      - unfold mobilenig_purchase_succeeds in Hd.
        destruct (mobilenig_reply env _) as [v|] eqn:Hv in Hd; [|done].
        admit_purchase Hq' Hw Hlt. rewrite Hv. simp.
        eexists _, _. f_equal. world_eq.
      - unfold mobilenig_purchase_succeeds in Hd.
        destruct (mobilenig_reply env _) as [v|] eqn:Hv in Hd; [|done].
        admit_purchase Hq' Hw Hlt. rewrite Hv. simp.
        eexists _, _. f_equal. world_eq.
      - destruct (routes_to_ebills (ElectricityRequest.provider r)) eqn:Hroute.
        + apply andb_true_iff in Hd as [Hver Hpur].
          unfold verification_passes in *.
          unfold ebills_purchase_succeeds in Hpur.
          destruct (ebills_verify_reply env _ _ _) as [vr|] eqn:Hvr; [|done].
          destruct (ebills_purchase_reply env _ _ _ _ _) as [pr|] eqn:Hpr;
            [|done].
          unfold data_is_object in Ht.
          admit_purchase Hq' Hw Hlt.
          fold (routes_to_ebills (ElectricityRequest.provider r)).
          rewrite Hroute. simp.
          rewrite Hvr. simp. rewrite Hver. simp. rewrite Hpr. simp.
          rewrite Hpur. simp. rewrite assigned_after_dispatch. simp.
          assert (Htoken : ∃ token,
            match EbillsResponse.data pr with
            | Some (VDict d) => default VNone (dict_get "token" d)
            | _ => VNone
            end = token) by eauto.
          destruct Htoken as [token Htoken].
          destruct (EbillsResponse.data pr) as [[]|]; try discriminate Ht;
            simp; rewrite ?Htoken.
          * destruct (truthy token); simp.
            -- eexists (_ +:+ _), _. f_equal. apply world_eq_intro; simp;
                 rewrite ?insert_last, ?insert_insert_eq, <- ?app_assoc;
                 try reflexivity.
               do 2 f_equal.
               unfold Transaction.append_meta_data; simp.
               f_equal. apply append_assoc.
            -- eexists _, _. f_equal. world_eq.
          * eexists _, _. f_equal. world_eq.
        + unfold mobilenig_purchase_succeeds in Hd.
          destruct (mobilenig_reply env _) as [v|] eqn:Hv in Hd; [|done].
          admit_purchase Hq' Hw Hlt.
          fold (routes_to_ebills (ElectricityRequest.provider r)).
          rewrite Hroute. simp.
          rewrite Hv. simp. eexists _, _. f_equal. world_eq. }
    destruct Hrun as (trail & recipient & ->). by econstructor.
  - (* refunded although the dispatch succeeded *)
    destruct (purchase_slip_run env i u w wallet profit selling_price
                Hq Hw Hlt Hd Ht)
      as (request & reply & data & _ & _ & _ & _ & _ & _ & ->).
    by econstructor.
  - (* refunded *)
    assert (Hrun : ∃ reason,
      purchase env i u w
      = (Raises (HTTPException 400 ("Transaction failed: " +:+ reason)),
         settled w (User.id u)
           (Wallet.set_balance
              (Wallet.balance wallet - selling_price + selling_price) wallet)
           [ debit_record env i u w wallet profit selling_price "failed"
               (" | Error: " +:+ reason);
             refund_record env i u w wallet selling_price ]
           (calls_of env i u (next_trans_id env w))
           [ mail_of env i u PurchaseFailed selling_price
               (reference_of i wallet) (Some reason);
             mail_of env i u Refund selling_price
               ("REFUND-" +:+ pretty (S (length (transactions w)))) None ]
           2)).
    { pose proof Hq as Hq'. unfold quote, price_config_of in Hq'.
      unfold calls_of, debit_record, refund_record, mail_of.
      unfold next_trans_id in *.
      destruct i as [r|r|r]; simp in Hq'; simp in Hd.
      - unfold mobilenig_purchase_succeeds in Hd.
        destruct (mobilenig_reply env _) as [|e] eqn:Hv in Hd; [done|].
        admit_purchase Hq' Hw Hlt. rewrite Hv. simp.
        eexists. f_equal. refund_world_eq.
      - unfold mobilenig_purchase_succeeds in Hd.
        destruct (mobilenig_reply env _) as [|e] eqn:Hv in Hd; [done|].
        admit_purchase Hq' Hw Hlt. rewrite Hv. simp.
        eexists. f_equal. refund_world_eq.
      - destruct (routes_to_ebills (ElectricityRequest.provider r)) eqn:Hroute.
        + unfold verification_passes, ebills_purchase_succeeds in *.
          admit_purchase Hq' Hw Hlt.
          fold (routes_to_ebills (ElectricityRequest.provider r)).
          rewrite Hroute. simp.
          destruct (ebills_verify_reply env _ _ _) as [vr|e] eqn:Hvr; simp.
          * destruct (eq_str (EbillsResponse.code vr) "success") eqn:Hc; simp.
            -- simp in Hd.
               destruct (ebills_purchase_reply env _ _ _ _ _) as [pr|e] eqn:Hpr;
                 simp.
               ++ rewrite Hd. simp. eexists. f_equal. refund_world_eq.
               ++ eexists. f_equal. refund_world_eq.
            -- eexists. f_equal. refund_world_eq.
          * eexists. f_equal. refund_world_eq.
        + unfold mobilenig_purchase_succeeds in Hd.
          destruct (mobilenig_reply env _) as [|e] eqn:Hv in Hd; [done|].
          admit_purchase Hq' Hw Hlt.
          fold (routes_to_ebills (ElectricityRequest.provider r)).
          rewrite Hroute. simp.
          rewrite Hv. simp. eexists. f_equal. refund_world_eq. }
    destruct Hrun as (reason & ->). by econstructor.
Qed.

(** ** What a purchase never touches *)

(** X1: a purchase, however it ends, leaves the wallet of every other user
    as it was. *)
Theorem purchase_keeps_other_wallets
    (env : Env) (i : intent) (u : User.t) (w : World) (other : nat) :
  other ≠ User.id u →
  wallets (purchase env i u w).2 !! other = wallets w !! other.
Proof.
  intros Hne.
  destruct (purchase_outcome_sound env i u w); try done;
    cbn [settled wallets]; by rewrite lookup_insert_ne.
Qed.

Lemma purchase_keeps_other_wallets_witness :
  2%nat ≠ User.id alice ∧
  balance_of 2 (purchase vendors_down (airtime_of 50) alice
                  (shared_ledger 100 30)).2 = Some 30.
Proof.
  assert (Hne : 2%nat ≠ User.id alice) by (cbn; lia).
  split; [exact Hne|].
  unfold balance_of.
  rewrite (purchase_keeps_other_wallets vendors_down (airtime_of 50) alice
             (shared_ledger 100 30) 2 Hne).
  reflexivity.
Defined.

(** X2: a purchase, however it ends, only appends to the transaction table:
    the records that were there stay as they were and at most two records
    are added, all of them for the buyer and the buyer's wallet; the
    pricing table is not changed. *)
Theorem purchase_appends_history
    (env : Env) (i : intent) (u : User.t) (w : World) :
  ∃ rows,
    transactions (purchase env i u w).2 = transactions w ++ rows ∧
    (length rows ≤ 2)%nat ∧
    Forall (fun t => Transaction.user_id t = User.id u ∧
                     Some (Transaction.wallet_id t)
                       = Wallet.id <$> wallets w !! User.id u) rows ∧
    service_prices (purchase env i u w).2 = service_prices w.
Proof.
  destruct (purchase_outcome_sound env i u w) as [| | wallet ? ? ? ? ? Hw
                                                  | wallet ? ? ? ? Hw
                                                  | wallet ? ? ? ? ? Hw].
  - exists []. rewrite app_nil_r. repeat split; try done. cbn; lia.
  - exists []. rewrite app_nil_r. repeat split; try done. cbn; lia.
  - eexists. split; [reflexivity|]. rewrite Hw.
    repeat split; by repeat constructor.
  - eexists. split; [reflexivity|]. rewrite Hw.
    repeat split; by repeat constructor.
  - eexists. split; [reflexivity|]. rewrite Hw.
    repeat split; by repeat constructor.
Qed.

(** ** Notifications *)

(** X3: every transaction record a purchase adds is announced by exactly
    one e-mail, queued in the same order, sent to the buyer, carrying the
    record's reference and amount: a success e-mail for a successful debit,
    a failure e-mail for a failed debit, a refund e-mail for the credit.  No
    other e-mail is queued; a rejected purchase queues none. *)
Theorem purchase_announces_records
    (env : Env) (i : intent) (u : User.t) (w : World) :
  ∃ rows mails,
    transactions (purchase env i u w).2 = transactions w ++ rows ∧
    background_tasks (purchase env i u w).2 = background_tasks w ++ mails ∧
    Email.kind <$> mails = announcement <$> rows ∧
    Email.transaction_ref <$> mails = Transaction.reference <$> rows ∧
    Email.amount <$> mails = Transaction.amount <$> rows ∧
    Forall (fun m => Email.email_to m = User.email u ∧
                     Email.name m = User.full_name u) mails.
Proof.
  destruct (purchase_outcome_sound env i u w).
  - exists [], []. rewrite !app_nil_r. by repeat split.
  - exists [], []. rewrite !app_nil_r. by repeat split.
  - eexists _, _. split; [reflexivity|]. split; [reflexivity|].
    repeat split; by repeat constructor.
  - eexists _, _. split; [reflexivity|]. split; [reflexivity|].
    repeat split; by repeat constructor.
  - eexists _, _. split; [reflexivity|]. split; [reflexivity|].
    repeat split; by repeat constructor.
Qed.

(** ** Correlation of records, vendor calls and responses *)

(** X4: the identifier stored in the debit record of an attempt is the one
    every purchase call of that attempt carries to the vendor. *)
Theorem purchase_call_carries_record_identifier
    (env : Env) (i : intent) (u : User.t) (w : World)
    (debit : Transaction.t) (rows : list Transaction.t) :
  transactions (purchase env i u w).2 = transactions w ++ debit :: rows →
  ∃ calls,
    vendor_calls (purchase env i u w).2 = vendor_calls w ++ calls ∧
    Forall (carries_identifier (Transaction.trans_id debit)) calls.
Proof.
  destruct (purchase_outcome_sound env i u w);
    cbn [settled transactions vendor_calls]; intros Hrows.
  - apply (f_equal length) in Hrows. rewrite length_app in Hrows.
    cbn in Hrows. lia.
  - apply (f_equal length) in Hrows. rewrite length_app in Hrows.
    cbn in Hrows. lia.
  - apply app_inv_head in Hrows. injection Hrows as <- <-.
    eexists. split; [reflexivity|].
    unfold calls_of, debit_record; cbn [Transaction.trans_id].
    destruct i as [r|r|r]; [by repeat constructor..|].
    destruct (routes_to_ebills _); [|by repeat constructor].
    destruct (verification_passes env r); by repeat constructor.
  - apply app_inv_head in Hrows. injection Hrows as <- <-.
    eexists. split; [reflexivity|].
    unfold calls_of, debit_record; cbn [Transaction.trans_id].
    destruct i as [r|r|r]; [by repeat constructor..|].
    destruct (routes_to_ebills _); [|by repeat constructor].
    destruct (verification_passes env r); by repeat constructor.
  - apply app_inv_head in Hrows. injection Hrows as <- <-.
    eexists. split; [reflexivity|].
    unfold calls_of, debit_record; cbn [Transaction.trans_id].
    destruct i as [r|r|r]; [by repeat constructor..|].
    destruct (routes_to_ebills _); [|by repeat constructor].
    destruct (verification_passes env r); by repeat constructor.
Qed.

(** Scenario A: the identifier of the debit record is in the payload. *)
Lemma purchase_call_carries_record_identifier_witness :
  ∃ debit calls,
    transactions (purchase vendors_up (airtime_of 50) alice (ledger 100)).2
      = transactions (ledger 100) ++ [debit] ∧
    Transaction.trans_id debit = "251130235907DOZ" ∧
    vendor_calls (purchase vendors_up (airtime_of 50) alice (ledger 100)).2
      = vendor_calls (ledger 100) ++ calls ∧
    Forall (carries_identifier "251130235907DOZ") calls.
Proof.
  let t := eval vm_compute in
    (transactions (purchase vendors_up (airtime_of 50) alice (ledger 100)).2) in
  match t with [?d] => exists d end.
  assert (Hrows : transactions
                    (purchase vendors_up (airtime_of 50) alice (ledger 100)).2
                  = transactions (ledger 100) ++ [_])
    by (vm_compute; reflexivity).
  destruct (purchase_call_carries_record_identifier _ _ _ _ _ _ Hrows)
    as (calls & Hcalls & Hall).
  exists calls. split; [exact Hrows|]. split; [reflexivity|].
  split; [exact Hcalls|exact Hall].
Defined.

(** X5: when a purchase that recorded a debit ends in an error, the error
    is the 400 response [Transaction failed: <reason>]; the same reason is
    given in the failure e-mail and is the last entry [ | Error: <reason>]
    of the audit trail of the debit record, whose status is [failed].
    Before that entry the trail holds what it held at creation and,
    between the two, what the [try] block had appended when the error
    came: nothing when the adapter dispatch failed. *)
Theorem failure_reason_is_recorded
    (env : Env) (i : intent) (u : User.t) (w : World)
    (debit : Transaction.t) (rows : list Transaction.t) (e : exn) :
  transactions (purchase env i u w).2 = transactions w ++ debit :: rows →
  (purchase env i u w).1 = Raises e →
  ∃ reason trail mail mails,
    e = HTTPException 400 ("Transaction failed: " +:+ reason) ∧
    Transaction.status debit = "failed" ∧
    Transaction.meta_data debit
      = initial_meta_data i +:+ trail +:+ " | Error: " +:+ reason ∧
    (dispatch_succeeds env i u (next_trans_id env w) = false → trail = "") ∧
    background_tasks (purchase env i u w).2
      = background_tasks w ++ mail :: mails ∧
    Email.kind mail = PurchaseFailed ∧
    Email.extra mail = Some reason.
Proof.
  destruct (purchase_outcome_sound env i u w)
    as [| | |? ? ? ? ? ? ? Hd|? ? ? ? ? ? ? ? Hd];
    cbn [settled transactions background_tasks fst]; intros Hrows Hraise.
  - apply (f_equal length) in Hrows. rewrite length_app in Hrows.
    cbn in Hrows. lia.
  - apply (f_equal length) in Hrows. rewrite length_app in Hrows.
    cbn in Hrows. lia.
  - discriminate.
  - apply app_inv_head in Hrows. injection Hrows as <- <-.
    injection Hraise as <-.
    by eexists _, "", _, _.
  - apply app_inv_head in Hrows. injection Hrows as <- <-.
    injection Hraise as <-.
    eexists _, _, _, _. repeat (split; [done|]).
    split; [by rewrite Hd|done].
Qed.

(** Scenario B: the vendor call times out. *)
Lemma failure_reason_is_recorded_witness :
  ∃ debit rows,
    transactions (purchase vendors_down (airtime_of 50) alice (ledger 100)).2
      = transactions (ledger 100) ++ debit :: rows ∧
    (purchase vendors_down (airtime_of 50) alice (ledger 100)).1
      = Raises (HTTPException 400 "Transaction failed: timeout") ∧
    Transaction.meta_data debit = "Network: MTN | Error: timeout".
Proof.
  let t := eval vm_compute in
    (transactions (purchase vendors_down (airtime_of 50) alice (ledger 100)).2) in
  match t with ?d :: ?r => exists d, r end.
  assert (Hrows : transactions
                    (purchase vendors_down (airtime_of 50) alice (ledger 100)).2
                  = transactions (ledger 100) ++ _ :: _)
    by (vm_compute; reflexivity).
  assert (Hraise : (purchase vendors_down (airtime_of 50) alice (ledger 100)).1
                   = Raises (HTTPException 400 "Transaction failed: timeout"))
    by (vm_compute; reflexivity).
  destruct (failure_reason_is_recorded vendors_down (airtime_of 50) alice
              (ledger 100) _ _ _ Hrows Hraise)
    as (reason & trail & mail & mails & Hreason & _ & Hmeta & _).
  split; [exact Hrows|]. split; [exact Hraise|reflexivity].
Defined.

(** X6: the [transaction_id] of a success response is the primary key of
    the debit record the purchase added, the last record of the table, whose
    status is [success]. *)
Theorem success_response_names_debit
    (env : Env) (i : intent) (u : User.t) (w : World) (response : dict) :
  (purchase env i u w).1 = Returns response →
  ∃ n debit,
    dict_get "transaction_id" response = Some (VInt n) ∧
    last (transactions (purchase env i u w).2) = Some debit ∧
    Transaction.id debit = Some n ∧
    Transaction.status debit = "success" ∧
    n = length (transactions (purchase env i u w).2).
Proof.
  destruct (purchase_outcome_sound env i u w);
    cbn [settled transactions fst]; intros Hret; try discriminate.
  injection Hret as <-.
  eexists _, _. split; [reflexivity|].
  rewrite last_snoc, length_snoc. done.
Qed.

Lemma success_response_names_debit_witness :
  (purchase vendors_up (airtime_of 50) alice (ledger 100)).1
    = Returns [ ("message", VStr "Airtime purchase successful");
                ("transaction_id", VInt 1) ] ∧
  ∃ debit,
    last (transactions
            (purchase vendors_up (airtime_of 50) alice (ledger 100)).2)
      = Some debit ∧
    Transaction.id debit = Some 1%nat.
Proof.
  assert (Hret : (purchase vendors_up (airtime_of 50) alice (ledger 100)).1
                 = Returns [ ("message", VStr "Airtime purchase successful");
                             ("transaction_id", VInt 1) ])
    by (vm_compute; reflexivity).
  split; [exact Hret|].
  destruct (success_response_names_debit vendors_up (airtime_of 50) alice
              (ledger 100) _ Hret)
    as (n & debit & Hn & Hlast & Hid & _ & _).
  exists debit. split; [exact Hlast|].
  rewrite Hid. f_equal. cbn in Hn. by injection Hn as <-.
Defined.

(** X7: every debit record a purchase adds satisfies
    [amount = requested amount + profit] (in float arithmetic), and a
    credit record added after it repeats the amount with profit 0. *)
Theorem recorded_amount_is_cost_plus_profit
    (env : Env) (i : intent) (u : User.t) (w : World)
    (debit : Transaction.t) (rows : list Transaction.t) :
  transactions (purchase env i u w).2 = transactions w ++ debit :: rows →
  Transaction.amount debit = cost_price_of i + Transaction.profit debit ∧
  Forall (fun credit => Transaction.amount credit = Transaction.amount debit ∧
                        Transaction.profit credit = 0 ∧
                        Transaction.type credit = "credit") rows.
Proof.
  destruct (purchase_outcome_sound env i u w)
    as [| |? profit s ? ? Hq|? profit s ? Hq|? profit s ? ? Hq];
    cbn [settled transactions]; intros Hrows.
  - apply (f_equal length) in Hrows. rewrite length_app in Hrows.
    cbn in Hrows. lia.
  - apply (f_equal length) in Hrows. rewrite length_app in Hrows.
    cbn in Hrows. lia.
  - apply app_inv_head in Hrows. injection Hrows as <- <-.
    destruct (calculate_price_returns (cost_price_of i) (price_config_of i w))
      as [p Hp].
    unfold quote in Hq. rewrite Hp in Hq.
    assert (profit = p ∧ s = cost_price_of i + p) as [-> ->]
      by (split; congruence).
    by split.
  - apply app_inv_head in Hrows. injection Hrows as <- <-.
    destruct (calculate_price_returns (cost_price_of i) (price_config_of i w))
      as [p Hp].
    unfold quote in Hq. rewrite Hp in Hq.
    assert (profit = p ∧ s = cost_price_of i + p) as [-> ->]
      by (split; congruence).
    split; [done|]. by repeat constructor.
  - apply app_inv_head in Hrows. injection Hrows as <- <-.
    destruct (calculate_price_returns (cost_price_of i) (price_config_of i w))
      as [p Hp].
    unfold quote in Hq. rewrite Hp in Hq.
    assert (profit = p ∧ s = cost_price_of i + p) as [-> ->]
      by (split; congruence).
    split; [done|]. by repeat constructor.
Qed.

(** Airtime for 50 under a 10 percent markup: amount 55, profit 5. *)
Lemma recorded_amount_is_cost_plus_profit_witness :
  ∃ debit,
    transactions
      (purchase vendors_up (airtime_of 50) alice (priced_ledger 100)).2
      = transactions (priced_ledger 100) ++ [debit] ∧
    Transaction.profit debit = 5 ∧
    Transaction.amount debit = 50 + Transaction.profit debit.
Proof.
  let t := eval vm_compute in
    (transactions
       (purchase vendors_up (airtime_of 50) alice (priced_ledger 100)).2) in
  match t with [?d] => exists d end.
  assert (Hrows : transactions
                    (purchase vendors_up (airtime_of 50) alice
                       (priced_ledger 100)).2
                  = transactions (priced_ledger 100) ++ [_])
    by (vm_compute; reflexivity).
  split; [exact Hrows|]. split; [reflexivity|].
  exact (proj1 (recorded_amount_is_cost_plus_profit _ _ _ _ _ _ Hrows)).
Defined.

(** * Further properties: verification, TV and the portal *)

(** ** Errors of the verification and TV endpoints *)

(** The verification endpoint run on one of the three spellings. *)
Lemma verify_electricity_run (env : Env)
    (request : ElectricityVerifyRequest.t) (w : World) :
  is_enugu_alias (ElectricityVerifyRequest.provider request) →
  (verify_electricity env request w).1 =
    match ebills_verify_reply env
            (ElectricityVerifyRequest.meter_number request) "enugu-electric"
            (ebills_variation_id (ElectricityVerifyRequest.type request))
    with
    | Returns resp =>
        if eq_str (EbillsResponse.code resp) "success"
        then Returns [ ("status", VStr "success");
                       ("data", default VNone (EbillsResponse.data resp)) ]
        else Raises (HTTPException 500
               (str_http_exception env 400
                  ("Verification Failed: " +:+
                   str_get env (EbillsResponse.message resp))))
    | Raises e => Raises (HTTPException 500 (str_exn env e))
    end.
Proof.
  intros Halias. apply routes_to_ebills_alias in Halias.
  unfold_engine. simp.
  fold (routes_to_ebills (ElectricityVerifyRequest.provider request)).
  rewrite Halias. simp.
  destruct (ebills_verify_reply env _ _ _) as [resp|e]; simp; [|done].
  by destruct (eq_str (EbillsResponse.code resp) "success").
Qed.

(** X8: whatever goes wrong in the verification endpoint reaches the
    caller as status 500.  An error can only arise for one of the three
    spellings of Enugu Electric; a customer eBills rejects is reported with
    the text of the 400 response [Verification Failed: <message>] as the
    detail of a 500, an exception of the eBills call with its own text. *)
Theorem verify_electricity_errors_are_500
    (env : Env) (request : ElectricityVerifyRequest.t) (w : World) (e : exn) :
  (verify_electricity env request w).1 = Raises e →
  is_enugu_alias (ElectricityVerifyRequest.provider request) ∧
  (∃ detail, e = HTTPException 500 detail) ∧
  match ebills_verify_reply env
          (ElectricityVerifyRequest.meter_number request) "enugu-electric"
          (ebills_variation_id (ElectricityVerifyRequest.type request))
  with
  | Returns resp =>
      EbillsResponse.code resp ≠ Some (VStr "success") ∧
      e = HTTPException 500
            (str_http_exception env 400
               ("Verification Failed: " +:+
                str_get env (EbillsResponse.message resp)))
  | Raises e' => e = HTTPException 500 (str_exn env e')
  end.
Proof.
  intros Hrun.
  destruct (routes_to_ebills (ElectricityVerifyRequest.provider request))
    eqn:Hroute.
  - apply routes_to_ebills_alias in Hroute.
    rewrite (verify_electricity_run env request w Hroute) in Hrun.
    split; [done|].
    destruct (ebills_verify_reply env _ _ _) as [resp|e'].
    + destruct (eq_str (EbillsResponse.code resp) "success") eqn:Hc;
        [done|].
      injection Hrun as <-.
      split; [eauto|]. split; [|done].
      intros Hcode. apply eq_str_true in Hcode. congruence.
    + injection Hrun as <-. eauto.
  - assert (Hother : ¬ is_enugu_alias (ElectricityVerifyRequest.provider request)).
    { intros H. apply routes_to_ebills_alias in H. congruence. }
    assert (Hne : String.eqb (ElectricityVerifyRequest.provider request)
                    "enugu-electric" = false).
    { apply String.eqb_neq. intros Heq. apply Hother. left. by rewrite Heq. }
    revert Hrun. unfold_engine. simp.
    fold (routes_to_ebills (ElectricityVerifyRequest.provider request)).
    rewrite Hroute. by rewrite Hne.
Qed.

Lemma verify_electricity_errors_are_500_witness :
  (verify_electricity vendors_down eedc_verify_request (ledger 0)).1
    = Raises (HTTPException 500
                "400: Verification Failed: Invalid meter number") ∧
  is_enugu_alias (ElectricityVerifyRequest.provider eedc_verify_request).
Proof.
  assert (Hrun :
    (verify_electricity vendors_down eedc_verify_request (ledger 0)).1
      = Raises (HTTPException 500
                  "400: Verification Failed: Invalid meter number"))
    by (vm_compute; reflexivity).
  split; [exact Hrun|].
  exact (proj1 (verify_electricity_errors_are_500 vendors_down
                  eedc_verify_request (ledger 0) _ Hrun)).
Defined.

(** X9: the verification endpoint and the verification step of an
    electricity purchase agree: for one of the three spellings, the same
    meter number and the same type, the endpoint answers success exactly
    when the purchase would pass its own verification, and then hands back
    the [data] of the eBills reply. *)
Theorem verify_electricity_agrees_with_purchase
    (env : Env) (check : ElectricityVerifyRequest.t)
    (request : ElectricityRequest.t) (w : World) :
  is_enugu_alias (ElectricityVerifyRequest.provider check) →
  ElectricityVerifyRequest.meter_number check
    = ElectricityRequest.meter_number request →
  ElectricityVerifyRequest.type check = ElectricityRequest.type request →
  ((∃ response, (verify_electricity env check w).1 = Returns response)
     ↔ verification_passes env request = true) ∧
  (∀ response,
     (verify_electricity env check w).1 = Returns response →
     ∃ resp,
       ebills_verify_reply env (ElectricityRequest.meter_number request)
         "enugu-electric"
         (ebills_variation_id (ElectricityRequest.type request)) = Returns resp ∧
       dict_get "status" response = Some (VStr "success") ∧
       dict_get "data" response
         = Some (default VNone (EbillsResponse.data resp))).
Proof.
  intros Halias Hmeter Htype.
  rewrite (verify_electricity_run env check w Halias), Hmeter, Htype.
  unfold verification_passes.
  destruct (ebills_verify_reply env _ _ _) as [resp|e'].
  - destruct (eq_str (EbillsResponse.code resp) "success").
    + split; [split; eauto|].
      intros response [= <-]. by exists resp.
    + split; [|intros ? [=]]. split; [intros [? [=]]|intros [=]].
  - split; [|intros ? [=]]. split; [intros [? [=]]|intros [=]].
Qed.

Lemma verify_electricity_agrees_with_purchase_witness :
  (∃ response,
     (verify_electricity vendors_up eedc_verify_request (ledger 0)).1
       = Returns response)
  ↔ verification_passes vendors_up eedc_request = true.
Proof.
  refine (proj1 (verify_electricity_agrees_with_purchase vendors_up
                   eedc_verify_request eedc_request (ledger 0) _ _ _)).
  - right; left. vm_compute. reflexivity.
  - vm_compute. reflexivity.
  - vm_compute. reflexivity.
Defined.

(** X10: an error of the TV purchase endpoint is either the exception of
    [VTUAutomator()], raised as it is and before any vendor call when the
    browser cannot be started, or a status 500 whose detail ends in
    [Your wallet has been refunded.], the 400 response for an empty vendor
    result included; either way no wallet, no transaction record and no
    e-mail was touched.  The endpoint returns only when the browser
    started and the portal handed back a non-empty result, and returns
    that result as the message. *)
Theorem purchase_tv_errors_promise_refund
    (env : Env) (request : TVRequest.t) (w : World) :
  match (purchase_tv env request w).1 with
  | Returns response =>
      sltv_driver env = Returns () ∧
      ∃ message,
        sltv_reply env request = Returns message ∧ truthy message = true ∧
        response = [ ("status", VStr "success"); ("message", message) ]
  | Raises e =>
      match sltv_driver env with
      | Raises e0 =>
          e = e0 ∧
          vendor_calls (purchase_tv env request w).2 = vendor_calls w
      | Returns _ =>
          ∃ reason,
            e = HTTPException 500
                  ("Transaction failed with error: " +:+ reason +:+
                   ". Your wallet has been refunded.") ∧
            match sltv_reply env request with
            | Returns message =>
                truthy message = false ∧
                reason = str_http_exception env 400
                           "Transaction failed. Your wallet has been refunded."
            | Raises e' => reason = str_exn env e'
            end
      end
  end ∧
  wallets (purchase_tv env request w).2 = wallets w ∧
  transactions (purchase_tv env request w).2 = transactions w ∧
  background_tasks (purchase_tv env request w).2 = background_tasks w.
Proof.
  unfold_engine. simp.
  destruct (sltv_driver env) as [[]|e0]; simp; [|done].
  destruct (sltv_reply env request) as [v|e]; simp.
  - destruct (truthy v) eqn:Hv; simp; rewrite ?Hv; eauto 10.
  - eauto 10.
Qed.

(** ** Running automation scripts *)

Lemma bind_run {A B} (m : Script A) (f : A → Script B) (b : Browser) :
  (m ≫= f) b = match m b with
               | (Ok a, b') => f a b'
               | (Throws e, b') => (Throws e, b')
               end.
Proof. reflexivity. Qed.

Lemma bind_ok {A B} (m : Script A) (f : A → Script B) b v b' :
  (m ≫= f) b = (Ok v, b') → ∃ a b1, m b = (Ok a, b1) ∧ f a b1 = (Ok v, b').
Proof. rewrite bind_run. destruct (m b) as [[a|e] b1]; [eauto|done]. Qed.

Lemma try_catch_run {A} (m : Script A) (h : raised → Script A) (b : Browser) :
  try_catch m h b = match m b with
                    | (Ok a, b') => (Ok a, b')
                    | (Throws e, b') => h e b'
                    end.
Proof. reflexivity. Qed.

Lemma returns_only_ret {A} (Φ : A → Prop) (a : A) :
  Φ a → returns_only Φ (mret a : Script A).
Proof. intros H b a' b' [= <- _]. done. Qed.

Lemma returns_only_throw {A} (Φ : A → Prop) e : returns_only Φ (throw (A:=A) e).
Proof. intros b a b' [=]. Qed.

Lemma returns_only_bind {A B} (Φ : B → Prop) (m : Script A) (f : A → Script B) :
  (∀ a, returns_only Φ (f a)) → returns_only Φ (m ≫= f).
Proof. intros H b v b' (a & b1 & _ & Hf)%bind_ok. by eapply H. Qed.

Lemma returns_only_try {A} (Φ : A → Prop) (m : Script A) h :
  returns_only Φ m → (∀ e, returns_only Φ (h e)) → returns_only Φ (try_catch m h).
Proof.
  intros Hm Hh b v b'. rewrite try_catch_run.
  destruct (m b) as [[a|e] b1] eqn:E.
  - intros [= <- <-]. by eapply Hm.
  - by apply Hh.
Qed.

Lemma returns_only_on_timeout {A} (Φ : A → Prop) (h : Script A) e :
  returns_only Φ h → returns_only Φ (on_timeout h e).
Proof. destruct e; [done| |]; intros _; apply returns_only_throw. Qed.

Lemma returns_only_if {A} (Φ : A → Prop) (c : bool) (m1 m2 : Script A) :
  returns_only Φ m1 → returns_only Φ m2 → returns_only Φ (if c then m1 else m2).
Proof. by destruct c. Qed.

Ltac returns_only_tac :=
  repeat first
    [ apply returns_only_bind; intros ?
    | apply returns_only_try; [|intros ?]
    | apply returns_only_on_timeout
    | apply returns_only_if
    | apply returns_only_throw
    | apply returns_only_ret ].

(** *** The retry loop *)

Lemma attempts_two (body : Script value) (b : Browser) :
  ∃ v b', VTUAutomator.attempts 2 body b = (Ok v, b') ∧ two_attempts body b v b'.
Proof.
  cbn [VTUAutomator.attempts]. rewrite try_catch_run.
  destruct (body b) as [[v|e] b1] eqn:E1.
  { eexists _, _. split; [done|]. by constructor. }
  destruct e as [msg|msg|e].
  3: { eexists _, _. split; [done|]. by eapply first_fails. }
  all: rewrite bind_run; cbn [VTUAutomator.set_driver];
    rewrite try_catch_run; fold (drop_driver b1);
    destruct (body (drop_driver b1)) as [[v|e'] b2] eqn:E2;
    [ eexists _, _; split; [done|]; by eapply second_returns
    | destruct e' as [msg'|msg'|e'];
      [ eexists _, _; split; [done|]; by eapply both_crash
      | eexists _, _; split; [done|]; by eapply both_crash
      | eexists _, _; split; [done|]; by eapply second_fails ] ].
Qed.

(** *** What keeps the class attributes *)

Lemma keeps_ret {A} (a : A) : keeps (mret a : Script A).
Proof. done. Qed.

Lemma keeps_throw {A} e : keeps (throw (A:=A) e).
Proof. done. Qed.

Lemma keeps_bind {A B} (m : Script A) (f : A → Script B) :
  keeps m → (∀ a, keeps (f a)) → keeps (m ≫= f).
Proof.
  intros Hm Hf b. rewrite bind_run. specialize (Hm b).
  destruct (m b) as [[a|e] b1]; cbn [snd] in *; [|done].
  destruct (Hf a b1) as [-> ->]. done.
Qed.

Lemma keeps_try {A} (m : Script A) h :
  keeps m → (∀ e, keeps (h e)) → keeps (try_catch m h).
Proof.
  intros Hm Hh b. rewrite try_catch_run. specialize (Hm b).
  destruct (m b) as [[a|e] b1]; cbn [snd] in *; [done|].
  destruct (Hh e b1) as [-> ->]. done.
Qed.

Lemma keeps_on_timeout {A} (h : Script A) e : keeps h → keeps (on_timeout h e).
Proof. destruct e; [done| |]; intros _; apply keeps_throw. Qed.

Lemma keeps_if {A} (c : bool) (m1 m2 : Script A) :
  keeps m1 → keeps m2 → keeps (if c then m1 else m2).
Proof. by destruct c. Qed.

Lemma keeps_send {A} reply s c : keeps (send (A:=A) reply s c).
Proof. done. Qed.

Lemma keeps_driver_do {A} portal reply name c :
  keeps (driver_do (A:=A) portal reply name c).
Proof.
  intros b. unfold driver_do. destruct (_driver b) as [s|] eqn:E; [|done].
  cbn. by rewrite E.
Qed.

Lemma keeps_with_driver {A} (f : nat → Script A) e :
  (∀ s, keeps (f s)) →
  keeps (fun b => match _driver b with
                  | Some s => f s b
                  | None => (Throws e, b)
                  end).
Proof.
  intros H b. cbv beta. destruct (_driver b) as [s|] eqn:E; [|done].
  specialize (H s b). by rewrite E in H.
Qed.

Lemma keeps_with_wait {A} (f : nat → Script A) e :
  (∀ s, keeps (f s)) →
  keeps (fun b => match _wait b with
                  | Some s => f s b
                  | None => (Throws e, b)
                  end).
Proof.
  intros H b. cbv beta. destruct (_wait b) as [s|] eqn:E; [|done].
  specialize (H s b). by rewrite E in H.
Qed.

Ltac keeps_tac :=
  repeat first
    [ match goal with H : _ |- keeps _ => apply H end
    | apply keeps_bind; [|intros ?]
    | apply keeps_try; [|intros ?]
    | apply keeps_on_timeout
    | apply keeps_if
    | apply keeps_throw
    | apply keeps_ret
    | apply keeps_send
    | apply keeps_driver_do
    | apply keeps_with_driver; intros ?
    | apply keeps_with_wait; intros ? ].

Section Keeps.
Variable portal : Portal.
Variables SLTV_USERNAME SLTV_PASSWORD : string.

Lemma keeps_driver_find_element l : keeps (driver_find_element portal l).
Proof. unfold driver_find_element. keeps_tac. Qed.

Lemma keeps_driver_find_elements l : keeps (driver_find_elements portal l).
Proof. unfold driver_find_elements. keeps_tac. Qed.

Lemma keeps_wait_until c : keeps (wait_until portal c).
Proof. unfold wait_until. keeps_tac. Qed.

Lemma keeps_wait_until_all l : keeps (wait_until_all portal l).
Proof. unfold wait_until_all. keeps_tac. Qed.

Lemma keeps_wait_until_alert : keeps (wait_until_alert portal).
Proof. unfold wait_until_alert. keeps_tac. Qed.

Lemma keeps_safe_click e : keeps (VTUAutomator._safe_click portal e).
Proof.
  unfold VTUAutomator._safe_click, driver_execute_script, element_click.
  keeps_tac.
Qed.

Lemma keeps_scan_frames l iframes :
  keeps (VTUAutomator.scan_frames portal l iframes).
Proof.
  induction iframes as [|frame rest IH]; cbn [VTUAutomator.scan_frames].
  - apply keeps_ret.
  - unfold driver_switch_to_frame, driver_switch_to_default_content.
    pose proof keeps_driver_find_elements. keeps_tac.
Qed.

Lemma keeps_switch_to_iframe l :
  keeps (VTUAutomator._switch_to_iframe_with_element portal l).
Proof.
  unfold VTUAutomator._switch_to_iframe_with_element,
    driver_switch_to_default_content.
  pose proof keeps_wait_until_all. pose proof keeps_scan_frames. keeps_tac.
Qed.

Lemma keeps_login u p :
  keeps (VTUAutomator._sltv_login_and_navigate portal u p).
Proof.
  unfold VTUAutomator._sltv_login_and_navigate, driver_get, element_send_keys.
  pose proof keeps_wait_until. pose proof keeps_driver_find_element.
  pose proof keeps_safe_click. keeps_tac.
Qed.

Lemma keeps_search_customer card :
  keeps (VTUAutomator.search_customer portal card).
Proof.
  unfold VTUAutomator.search_customer, driver_execute_script, element_click.
  pose proof keeps_driver_find_element. keeps_tac.
Qed.

Lemma keeps_scrape_details rounds d :
  keeps (VTUAutomator.scrape_details portal rounds d).
Proof.
  revert d. induction rounds as [|i rest IH]; intros d;
    cbn [VTUAutomator.scrape_details]; [apply keeps_ret|].
  unfold VTUAutomator.scrape_detail, element_text.
  pose proof keeps_wait_until. pose proof keeps_driver_find_element.
  keeps_tac.
Qed.
End Keeps.

Section Attempts.
Variable portal : Portal.
Variables SLTV_USERNAME SLTV_PASSWORD : string.

(** A driver that [setup_driver] has set up completely. *)
Lemma ensure_driver_ok b a b' :
  VTUAutomator.ensure_driver portal b = (Ok a, b') →
  is_Some (_driver b') ∧ _wait b' = match _driver b with Some _ => _wait b | None => _driver b' end.
Proof.
  unfold VTUAutomator.ensure_driver. rewrite bind_run.
  cbn [VTUAutomator.get_driver].
  destruct (_driver b) as [s|] eqn:E.
  - intros [= _ <-]. rewrite E. eauto.
  - unfold VTUAutomator.setup_driver. rewrite try_catch_run, bind_run.
    cbn [VTUAutomator.new_session]. rewrite bind_run.
    unfold send at 1.
    destruct (reply_unit portal (history b) (length (history b)) Chrome);
      [|done].
    rewrite bind_run. cbn [VTUAutomator.set_driver]. rewrite bind_run.
    unfold send at 1.
    destruct (reply_unit portal _ _ MaximizeWindow); [|done].
    cbn [VTUAutomator.set_wait]. intros [= _ <-]. cbn. eauto.
Qed.

(** Logging in needs the wait. *)
Lemma login_ok u p b a b' :
  VTUAutomator._sltv_login_and_navigate portal u p b = (Ok a, b') →
  is_Some (_wait b') ∧ _driver b' = _driver b.
Proof.
  intros Hrun.
  pose proof (keeps_login portal u p b) as [Hd Hw]. rewrite Hrun in Hd, Hw.
  cbn [snd] in Hd, Hw. split; [|done]. rewrite Hw.
  revert Hrun. unfold VTUAutomator._sltv_login_and_navigate.
  intros (? & b1 & Hget & Hrest)%bind_ok.
  apply bind_ok in Hrest as (name & b2 & Hwait & _).
  pose proof (keeps_driver_do portal reply_unit "get"
                (Get "https://sltvpro.com/main/lco_login") b) as [_ Hw1].
  unfold driver_get in Hget. rewrite Hget in Hw1. cbn [snd] in Hw1.
  rewrite <- Hw1. unfold wait_until in Hwait.
  destruct (_wait b1); [eauto|done].
Qed.

Lemma open_portal_ok b a b' :
  VTUAutomator.open_portal portal SLTV_USERNAME SLTV_PASSWORD b = (Ok a, b') → is_Some (_driver b') ∧ is_Some (_wait b').
Proof.
  unfold VTUAutomator.open_portal.
  intros (? & b1 & [Hd _]%ensure_driver_ok & Hrest)%bind_ok.
  apply bind_ok in Hrest as (? & b2 & Hcookies & Hlogin).
  apply login_ok in Hlogin as [Hw ->]. split; [|done].
  assert (Hk : keeps (try_catch (driver_delete_all_cookies portal)
                        (fun _ => mret ()))).
  { unfold driver_delete_all_cookies. keeps_tac. }
  destruct (Hk b1) as [Hd2 _]. rewrite Hcookies in Hd2. cbn [snd] in Hd2.
  by rewrite Hd2.
Qed.

(** An attempt that returns has a driver and a wait. *)
Lemma after_open_portal (rest : Script value) b v b' :
  keeps rest →
  (VTUAutomator.open_portal portal SLTV_USERNAME SLTV_PASSWORD;; rest) b
    = (Ok v, b') →
  is_Some (_driver b') ∧ is_Some (_wait b').
Proof.
  intros Hk (? & b1 & [Hd Hw]%open_portal_ok & Hrest)%bind_ok.
  destruct (Hk b1) as [Hd' Hw']. rewrite Hrest in Hd', Hw'.
  cbn [snd] in Hd', Hw'. by rewrite Hd', Hw'.
Qed.

Lemma details_attempt_ok request b v b' :
  VTUAutomator.details_attempt portal SLTV_USERNAME SLTV_PASSWORD request b
    = (Ok v, b') →
  (v = VBool false ∨ ∃ d, v = VDict d) ∧
  is_Some (_driver b') ∧ is_Some (_wait b').
Proof.
  intros Hrun. split.
  - revert b v b' Hrun.
    change (returns_only (fun v => v = VBool false ∨ ∃ d, v = VDict d)
              (VTUAutomator.details_attempt portal SLTV_USERNAME
                 SLTV_PASSWORD request)).
    unfold VTUAutomator.details_attempt. returns_only_tac; eauto.
  - revert Hrun. unfold VTUAutomator.details_attempt.
    apply after_open_portal.
    pose proof (keeps_switch_to_iframe portal).
    pose proof (keeps_search_customer portal).
    pose proof (keeps_scrape_details portal).
    unfold driver_switch_to_default_content. keeps_tac.
Qed.

Lemma purchase_attempt_ok request b v b' :
  VTUAutomator.purchase_attempt portal SLTV_USERNAME SLTV_PASSWORD request b
    = (Ok v, b') →
  (∃ message, v = VStr message) ∧
  is_Some (_driver b') ∧ is_Some (_wait b').
Proof.
  intros Hrun. split.
  - revert b v b' Hrun.
    change (returns_only (fun v => ∃ message, v = VStr message)
              (VTUAutomator.purchase_attempt portal SLTV_USERNAME
                 SLTV_PASSWORD request)).
    unfold VTUAutomator.purchase_attempt. returns_only_tac; eauto.
  - revert Hrun. unfold VTUAutomator.purchase_attempt.
    apply after_open_portal.
    pose proof (keeps_switch_to_iframe portal).
    pose proof (keeps_search_customer portal).
    pose proof (keeps_wait_until portal).
    pose proof (keeps_wait_until_alert portal).
    pose proof (keeps_safe_click portal).
    unfold driver_switch_to_default_content, driver_switch_to_alert_accept,
      element_text.
    keeps_tac.
Qed.

Lemma refresh_attempt_ok request b v b' :
  VTUAutomator.refresh_attempt portal SLTV_USERNAME SLTV_PASSWORD request b
    = (Ok v, b') →
  (∃ message, v = VStr message) ∧
  is_Some (_driver b') ∧ is_Some (_wait b').
Proof.
  intros Hrun. split.
  - revert b v b' Hrun.
    change (returns_only (fun v => ∃ message, v = VStr message)
              (VTUAutomator.refresh_attempt portal SLTV_USERNAME
                 SLTV_PASSWORD request)).
    unfold VTUAutomator.refresh_attempt. returns_only_tac; eauto.
  - revert Hrun. unfold VTUAutomator.refresh_attempt.
    apply after_open_portal.
    pose proof (keeps_switch_to_iframe portal).
    pose proof (keeps_search_customer portal).
    pose proof (keeps_wait_until portal).
    pose proof (keeps_safe_click portal).
    unfold driver_switch_to_default_content, element_text.
    keeps_tac.
Qed.
End Attempts.

(** *** What the three methods return *)

Lemma get_sltv_user_details_returns
    (portal : Portal) (username password : string) (request : TVRequest.t)
    (b : Browser) :
  ∃ v b',
    VTUAutomator.get_sltv_user_details portal username password request b
      = (Ok v, b') ∧
    (v = VBool false ∨
     (∃ d, v = VDict d) ∧ is_Some (_driver b') ∧ is_Some (_wait b')).
Proof.
  unfold VTUAutomator.get_sltv_user_details.
  destruct (attempts_two
              (VTUAutomator.details_attempt portal username password request) b)
    as (v & b' & -> & Hrun).
  exists v, b'. split; [done|].
  destruct Hrun as [? ? H| | ? ? ? ? _ _ H| |]; try (by left);
    apply details_attempt_ok in H as [[->|?] ?]; eauto.
Qed.

Lemma purchase_tv_returns
    (portal : Portal) (username password : string) (request : TVRequest.t)
    (b : Browser) :
  ∃ v b',
    VTUAutomator.purchase_tv portal username password request b = (Ok v, b') ∧
    (v = VBool false ∨
     (∃ message, v = VStr message) ∧
     is_Some (_driver b') ∧ is_Some (_wait b')).
Proof.
  unfold VTUAutomator.purchase_tv.
  destruct (attempts_two
              (VTUAutomator.purchase_attempt portal username password request) b)
    as (v & b' & -> & Hrun).
  exists v, b'. split; [done|].
  destruct Hrun as [? ? H| | ? ? ? ? _ _ H| |]; try (by left);
    apply purchase_attempt_ok in H; eauto.
Qed.

Lemma refresh_tv_returns
    (portal : Portal) (username password : string)
    (request : TVRefreshRequest.t) (b : Browser) :
  ∃ v b',
    VTUAutomator.refresh_tv portal username password request b = (Ok v, b') ∧
    (v = VBool false ∨
     (∃ message, v = VStr message) ∧
     is_Some (_driver b') ∧ is_Some (_wait b')).
Proof.
  unfold VTUAutomator.refresh_tv.
  destruct (attempts_two
              (VTUAutomator.refresh_attempt portal username password request) b)
    as (v & b' & -> & Hrun).
  exists v, b'. split; [done|].
  destruct Hrun as [? ? H| | ? ? ? ? _ _ H| |]; try (by left);
    apply refresh_attempt_ok in H; eauto.
Qed.

(** X11: the three portal methods never raise.  Each returns [False], or
    its result (the dict of details, the message of the portal) and then
    leaves a browser running with its wait. *)
Theorem portal_methods_never_raise
    (portal : Portal) (username password : string) (b : Browser) :
  (∀ request, ∃ v b',
     VTUAutomator.get_sltv_user_details portal username password request b
       = (Ok v, b') ∧
     (v = VBool false ∨
      (∃ d, v = VDict d) ∧ is_Some (_driver b') ∧ is_Some (_wait b'))) ∧
  (∀ request, ∃ v b',
     VTUAutomator.purchase_tv portal username password request b = (Ok v, b') ∧
     (v = VBool false ∨
      (∃ message, v = VStr message) ∧
      is_Some (_driver b') ∧ is_Some (_wait b'))) ∧
  (∀ request, ∃ v b',
     VTUAutomator.refresh_tv portal username password request b = (Ok v, b') ∧
     (v = VBool false ∨
      (∃ message, v = VStr message) ∧
      is_Some (_driver b') ∧ is_Some (_wait b'))).
Proof.
  split; [|split]; intros request.
  - apply get_sltv_user_details_returns.
  - apply purchase_tv_returns.
  - apply refresh_tv_returns.
Qed.

(** *** A set-up that stopped half way *)

(** With a driver but no wait, the login stops at its first wait. *)
Lemma open_portal_half_started (portal : Portal) (username password : string)
    (b : Browser) (s : nat) :
  _driver b = Some s → _wait b = None →
  (∀ h, reply_unit portal h s (Get login_page) = Ok ()) →
  ∃ b', VTUAutomator.open_portal portal username password b
          = (Throws (attribute_error "until"), b') ∧
        _driver b' = Some s ∧ _wait b' = None ∧
        history b' = history b ++ [(s, DeleteAllCookies); (s, Get login_page)].
Proof.
  intros Hd Hw Hget. destruct b as [d w h]. cbn in Hd, Hw. subst d w.
  unfold login_page in Hget.
  unfold VTUAutomator.open_portal, VTUAutomator.ensure_driver,
    VTUAutomator.get_driver, VTUAutomator._sltv_login_and_navigate,
    driver_delete_all_cookies, driver_get, driver_do, wait_until, send,
    try_catch, logged, mbind, Script_bind, mret, Script_ret.
  cbn -[attribute_error].
  destruct (reply_unit portal h s DeleteAllCookies) as [[]|];
    cbn -[attribute_error]; rewrite Hget;
    cbn -[attribute_error]; eexists; (split; [reflexivity|]);
    cbn; by rewrite <- app_assoc.
Qed.

(** A method whose attempt stops on another exception returns [False]
    where the attempt stopped. *)
Lemma attempts_python (n : nat) (body : Script value) (b b' : Browser) (e : exn) :
  body b = (Throws (Python e), b') →
  VTUAutomator.attempts (S n) body b = (Ok (VBool false), b').
Proof. intros H. cbn [VTUAutomator.attempts]. by rewrite try_catch_run, H. Qed.

(** X12: a set-up that stopped between starting Chrome and creating the
    wait is never repaired.  With a driver but no wait, and a login page
    that loads, each of the three methods returns [False] and leaves the
    driver and the missing wait as they were, so every later call does the
    same. *)
Theorem half_started_browser_stays_down
    (portal : Portal) (username password : string) (b : Browser) (s : nat) :
  _driver b = Some s → _wait b = None →
  (∀ h, reply_unit portal h s (Get login_page) = Ok ()) →
  (∀ request, ∃ b',
     VTUAutomator.get_sltv_user_details portal username password request b
       = (Ok (VBool false), b') ∧
     _driver b' = Some s ∧ _wait b' = None) ∧
  (∀ request, ∃ b',
     VTUAutomator.purchase_tv portal username password request b
       = (Ok (VBool false), b') ∧
     _driver b' = Some s ∧ _wait b' = None) ∧
  (∀ request, ∃ b',
     VTUAutomator.refresh_tv portal username password request b
       = (Ok (VBool false), b') ∧
     _driver b' = Some s ∧ _wait b' = None).
Proof.
  intros Hd Hw Hget.
  destruct (open_portal_half_started portal username password b s Hd Hw Hget)
    as (b' & Hopen & Hd' & Hw' & _).
  split; [|split]; intros request; exists b'; (split; [|done]);
    eapply attempts_python;
    [ unfold VTUAutomator.details_attempt
    | unfold VTUAutomator.purchase_attempt
    | unfold VTUAutomator.refresh_attempt ];
    rewrite bind_run, Hopen; unfold attribute_error; reflexivity.
Qed.

Lemma half_started_browser_stays_down_witness :
  let b := (VTUAutomator.init portal_no_window no_browser).2 in
  _driver b = Some 0%nat ∧ _wait b = None ∧
  ∃ b',
    VTUAutomator.purchase_tv portal_no_window "lco" "secret" tv_request b
      = (Ok (VBool false), b') ∧
    _driver b' = Some 0%nat ∧ _wait b' = None.
Proof.
  intros b.
  assert (Hd : _driver b = Some 0%nat) by (vm_compute; reflexivity).
  assert (Hw : _wait b = None) by (vm_compute; reflexivity).
  split; [exact Hd|]. split; [exact Hw|].
  exact (proj1 (proj2 (half_started_browser_stays_down portal_no_window
                         "lco" "secret" b 0 Hd Hw (fun _ => eq_refl)))
           tv_request).
Defined.

(** *** The TV endpoints *)

Lemma init_run (portal : Portal) (b : Browser) :
  (∃ b', VTUAutomator.init portal b = (Ok (), b')) ∨
  (∃ e b', VTUAutomator.init portal b = (Throws e, b') ∧
           _driver b = None ∧
           (VTUAutomator.setup_driver portal b).1 = Throws e).
Proof.
  unfold VTUAutomator.init, VTUAutomator.ensure_driver.
  rewrite bind_run. cbn [VTUAutomator.get_driver].
  destruct (_driver b) as [s|] eqn:E; [left; by eexists|].
  destruct (VTUAutomator.setup_driver portal b) as [[[]|e] b'] eqn:E';
    [left; by eexists|right]. by exists e, b'.
Qed.

(** X13: the details endpoint answers success with a non-empty dict of
    details or raises.  The 404 response for missing details reaches the
    caller as the detail of a status 500; the only other exception is the
    one of a browser that could not be started when the automator was
    constructed, which is not converted. *)
Theorem get_tv_details_outcome
    (env : Env) (portal : Portal) (username password : string)
    (request : TVRequest.t) (b : Browser) :
  match (get_tv_details env portal username password request b).1 with
  | Ok response =>
      ∃ d, d ≠ [] ∧
           response = [ ("status", VStr "success"); ("data", VDict d) ]
  | Throws e =>
      e = Python (HTTPException 500
            (str_http_exception env 404
               "Could not retrieve details. Please check smart card number."))
      ∨ (_driver b = None ∧ (VTUAutomator.setup_driver portal b).1 = Throws e)
  end.
Proof.
  unfold get_tv_details. rewrite bind_run.
  destruct (init_run portal b) as [[b1 ->]|(e & b1 & -> & ? & ?)];
    [|by right].
  rewrite try_catch_run, bind_run.
  destruct (get_sltv_user_details_returns portal username password request b1)
    as (v & b2 & -> & [->|[[d ->] _]]).
  - by left.
  - destruct d as [|entry d]; [by left|]. cbn. by exists (entry :: d).
Qed.

(** X14: the refresh endpoint answers success with the non-empty message
    of the portal or raises.  The 400 response [Refresh failed.] reaches
    the caller as the detail of a status 500; the only other exception is
    the one of a browser that could not be started when the automator was
    constructed. *)
Theorem refresh_tv_outcome
    (env : Env) (portal : Portal) (username password : string)
    (request : TVRefreshRequest.t) (b : Browser) :
  match (refresh_tv env portal username password request b).1 with
  | Ok response =>
      ∃ message, message ≠ "" ∧
        response = [ ("status", VStr "success"); ("message", VStr message) ]
  | Throws e =>
      e = Python (HTTPException 500 (str_http_exception env 400 "Refresh failed."))
      ∨ (_driver b = None ∧ (VTUAutomator.setup_driver portal b).1 = Throws e)
  end.
Proof.
  unfold refresh_tv. rewrite bind_run.
  destruct (init_run portal b) as [[b1 ->]|(e & b1 & -> & ? & ?)];
    [|by right].
  rewrite try_catch_run, bind_run.
  destruct (refresh_tv_returns portal username password request b1)
    as (v & b2 & -> & [->|[[message ->] _]]).
  - by left.
  - cbn [truthy]. destruct (String.eqb_spec message "") as [->|Hne].
    + by left.
    + cbn. by exists message.
Qed.

(** ** Stripping and splitting *)

Lemma lstrip_app_stop (a b : string) (c : ascii) :
  isspace c = false → lstrip (a +:+ String c b) = lstrip a +:+ String c b.
Proof.
  intros Hc. induction a as [|x a IH]; cbn [lstrip String.append].
  - change (lstrip (String c b) = String c b). cbn [lstrip]. by rewrite Hc.
  - change (lstrip (String x (a +:+ String c b))
            = (if isspace x then lstrip a else String x a) +:+ String c b).
    cbn [lstrip]. destruct (isspace x); [exact IH|done].
Qed.

Lemma rstrip_cons (c : ascii) (s : string) :
  isspace c = false → rstrip (String c s) = String c (rstrip s).
Proof. intros Hc. cbn [rstrip]. rewrite Hc. by destruct (rstrip s). Qed.

Lemma rstrip_app_stop (a b : string) (c : ascii) :
  isspace c = false → rstrip (a +:+ String c b) = a +:+ String c (rstrip b).
Proof.
  intros Hc. induction a as [|x a IH].
  - change (rstrip (String c b) = String c (rstrip b)). by apply rstrip_cons.
  - change (rstrip (String x (a +:+ String c b))
            = String x (a +:+ String c (rstrip b))).
    cbn [rstrip]. rewrite IH. by destruct a.
Qed.

Lemma lstrip_idem (s : string) : lstrip (lstrip s) = lstrip s.
Proof.
  induction s as [|c s IH]; [done|]. cbn [lstrip].
  destruct (isspace c) eqn:Hc; [done|]. cbn [lstrip]. by rewrite Hc.
Qed.

Lemma rstrip_idem (s : string) : rstrip (rstrip s) = rstrip s.
Proof.
  induction s as [|c s IH]; [done|]. cbn [rstrip].
  destruct (rstrip s) as [|y r] eqn:Hr.
  - destruct (isspace c) eqn:Hc; [done|]. cbn [rstrip]. by rewrite Hc.
  - cbn [rstrip]. cbn [rstrip] in IH. by rewrite IH.
Qed.

Lemma lstrip_rstrip (s : string) : lstrip (rstrip s) = rstrip (lstrip s).
Proof.
  induction s as [|c s IH]; [done|].
  destruct (isspace c) eqn:Hc.
  - cbn [lstrip rstrip]. rewrite Hc, <- IH.
    destruct (rstrip s); [done|]. cbn [lstrip]. by rewrite Hc.
  - rewrite rstrip_cons by done. cbn [lstrip]. rewrite Hc.
    by rewrite rstrip_cons.
Qed.

Lemma strip_idem (s : string) : strip (strip s) = strip s.
Proof.
  unfold strip.
  by rewrite (lstrip_rstrip (lstrip s)), lstrip_idem, rstrip_idem.
Qed.

Lemma strip_lstrip (s : string) : strip (lstrip s) = strip s.
Proof. unfold strip. by rewrite lstrip_idem. Qed.

Lemma strip_rstrip (s : string) : strip (rstrip s) = strip s.
Proof. unfold strip. by rewrite lstrip_rstrip, rstrip_idem. Qed.

Lemma contains_app (c : ascii) (a b : string) :
  contains c (a +:+ b) = contains c a || contains c b.
Proof.
  induction a as [|x a IH]; [done|].
  change (contains c (String x (a +:+ b))
          = contains c (String x a) || contains c b).
  cbn [contains]. rewrite IH. by rewrite orb_assoc.
Qed.

Lemma contains_lstrip (c : ascii) (s : string) :
  isspace c = false → contains c (lstrip s) = contains c s.
Proof.
  intros Hc. induction s as [|x s IH]; [done|]. cbn [lstrip].
  destruct (isspace x) eqn:Hx; [|done]. cbn [contains]. rewrite IH.
  destruct (Ascii.eqb_spec c x) as [->|]; [congruence|done].
Qed.

Lemma contains_rstrip (c : ascii) (s : string) :
  isspace c = false → contains c (rstrip s) = contains c s.
Proof.
  intros Hc. induction s as [|x s IH]; [done|]. cbn [rstrip contains].
  rewrite <- IH. destruct (rstrip s) as [|y r]; [|done].
  destruct (isspace x) eqn:Hx; cbn [contains]; [|done].
  destruct (Ascii.eqb_spec c x) as [->|]; [congruence|done].
Qed.

Lemma contains_strip (c : ascii) (s : string) :
  isspace c = false → contains c (strip s) = contains c s.
Proof.
  intros Hc. unfold strip. by rewrite contains_rstrip, contains_lstrip.
Qed.

Lemma split1_app (sep : ascii) (a b : string) :
  contains sep a = false → split1 sep (a +:+ String sep b) = [a; b].
Proof.
  induction a as [|x a IH]; intros Ha.
  - change (split1 sep (String sep b) = [EmptyString; b]).
    cbn [split1]. by rewrite Ascii.eqb_refl.
  - change (split1 sep (String x (a +:+ String sep b)) = [String x a; b]).
    cbn [contains] in Ha. apply orb_false_iff in Ha as [Hx Ha].
    cbn [split1]. rewrite Ascii.eqb_sym, Hx, IH by done. done.
Qed.

(** The stripped text of a line with a colon. *)
Lemma strip_colon (k v : string) :
  strip (k +:+ String ":" v) = lstrip k +:+ String ":" (rstrip v).
Proof.
  unfold strip. rewrite lstrip_app_stop by done.
  by rewrite rstrip_app_stop.
Qed.

(** X15: a line of the form [key:value] is cut at its first colon: the
    text before it, stripped and normalised, is the key, and everything
    after it, later colons included, is stored stripped as the value. *)
Theorem store_detail_cuts_at_first_colon
    (i : nat) (k v : string) (user_details : dict) :
  contains ":" k = false →
  store_detail i (strip (k +:+ ":" +:+ v)) user_details
    = dict_set (normalize_key (strip k)) (VStr (strip v)) user_details.
Proof.
  intros Hk. change (":" +:+ v) with (String ":" v).
  rewrite strip_colon. unfold store_detail.
  rewrite contains_app. cbn [contains]. rewrite Ascii.eqb_refl, orb_true_r.
  rewrite split1_app by (by rewrite contains_lstrip).
  cbn [nth length Nat.ltb Nat.leb]. by rewrite strip_lstrip, strip_rstrip.
Qed.

Lemma store_detail_cuts_at_first_colon_witness :
  contains ":" "  Smart Card No." = false ∧
  store_detail 2 (strip ("  Smart Card No." +:+ ":" +:+
                         (line_feed +:+ "2029 : 11 " +:+ line_feed))) []
    = [("smart_card_no", VStr "2029 : 11")].
Proof.
  split; [reflexivity|].
  exact (store_detail_cuts_at_first_colon 2 "  Smart Card No."
           (line_feed +:+ "2029 : 11 " +:+ line_feed) [] eq_refl).
Defined.

Lemma returns_only_bind_with {A B} (Ψ : A → Prop) (Φ : B → Prop)
    (m : Script A) (f : A → Script B) :
  returns_only Ψ m → (∀ a, Ψ a → returns_only Φ (f a)) →
  returns_only Φ (m ≫= f).
Proof.
  intros Hm Hf b v b' (a & b1 & Ha & Hv)%bind_ok.
  eapply Hf; [by eapply Hm|done].
Qed.

(** ** Normalised keys *)

Lemma key_ok_app (a b : string) : key_ok (a +:+ b) = key_ok a && key_ok b.
Proof.
  induction a as [|c a IH]; [done|].
  change (key_ok (String c (a +:+ b)) = key_ok (String c a) && key_ok b).
  cbn [key_ok]. by rewrite IH, andb_assoc.
Qed.

Lemma key_char_lower (c : ascii) :
  Ascii.eqb (lower_ascii c) " " = false →
  Ascii.eqb (lower_ascii c) "." = false →
  key_char (lower_ascii c) = true.
Proof. destruct c as [[] [] [] [] [] [] [] []]; vm_compute; congruence. Qed.

Lemma normalize_key_cons (c : ascii) (s : string) :
  normalize_key (String c s)
    = (if Ascii.eqb (lower_ascii c) " " then "_"
       else if Ascii.eqb (lower_ascii c) "." then ""
       else String (lower_ascii c) "") +:+ normalize_key s.
Proof.
  unfold normalize_key. cbn [lower replace].
  destruct (Ascii.eqb (lower_ascii c) " ") eqn:Hs.
  - change ("_" +:+ replace " " "_" (lower s))
      with (String "_" (replace " " "_" (lower s))).
    done.
  - cbn [replace]. by destruct (Ascii.eqb (lower_ascii c) ".").
Qed.

Lemma key_ok_normalize (s : string) : key_ok (normalize_key s) = true.
Proof.
  induction s as [|c s IH]; [done|].
  rewrite normalize_key_cons, key_ok_app, IH, andb_true_r.
  destruct (Ascii.eqb (lower_ascii c) " ") eqn:Hs; [done|].
  destruct (Ascii.eqb (lower_ascii c) ".") eqn:Hd; [done|].
  cbn [key_ok]. by rewrite key_char_lower.
Qed.

(** ** The dict of details *)

Lemma dict_set_keys (k : string) (v : value) (d : dict) :
  ((dict_set k v d).*1 = d.*1) ∨
  ((k ∉ d.*1) ∧ (dict_set k v d).*1 = d.*1 ++ [k]).
Proof.
  induction d as [|[k' v'] d IH]; cbn [dict_set].
  - right. split; [apply not_elem_of_nil|done].
  - destruct (String.eqb_spec k k') as [->|Hne]; [by left|].
    cbn [fmap list_fmap fst]. destruct IH as [->|[Hk ->]]; [by left|right].
    split; [|done]. rewrite not_elem_of_cons. done.
Qed.

Lemma dict_set_ok (n : nat) (k : string) (s : string) (d : dict) :
  key_ok k = true → strip s = s →
  details_ok n d → details_ok (S n) (dict_set k (VStr s) d).
Proof.
  intros Hk Hs (Hlen & Hdup & Hall). split; [|split].
  - pose proof (dict_set_keys k (VStr s) d) as Hkeys.
    apply (f_equal length) in Hkeys || idtac.
    assert (length (dict_set k (VStr s) d) ≤ S (length d))%nat; [|lia].
    clear. induction d as [|[k' v'] d IH]; cbn [dict_set length]; [lia|].
    destruct (String.eqb k k'); cbn [length]; lia.
  - destruct (dict_set_keys k (VStr s) d) as [->|[Hnew ->]]; [done|].
    apply NoDup_app. split; [done|]. split; [|apply NoDup_singleton].
    intros x Hx ->%list_elem_of_singleton. done.
  - clear Hlen Hdup. induction Hall as [|[k' v'] d Hentry Hall IH];
      cbn [dict_set].
    + constructor; [|constructor]. split; [done|]. by exists s.
    + destruct (String.eqb_spec k k') as [->|Hne].
      * constructor; [|done]. split; [done|]. by exists s.
      * by constructor.
Qed.

Lemma store_detail_ok (n i : nat) (text : string) (d : dict) :
  (1 ≤ i ≤ 5)%nat →
  details_ok n d → details_ok (S n) (store_detail i (strip text) d).
Proof.
  intros Hi Hd. unfold store_detail.
  destruct (contains ":" (strip text)).
  - apply dict_set_ok; [apply key_ok_normalize| |done].
    destruct (Nat.ltb _ _); [apply strip_idem|done].
  - apply dict_set_ok; [|apply strip_idem|done].
    assert (i = 1 ∨ i = 2 ∨ i = 3 ∨ i = 4 ∨ i = 5)%nat as Hcases by lia.
    destruct Hcases as [->|[->|[->|[->| ->]]]]; vm_compute; reflexivity.
Qed.

Section Details.
Variable portal : Portal.
Variables SLTV_USERNAME SLTV_PASSWORD : string.

Lemma scrape_detail_ok (n i : nat) (d : dict) :
  (1 ≤ i ≤ 5)%nat → details_ok n d →
  returns_only (details_ok (S n)) (VTUAutomator.scrape_detail portal i d).
Proof.
  intros Hi Hd.
  assert (Hweak : details_ok (S n) d).
  { destruct Hd as (? & ? & ?). split; [lia|done]. }
  unfold VTUAutomator.scrape_detail. returns_only_tac; [|done].
  by apply store_detail_ok.
Qed.

Lemma scrape_details_ok (rounds : list nat) (n : nat) (d : dict) :
  Forall (fun i => 1 ≤ i ≤ 5)%nat rounds → details_ok n d →
  returns_only (details_ok (n + length rounds))
    (VTUAutomator.scrape_details portal rounds d).
Proof.
  intros Hrounds. revert n d.
  induction Hrounds as [|i rounds Hi Hrounds IH]; intros n d Hd;
    cbn [VTUAutomator.scrape_details length].
  - apply returns_only_ret. by rewrite Nat.add_0_r.
  - eapply returns_only_bind_with; [by apply scrape_detail_ok|].
    intros d' Hd'. replace (n + S (length rounds))%nat
      with (S n + length rounds)%nat by lia.
    by apply IH.
Qed.

Lemma details_attempt_details (request : TVRequest.t) :
  returns_only (fun v => ∀ d, v = VDict d → details_ok 5 d)
    (VTUAutomator.details_attempt portal SLTV_USERNAME SLTV_PASSWORD request).
Proof.
  unfold VTUAutomator.details_attempt.
  apply returns_only_bind; intros _.
  apply returns_only_bind; intros found.
  apply returns_only_if; [|by apply returns_only_ret].
  apply returns_only_bind; intros _.
  eapply returns_only_bind_with.
  { apply (scrape_details_ok (seq 1 5) 0 []).
    - repeat constructor.
    - split; [done|]. split; [apply NoDup_nil_2|constructor]. }
  intros d Hd. apply returns_only_bind; intros _.
  apply returns_only_ret. by intros ? [= <-].
Qed.
End Details.

(** X16: the details [get_sltv_user_details] hands back are a dict of at
    most five entries with pairwise distinct keys; every key is free of
    spaces, dots and ASCII capitals, and every value is a string without
    white space at its ends. *)
Theorem scraped_details_are_normalised
    (portal : Portal) (username password : string) (request : TVRequest.t)
    (b b' : Browser) (d : dict) :
  VTUAutomator.get_sltv_user_details portal username password request b
    = (Ok (VDict d), b') →
  (length d ≤ 5)%nat ∧ NoDup d.*1 ∧ Forall detail_entry d.
Proof.
  unfold VTUAutomator.get_sltv_user_details.
  destruct (attempts_two
              (VTUAutomator.details_attempt portal username password request) b)
    as (v & b2 & -> & Hrun).
  intros [= -> ->].
  inversion Hrun as [? ? H| | ? ? ? ? ? ? H| |]; subst;
    exact (details_attempt_details portal username password request
             _ _ _ H d eq_refl).
Qed.

Lemma scraped_details_are_normalised_witness :
  (VTUAutomator.get_sltv_user_details portal_up "lco" "secret" tv_request
     no_browser).1 = Ok (VDict [("status", VStr "Active")]) ∧
  (length [("status", VStr "Active")] ≤ 5)%nat ∧
  NoDup [("status", VStr "Active")].*1 ∧
  Forall detail_entry [("status", VStr "Active")].
Proof.
  assert (Hrun :
    VTUAutomator.get_sltv_user_details portal_up "lco" "secret" tv_request
      no_browser
    = (Ok (VDict [("status", VStr "Active")]),
       (VTUAutomator.get_sltv_user_details portal_up "lco" "secret" tv_request
          no_browser).2)) by (vm_compute; reflexivity).
  split; [by rewrite Hrun|].
  exact (scraped_details_are_normalised portal_up "lco" "secret" tv_request
           no_browser _ _ Hrun).
Defined.

(** ** Counting commands *)

Lemma sent_app p h1 h2 : sent p (h1 ++ h2) = (sent p h1 + sent p h2)%nat.
Proof. unfold sent. by rewrite List.filter_app, length_app. Qed.

Lemma at_most_ret {A} n p (a : A) : at_most n p (mret a : Script A).
Proof. intros b. exists []. split; [by rewrite app_nil_r|cbn; lia]. Qed.

Lemma at_most_throw {A} n p e : at_most n p (throw (A:=A) e).
Proof. intros b. exists []. split; [by rewrite app_nil_r|cbn; lia]. Qed.

Lemma at_most_weaken {A} n n' p (m : Script A) :
  (n ≤ n')%nat → at_most n p m → at_most n' p m.
Proof.
  intros Hn Hm b. destruct (Hm b) as (added & ? & ?).
  exists added. split; [done|lia].
Qed.

Lemma at_most_bind {A B} n1 n2 p (m : Script A) (f : A → Script B) :
  at_most n1 p m → (∀ a, at_most n2 p (f a)) → at_most (n1 + n2) p (m ≫= f).
Proof.
  intros Hm Hf b. rewrite bind_run. destruct (Hm b) as (added & Hh & Hn).
  destruct (m b) as [[a|e] b1]; cbn [snd] in *.
  - destruct (Hf a b1) as (added' & Hh' & Hn').
    exists (added ++ added'). rewrite Hh', Hh, app_assoc, sent_app.
    split; [done|lia].
  - exists added. split; [done|lia].
Qed.

Lemma at_most_try {A} n1 n2 p (m : Script A) h :
  at_most n1 p m → (∀ e, at_most n2 p (h e)) →
  at_most (n1 + n2) p (try_catch m h).
Proof.
  intros Hm Hh b. rewrite try_catch_run. destruct (Hm b) as (added & Hb & Hn).
  destruct (m b) as [[a|e] b1]; cbn [snd] in *.
  - exists added. split; [done|lia].
  - destruct (Hh e b1) as (added' & Hb' & Hn').
    exists (added ++ added'). rewrite Hb', Hb, app_assoc, sent_app.
    split; [done|lia].
Qed.

Lemma free_ret {A} p (a : A) : free p (mret a : Script A).
Proof. apply at_most_ret. Qed.

Lemma free_throw {A} p e : free p (throw (A:=A) e).
Proof. apply at_most_throw. Qed.

Lemma free_bind {A B} p (m : Script A) (f : A → Script B) :
  free p m → (∀ a, free p (f a)) → free p (m ≫= f).
Proof. intros Hm Hf. by apply (at_most_bind 0 0). Qed.

Lemma free_try {A} p (m : Script A) h :
  free p m → (∀ e, free p (h e)) → free p (try_catch m h).
Proof. intros Hm Hh. by apply (at_most_try 0 0). Qed.

Lemma free_on_timeout {A} p (h : Script A) e : free p h → free p (on_timeout h e).
Proof. destruct e; [done| |]; intros _; apply free_throw. Qed.

Lemma free_if {A} p (c : bool) (m1 m2 : Script A) :
  free p m1 → free p m2 → free p (if c then m1 else m2).
Proof. by destruct c. Qed.

Lemma at_most_send {A} p reply s c : at_most 1 p (send (A:=A) reply s c).
Proof.
  intros b. exists [(s, c)]. split; [done|].
  unfold sent. cbn [List.filter snd]. destruct (p c); cbn; lia.
Qed.

Lemma free_send {A} p reply s c : p c = false → free p (send (A:=A) reply s c).
Proof.
  intros Hc b. exists [(s, c)]. split; [done|].
  unfold sent. cbn [List.filter snd]. by rewrite Hc.
Qed.

Lemma at_most_with_driver {A} n p (f : nat → Script A) e :
  (∀ s, at_most n p (f s)) →
  at_most n p (fun b => match _driver b with
                        | Some s => f s b
                        | None => (Throws e, b)
                        end).
Proof.
  intros H b. cbv beta. destruct (_driver b); [apply H|].
  exists []. split; [by rewrite app_nil_r|cbn; lia].
Qed.

Lemma at_most_with_wait {A} n p (f : nat → Script A) e :
  (∀ s, at_most n p (f s)) →
  at_most n p (fun b => match _wait b with
                        | Some s => f s b
                        | None => (Throws e, b)
                        end).
Proof.
  intros H b. cbv beta. destruct (_wait b); [apply H|].
  exists []. split; [by rewrite app_nil_r|cbn; lia].
Qed.

Lemma free_with_driver {A} p (f : nat → Script A) e :
  (∀ s, free p (f s)) →
  free p (fun b => match _driver b with
                   | Some s => f s b
                   | None => (Throws e, b)
                   end).
Proof. apply at_most_with_driver. Qed.

Lemma free_with_wait {A} p (f : nat → Script A) e :
  (∀ s, free p (f s)) →
  free p (fun b => match _wait b with
                   | Some s => f s b
                   | None => (Throws e, b)
                   end).
Proof. apply at_most_with_wait. Qed.

Lemma free_driver_do {A} p portal reply name c :
  p c = false → free p (driver_do (A:=A) portal reply name c).
Proof.
  intros Hc. unfold driver_do. apply free_with_driver. intros s.
  by apply free_send.
Qed.

Lemma selective_false p c :
  selective p →
  match c with
  | Chrome | Get _ | Until (presence_of_element_located _) => False
  | _ => True
  end → p c = false.
Proof.
  intros Hp. specialize (Hp c).
  destruct c as [| | | |[]| | | | | | | | |]; done.
Qed.

Ltac side_condition :=
  first [ reflexivity
        | apply selective_false; [assumption|exact I] ].

Ltac free_tac :=
  repeat first
    [ match goal with H : _ |- free _ _ => apply H end
    | apply free_bind; [|intros ?]
    | apply free_try; [|intros ?]
    | apply free_on_timeout
    | apply free_if
    | apply free_throw
    | apply free_ret
    | apply free_send; side_condition
    | apply free_driver_do; side_condition
    | apply free_with_driver; intros ?
    | apply free_with_wait; intros ?
    | match goal with
      | |- free _ (match ?d with Some _ => _ | None => _ end) => destruct d
      end ].

Section Free.
Variable portal : Portal.
Variable p : command → bool.
Hypothesis p_selective : selective p.

Lemma free_driver_find_element l : free p (driver_find_element portal l).
Proof. unfold driver_find_element. free_tac. Qed.

Lemma free_driver_find_elements l : free p (driver_find_elements portal l).
Proof. unfold driver_find_elements. free_tac. Qed.

Lemma free_wait_until_all l : free p (wait_until_all portal l).
Proof. unfold wait_until_all. free_tac. Qed.

Lemma free_wait_until_alert : free p (wait_until_alert portal).
Proof. unfold wait_until_alert. free_tac. Qed.

Lemma free_wait_until_visible l :
  free p (wait_until portal (visibility_of_element_located l)).
Proof. unfold wait_until. free_tac. Qed.

Lemma free_wait_until_clickable l :
  free p (wait_until portal (element_to_be_clickable l)).
Proof. unfold wait_until. free_tac. Qed.

Lemma free_safe_click e : free p (VTUAutomator._safe_click portal e).
Proof.
  unfold VTUAutomator._safe_click, driver_execute_script, element_click.
  free_tac.
Qed.

Lemma free_scan_frames l iframes :
  free p (VTUAutomator.scan_frames portal l iframes).
Proof.
  induction iframes as [|frame rest IH]; cbn [VTUAutomator.scan_frames].
  - apply free_ret.
  - unfold driver_switch_to_frame, driver_switch_to_default_content.
    pose proof free_driver_find_elements. free_tac.
Qed.

Lemma free_switch_to_iframe l :
  free p (VTUAutomator._switch_to_iframe_with_element portal l).
Proof.
  unfold VTUAutomator._switch_to_iframe_with_element,
    driver_switch_to_default_content.
  pose proof free_wait_until_all. pose proof free_scan_frames. free_tac.
Qed.

Lemma free_search_customer card :
  free p (VTUAutomator.search_customer portal card).
Proof.
  unfold VTUAutomator.search_customer, driver_execute_script, element_click.
  pose proof free_driver_find_element. free_tac.
Qed.

Lemma free_scrape_details rounds d :
  free p (VTUAutomator.scrape_details portal rounds d).
Proof.
  revert d. induction rounds as [|i rest IH]; intros d;
    cbn [VTUAutomator.scrape_details]; [apply free_ret|].
  unfold VTUAutomator.scrape_detail, element_text.
  pose proof free_wait_until_visible. pose proof free_driver_find_element.
  free_tac.
Qed.
End Free.

Lemma at_most_free {A} n p (m : Script A) : free p m → at_most n p m.
Proof. apply at_most_weaken. lia. Qed.

Lemma at_most_bind_l {A B} n p (m : Script A) (f : A → Script B) :
  at_most n p m → (∀ a, free p (f a)) → at_most n p (m ≫= f).
Proof.
  intros Hm Hf. apply (at_most_weaken (n + 0)); [lia|]. by apply at_most_bind.
Qed.

Lemma at_most_bind_r {A B} n p (m : Script A) (f : A → Script B) :
  free p m → (∀ a, at_most n p (f a)) → at_most n p (m ≫= f).
Proof. intros Hm Hf. by apply (at_most_bind 0 n). Qed.

Lemma at_most_try_l {A} n p (m : Script A) h :
  at_most n p m → (∀ e, free p (h e)) → at_most n p (try_catch m h).
Proof.
  intros Hm Hh. apply (at_most_weaken (n + 0)); [lia|]. by apply at_most_try.
Qed.

Lemma at_most_if {A} n p (c : bool) (m1 m2 : Script A) :
  at_most n p m1 → at_most n p m2 → at_most n p (if c then m1 else m2).
Proof. by destruct c. Qed.

(** The loop sends at most as often as its passes do together. *)
Lemma at_most_attempts n k p (body : Script value) :
  at_most k p body → at_most (n * k) p (VTUAutomator.attempts n body).
Proof.
  intros Hbody. induction n as [|n IH]; cbn [VTUAutomator.attempts].
  - apply at_most_ret.
  - apply (at_most_weaken (k + n * k)); [lia|].
    apply at_most_try; [done|]. intros [msg|msg|e].
    + apply at_most_bind_r; [|done]. intros b. exists [].
      split; [by rewrite app_nil_r|done].
    + apply at_most_bind_r; [|done]. intros b. exists [].
      split; [by rewrite app_nil_r|done].
    + apply at_most_ret.
Qed.

Ltac at_most_tac :=
  repeat first
    [ apply at_most_bind_r; [solve [free_tac]|intros ?]
    | apply at_most_bind_l; [|intros ?; solve [free_tac]]
    | apply at_most_try_l; [|intros ?; solve [free_tac]]
    | apply at_most_if
    | apply at_most_with_driver; intros ?
    | apply at_most_with_wait; intros ?
    | apply at_most_send
    | solve [apply at_most_free; free_tac] ].

Section Passes.
Variable portal : Portal.
Variables SLTV_USERNAME SLTV_PASSWORD : string.

Ltac helpers p Hp :=
  pose proof (free_switch_to_iframe portal p Hp);
  pose proof (free_search_customer portal p Hp);
  pose proof (free_scrape_details portal p Hp);
  pose proof (free_safe_click portal p Hp);
  pose proof (free_wait_until_visible portal p Hp);
  pose proof (free_wait_until_clickable portal p Hp);
  pose proof (free_wait_until_alert portal p Hp);
  pose proof (free_driver_find_element portal p Hp).

Ltac unfold_portal :=
  unfold VTUAutomator.open_portal, VTUAutomator.ensure_driver,
    VTUAutomator.setup_driver, VTUAutomator._sltv_login_and_navigate,
    VTUAutomator.get_driver, VTUAutomator.set_driver, VTUAutomator.set_wait,
    VTUAutomator.new_session,
    driver_get, driver_delete_all_cookies, driver_switch_to_default_content,
    driver_switch_to_alert_accept, element_send_keys, element_text.

Lemma selective_is_chrome : selective is_chrome.
Proof. by intros [| | | |[]| | | | | | | | |]. Qed.

Lemma selective_is_get : selective is_get.
Proof. by intros [| | | |[]| | | | | | | | |]. Qed.

Lemma selective_is_recharge_lookup : selective is_recharge_lookup.
Proof. by intros [| | | |[]| | | | | | | | |]. Qed.

Lemma free_get_driver p : free p VTUAutomator.get_driver.
Proof. intros b. exists []. split; [by rewrite app_nil_r|done]. Qed.

Lemma free_set_driver p d : free p (VTUAutomator.set_driver d).
Proof. intros b. exists []. split; [by rewrite app_nil_r|done]. Qed.

Lemma free_set_wait p w : free p (VTUAutomator.set_wait w).
Proof. intros b. exists []. split; [by rewrite app_nil_r|done]. Qed.

Lemma free_new_session p : free p VTUAutomator.new_session.
Proof. intros b. exists []. split; [by rewrite app_nil_r|done]. Qed.

Ltac count p Hp :=
  helpers p Hp;
  pose proof (free_get_driver p); pose proof (free_set_driver p);
  pose proof (free_set_wait p); pose proof (free_new_session p);
  unfold VTUAutomator.details_attempt, VTUAutomator.purchase_attempt,
    VTUAutomator.refresh_attempt;
  unfold VTUAutomator.open_portal, VTUAutomator.ensure_driver,
    VTUAutomator.setup_driver, VTUAutomator._sltv_login_and_navigate,
    driver_get, driver_delete_all_cookies, driver_switch_to_default_content,
    driver_switch_to_alert_accept, element_send_keys, element_text;
  repeat first
    [ match goal with
      | |- at_most _ _ (match ?d with Some _ => _ | None => _ end) => destruct d
      end
    | progress at_most_tac ].

Lemma details_attempt_once (request : TVRequest.t) :
  at_most 1 is_chrome
    (VTUAutomator.details_attempt portal SLTV_USERNAME SLTV_PASSWORD request) ∧
  at_most 1 is_get
    (VTUAutomator.details_attempt portal SLTV_USERNAME SLTV_PASSWORD request).
Proof.
  split.
  - count is_chrome selective_is_chrome.
  - count is_get selective_is_get.
Qed.

Lemma refresh_attempt_once (request : TVRefreshRequest.t) :
  at_most 1 is_chrome
    (VTUAutomator.refresh_attempt portal SLTV_USERNAME SLTV_PASSWORD request) ∧
  at_most 1 is_get
    (VTUAutomator.refresh_attempt portal SLTV_USERNAME SLTV_PASSWORD request).
Proof.
  split.
  - count is_chrome selective_is_chrome.
  - count is_get selective_is_get.
Qed.

Lemma purchase_attempt_once (request : TVRequest.t) :
  at_most 1 is_chrome
    (VTUAutomator.purchase_attempt portal SLTV_USERNAME SLTV_PASSWORD request) ∧
  at_most 1 is_get
    (VTUAutomator.purchase_attempt portal SLTV_USERNAME SLTV_PASSWORD request) ∧
  at_most 1 is_recharge_lookup
    (VTUAutomator.purchase_attempt portal SLTV_USERNAME SLTV_PASSWORD request).
Proof.
  split; [|split].
  - count is_chrome selective_is_chrome.
  - count is_get selective_is_get.
  - unfold VTUAutomator.purchase_attempt.
    destruct (Nat.eqb (TVRequest.value request) 1);
      count is_recharge_lookup selective_is_recharge_lookup.
Qed.
End Passes.

(** X17: a call of a portal method only adds to the log of commands, and
    what it adds holds at most two browser starts and at most two loads of
    the login page: the flow is tried twice at most.  A purchase looks up
    the Recharge button at most twice. *)
Theorem portal_methods_try_twice
    (portal : Portal) (username password : string) (b : Browser) :
  (∀ request, ∃ added,
     history (VTUAutomator.get_sltv_user_details portal username password
                request b).2 = history b ++ added ∧
     (sent is_chrome added ≤ 2)%nat ∧ (sent is_get added ≤ 2)%nat) ∧
  (∀ request, ∃ added,
     history (VTUAutomator.purchase_tv portal username password
                request b).2 = history b ++ added ∧
     (sent is_chrome added ≤ 2)%nat ∧ (sent is_get added ≤ 2)%nat ∧
     (sent is_recharge_lookup added ≤ 2)%nat) ∧
  (∀ request, ∃ added,
     history (VTUAutomator.refresh_tv portal username password
                request b).2 = history b ++ added ∧
     (sent is_chrome added ≤ 2)%nat ∧ (sent is_get added ≤ 2)%nat).
Proof.
  split; [|split]; intros request.
  - destruct (details_attempt_once portal username password request)
      as [H1 H2].
    apply (at_most_attempts 2) in H1, H2.
    destruct (H1 b) as (added & Hh & ?), (H2 b) as (added' & Hh' & ?).
    unfold VTUAutomator.get_sltv_user_details. rewrite Hh in Hh'.
    apply app_inv_head in Hh' as <-. by exists added.
  - destruct (purchase_attempt_once portal username password request)
      as (H1 & H2 & H3).
    apply (at_most_attempts 2) in H1, H2, H3.
    destruct (H1 b) as (added & Hh & ?), (H2 b) as (added' & Hh' & ?),
      (H3 b) as (added'' & Hh'' & ?).
    unfold VTUAutomator.purchase_tv. rewrite Hh in Hh', Hh''.
    apply app_inv_head in Hh' as <-. apply app_inv_head in Hh'' as <-.
    by exists added.
  - destruct (refresh_attempt_once portal username password request)
      as [H1 H2].
    apply (at_most_attempts 2) in H1, H2.
    destruct (H1 b) as (added & Hh & ?), (H2 b) as (added' & Hh' & ?).
    unfold VTUAutomator.refresh_tv. rewrite Hh in Hh'.
    apply app_inv_head in Hh' as <-. by exists added.
Qed.

(** * Further properties: the books, identifiers and e-mail *)

(** ** Errors and the books of a purchase *)

(** X18: a purchase fails in one of three ways only, each a client error:
    404 [Wallet not found], 400 [Insufficient funds], both leaving the
    world as it was, or 400 [Transaction failed: <reason>]; in the last
    case the [try] block did not run to its end: the adapter dispatch
    failed, or it succeeded and the token of the reply could not be read.
    No exception of a vendor leaves the endpoint as it was raised, and
    none as a status 500. *)
Theorem purchase_errors_are_client_errors
    (env : Env) (i : intent) (u : User.t) (w : World) (e : exn) :
  (purchase env i u w).1 = Raises e →
  (e = HTTPException 404 "Wallet not found" ∧
   wallets w !! User.id u = None ∧ (purchase env i u w).2 = w) ∨
  (e = HTTPException 400 "Insufficient funds" ∧
   is_Some (wallets w !! User.id u) ∧ (purchase env i u w).2 = w) ∨
  (∃ reason,
     e = HTTPException 400 ("Transaction failed: " +:+ reason) ∧
     completes env i u (next_trans_id env w) = false ∧
     (dispatch_succeeds env i u (next_trans_id env w) = false ∨
      token_readable env i (next_trans_id env w) = false)).
Proof.
  destruct (purchase_outcome_sound env i u w)
    as [| | |? ? ? ? ? ? ? Hd|? ? ? ? ? ? ? ? Hd Ht]; intros [= <-].
  - by left.
  - right; left. eauto.
  - right; right. unfold completes. rewrite Hd. eauto.
  - right; right. unfold completes. rewrite Hd, Ht. eauto.
Qed.

Lemma purchase_errors_are_client_errors_witness :
  (purchase vendors_down (airtime_of 50) alice (ledger 100)).1
    = Raises (HTTPException 400 "Transaction failed: timeout") ∧
  ∃ reason,
    HTTPException 400 "Transaction failed: timeout"
      = HTTPException 400 ("Transaction failed: " +:+ reason) ∧
    completes vendors_down (airtime_of 50) alice
      (next_trans_id vendors_down (ledger 100)) = false ∧
    (dispatch_succeeds vendors_down (airtime_of 50) alice
       (next_trans_id vendors_down (ledger 100)) = false ∨
     token_readable vendors_down (airtime_of 50)
       (next_trans_id vendors_down (ledger 100)) = false).
Proof.
  assert (Hrun :
    (purchase vendors_down (airtime_of 50) alice (ledger 100)).1
      = Raises (HTTPException 400 "Transaction failed: timeout"))
    by (vm_compute; reflexivity).
  split; [exact Hrun|].
  destruct (purchase_errors_are_client_errors vendors_down (airtime_of 50)
              alice (ledger 100) _ Hrun) as [[H _]|[[H _]|H]].
  - discriminate H.
  - discriminate H.
  - exact H.
Defined.

(** X19: the wallet and the transaction table stay in step: however a
    purchase ends, the balance of the buyer's wallet afterwards is the
    balance before with the records the purchase added posted in order,
    debits taken off and credits added, in float arithmetic. *)
Theorem wallet_matches_posted_records
    (env : Env) (i : intent) (u : User.t) (w : World) :
  ∃ rows,
    transactions (purchase env i u w).2 = transactions w ++ rows ∧
    balance_of (User.id u) (purchase env i u w).2
      = (fun balance => foldl post balance rows) <$> balance_of (User.id u) w.
Proof.
  destruct (purchase_outcome_sound env i u w) as [| | wallet ? ? ? ? ? Hw
                                                  | wallet ? ? ? ? Hw
                                                  | wallet ? ? ? ? ? Hw].
  - exists []. rewrite app_nil_r. split; [done|].
    by destruct (balance_of (User.id u) w).
  - exists []. rewrite app_nil_r. split; [done|].
    by destruct (balance_of (User.id u) w).
  - eexists. split; [reflexivity|].
    rewrite balance_of_settled. unfold balance_of. by rewrite Hw.
  - eexists. split; [reflexivity|].
    rewrite balance_of_settled. unfold balance_of. by rewrite Hw.
  - eexists. split; [reflexivity|].
    rewrite balance_of_settled. unfold balance_of. by rewrite Hw.
Qed.

(** ** When two transaction identifiers coincide *)

Lemma digit_char_inj (x y : nat) :
  (x < 10)%nat → (y < 10)%nat →
  ascii_of_nat (48 + x) = ascii_of_nat (48 + y) → x = y.
Proof.
  intros Hx Hy H. apply (f_equal nat_of_ascii) in H.
  rewrite !nat_ascii_embedding in H by lia. lia.
Qed.

Lemma two_digits_app_inj (a b : nat) (r r' : string) :
  (a < 100)%nat → (b < 100)%nat →
  two_digits a +:+ r = two_digits b +:+ r' → a = b ∧ r = r'.
Proof.
  intros Ha Hb.
  change (String (ascii_of_nat (48 + a / 10))
            (String (ascii_of_nat (48 + a mod 10)) r)
          = String (ascii_of_nat (48 + b / 10))
              (String (ascii_of_nat (48 + b mod 10)) r') → a = b ∧ r = r').
  intros H.
  assert (H1 : ascii_of_nat (48 + a / 10) = ascii_of_nat (48 + b / 10))
    by congruence.
  assert (H2 : ascii_of_nat (48 + a mod 10) = ascii_of_nat (48 + b mod 10))
    by congruence.
  split; [|congruence].
  apply digit_char_inj in H1;
    [|apply Nat.Div0.div_lt_upper_bound; lia..].
  apply digit_char_inj in H2; [|apply Nat.mod_upper_bound; lia..].
  rewrite (Nat.div_mod_eq a 10), (Nat.div_mod_eq b 10). lia.
Qed.

Lemma timestamp_of_app_inj (d1 d2 : datetime) (r r' : string) :
  valid_datetime d1 → valid_datetime d2 →
  timestamp_of d1 +:+ r = timestamp_of d2 +:+ r' →
  same_timestamp d1 d2 ∧ r = r'.
Proof.
  intros (? & ? & ? & ? & ?) (? & ? & ? & ? & ?). unfold timestamp_of.
  rewrite <- !append_assoc.
  pose proof (Nat.mod_upper_bound (year d1) 100).
  pose proof (Nat.mod_upper_bound (year d2) 100).
  intros [Hy E]%two_digits_app_inj; [|lia..].
  apply two_digits_app_inj in E as [Hmo E]; [|lia..].
  apply two_digits_app_inj in E as [Hd E]; [|lia..].
  apply two_digits_app_inj in E as [Hh E]; [|lia..].
  apply two_digits_app_inj in E as [Hmi E]; [|lia..].
  apply two_digits_app_inj in E as [Hs E]; [|lia..].
  done.
Qed.

Lemma alphabet_nth_inj (a b : nat) :
  (a < 36)%nat → (b < 36)%nat →
  nth a (String.list_ascii_of_string (ascii_uppercase +:+ digits)) "000"%char
    = nth b (String.list_ascii_of_string (ascii_uppercase +:+ digits)) "000"%char →
  a = b.
Proof.
  intros Ha Hb. apply NoDup_nth; [|done..].
  apply NoDup_ListNoDup. apply (bool_decide_unpack _). by vm_compute.
Qed.

Lemma random_choices_inj (i1 i2 : nat → nat) :
  draws_in_range i1 → draws_in_range i2 →
  random_choices (ascii_uppercase +:+ digits) 3 i1
    = random_choices (ascii_uppercase +:+ digits) 3 i2 →
  ∀ j, (j < 3)%nat → i1 j = i2 j.
Proof.
  intros H1 H2. unfold random_choices. cbn [seq fmap list_fmap].
  cbn [String.string_of_list_ascii].
  intros [= Ha Hb Hc] j Hj.
  assert (j = 0 ∨ j = 1 ∨ j = 2)%nat as [->|[->| ->]] by lia;
    apply alphabet_nth_inj; auto.
Qed.

Lemma Returns_inj {A} (a b : A) : Returns a = Returns b → a = b.
Proof. congruence. Qed.

(** X20: two transaction identifiers coincide exactly when their clock
    readings agree to the second (years modulo 100) and their three random
    draws agree: the prefix plays no part, so the identifiers of different
    services can coincide, and nothing else keeps two identifiers apart. *)
Theorem generate_trans_id_coincide
    (env : Env) (prefix1 prefix2 : string) (w1 w2 : World) :
  valid_datetime (now env (trans_ids_issued w1)) →
  valid_datetime (now env (trans_ids_issued w2)) →
  draws_in_range (random_index env (trans_ids_issued w1)) →
  draws_in_range (random_index env (trans_ids_issued w2)) →
  (generate_trans_id env prefix1 w1).1 = (generate_trans_id env prefix2 w2).1
  ↔ same_timestamp (now env (trans_ids_issued w1))
                   (now env (trans_ids_issued w2)) ∧
    ∀ j, (j < 3)%nat →
         random_index env (trans_ids_issued w1) j
           = random_index env (trans_ids_issued w2) j.
Proof.
  intros Hd1 Hd2 Hi1 Hi2.
  unfold generate_trans_id, trans_id_at. cbn [fst].
  rewrite !strftime_timestamp by done.
  set (d1 := now env (trans_ids_issued w1)) in *.
  set (d2 := now env (trans_ids_issued w2)) in *.
  set (i1 := random_index env (trans_ids_issued w1)) in *.
  set (i2 := random_index env (trans_ids_issued w2)) in *.
  split.
  - intros H%Returns_inj.
    apply timestamp_of_app_inj in H as [Hsame H]; [|done..].
    split; [done|]. by apply random_choices_inj.
  - intros [(Hy & Hmo & Hd & Hh & Hmi & Hs) Hdraw].
    unfold timestamp_of. rewrite Hy, Hmo, Hd, Hh, Hmi, Hs.
    unfold random_choices. cbn [seq fmap list_fmap].
    by rewrite !Hdraw by lia.
Qed.

Lemma generate_trans_id_coincide_witness :
  (generate_trans_id vendors_up "AIRTIME" (ledger 100)).1
    = (generate_trans_id vendors_up "ELEC"
         (purchase vendors_up (airtime_of 50) alice (ledger 100)).2).1.
Proof.
  refine (proj2 (generate_trans_id_coincide vendors_up "AIRTIME" "ELEC"
                   (ledger 100)
                   (purchase vendors_up (airtime_of 50) alice (ledger 100)).2
                   _ _ _ _) _).
  - unfold valid_datetime. cbn. lia.
  - unfold valid_datetime. cbn. lia.
  - intros j Hj. cbn. lia.
  - intros j Hj. cbn. lia.
  - split; [|done]. unfold same_timestamp. cbn. done.
Defined.

(** ** Delivery of the e-mails *)

Lemma send_email_run (env : Env) (mailer : Mailer)
    (subject email_to : string) (template_body : dict) (template_name : string)
    (outbox : list message) :
  ∃ m,
    _send_email_async env mailer subject email_to template_body template_name
      outbox = (Returns (), outbox ++ [m]) ∧
    From_Email m = MAIL_FROM mailer ∧
    To_Email m = email_to ∧
    To_Name m = dict_get_default "name"
                  (dict_get_default "user_name" (VStr "Valued User")
                     template_body) template_body ∧
    Subject m = "SLTV VTU | " +:+ subject ∧
    TextPart m =
      (if match dict_get "title" template_body with
          | Some title => truthy title
          | None => false
          end
       then str_member env (dict_get "title" template_body) +:+ line_feed +:+
            line_feed +:+ "(Please view in an HTML-compatible client)"
       else "SLTV VTU | " +:+ subject +:+ line_feed +:+ line_feed +:+
            "This email requires an HTML-compatible client. Please view this message in a modern email client.") ∧
    HTMLPart m = _render_template mailer template_name template_body.
Proof.
  unfold _send_email_async, outbox_try, mailjet_send, mbind, Outbox_bind,
    mret, Outbox_ret.
  cbv beta zeta.
  match goal with
  | |- context [mailjet_send_create mailer ?m] => exists m
  end.
  split; [|repeat split; reflexivity].
  destruct (mailjet_send_create mailer _) as [status_code|e]; [|done].
  destruct (Nat.eqb status_code 200); [done|].
  by destruct (result_json mailer _).
Qed.

(** X21: sending an e-mail never raises and makes exactly one Mailjet
    request, whatever the template engine and Mailjet do: a missing
    template or a rendering error puts the text of the error into the HTML
    part of the message that is sent all the same, and an exception or an
    error status of Mailjet is swallowed. *)
Theorem send_email_never_raises (env : Env) (mailer : Mailer)
    (subject email_to : string) (template_body : dict) (template_name : string)
    (outbox : list message) :
  ∃ m,
    _send_email_async env mailer subject email_to template_body template_name
      outbox = (Returns (), outbox ++ [m]) ∧
    To_Email m = email_to ∧
    Subject m = "SLTV VTU | " +:+ subject ∧
    HTMLPart m =
      match render mailer template_name template_body with
      | Rendered html => html
      | TemplateNotFound => "Error: Template " +:+ template_name +:+ " not found."
      | RenderError e => "Error rendering template: " +:+ e
      end.
Proof.
  destruct (send_email_run env mailer subject email_to template_body
              template_name outbox) as (m & ? & ? & ? & ? & ? & ? & ?).
  by exists m.
Qed.

Lemma deliver_run (env : Env) (mailer : Mailer) (e : Email.t)
    (outbox : list message) :
  ∃ m, deliver env mailer e outbox = (Returns (), outbox ++ [m]) ∧
       delivers mailer e m.
Proof.
  unfold deliver.
  destruct (send_email_run env mailer (subject_of e) (Email.email_to e)
              (template_body_of mailer e) (template_name_of e) outbox)
    as (m & Hrun & ? & ? & Hname & ? & Htext & ?).
  exists m. split; [done|]. repeat split; try done.
  - rewrite Hname. unfold template_body_of, dict_get_default.
    destruct (Email.kind e); reflexivity.
  - rewrite Htext. unfold template_body_of, title_of.
    destruct (Email.kind e); reflexivity.
Qed.

(** X22: the e-mail tasks of a request run only when the endpoint
    returns.  A purchase that returns has queued exactly one e-mail, the
    success e-mail, and it is delivered after the response by one Mailjet
    request, whatever the template engine and Mailjet do, to the buyer's
    address under the buyer's full name as it is stored: a user without a
    full name is addressed with no name, not with the default
    [Valued User].  A purchase that raises delivers nothing: a refunded
    purchase has queued the failure and the refund e-mail, which are
    dropped with the queue, and a purchase turned away at admission has
    queued none. *)
Theorem purchase_mails_after_response (env : Env) (mailer : Mailer)
    (i : intent) (u : User.t) (w : World) (outbox : list message) :
  ∃ mails,
    background_tasks (purchase env i u w).2 = background_tasks w ++ mails ∧
    match (purchase env i u w).1 with
    | Returns _ =>
        ∃ mail m,
          mails = [mail] ∧
          Email.kind mail = PurchaseSuccess ∧
          after_response env mailer (purchase env i u w).1 mails outbox
            = (Returns (), outbox ++ [m]) ∧
          delivers mailer mail m ∧
          To_Email m = User.email u ∧
          To_Name m = name_value (User.full_name u)
    | Raises _ =>
        (mails = [] ∨ Email.kind <$> mails = [PurchaseFailed; Refund]) ∧
        after_response env mailer (purchase env i u w).1 mails outbox
          = (Returns (), outbox)
    end.
Proof.
  destruct (purchase_outcome_sound env i u w)
    as [| |wallet profit s trail recipient| |]; cbn [fst snd].
  - exists []. rewrite app_nil_r. split; [done|]. split; [by left|done].
  - exists []. rewrite app_nil_r. split; [done|]. split; [by left|done].
  - eexists. split; [reflexivity|].
    set (mail := mail_of env i u PurchaseSuccess s (reference_of i wallet)
                   (Some recipient)).
    destruct (deliver_run env mailer mail outbox) as (m & Hrun & Hdel).
    exists mail, m. split; [done|]. split; [done|].
    split.
    { cbn [after_response run_tasks]. unfold mbind, Outbox_bind.
      by rewrite Hrun. }
    split; [done|].
    destruct Hdel as (_ & Hto & Hname & _). by rewrite Hto, Hname.
  - eexists. split; [reflexivity|]. split; [by right|done].
  - eexists. split; [reflexivity|]. split; [by right|done].
Qed.

(** ** One purchase after another *)

(** A purchase does not change what the next one is quoted. *)
Lemma quote_settled (i : intent) (w : World) owner wallet rows calls mails ids :
  quote i (settled w owner wallet rows calls mails ids) = quote i w.
Proof. reflexivity. Qed.

(** A purchase whose wallet cannot pay is turned away. *)
Lemma purchase_turned_away (env : Env) (i : intent) (u : User.t) (w : World)
    (wallet : Wallet.t) (profit selling_price : float) :
  quote i w = Returns (profit, selling_price) →
  wallets w !! User.id u = Some wallet →
  (Wallet.balance wallet <? selling_price) = true →
  purchase env i u w = (Raises (HTTPException 400 "Insufficient funds"), w).
Proof.
  intros Hq Hw Hlt. rewrite (surjective_pairing (purchase env i u w)).
  destruct (purchase_outcome_sound env i u w)
    as [Hw'| |wallet' p s ? ? Hq' Hw' Hlt'|wallet' p s ? Hq' Hw' Hlt'
       |wallet' p s ? ? Hq' Hw' Hlt'].
  - congruence.
  - done.
  - rewrite Hq in Hq'. rewrite Hw in Hw'.
    apply Returns_inj in Hq'. congruence.
  - rewrite Hq in Hq'. rewrite Hw in Hw'.
    apply Returns_inj in Hq'. congruence.
  - rewrite Hq in Hq'. rewrite Hw in Hw'.
    apply Returns_inj in Hq'. congruence.
Qed.

(** A purchase that returns was admitted and leaves a settled world in
    which the wallet holds the balance less the selling price. *)
Lemma purchase_returned (env : Env) (i : intent) (u : User.t) (w : World)
    (wallet : Wallet.t) (profit selling_price : float) (response : dict) :
  quote i w = Returns (profit, selling_price) →
  wallets w !! User.id u = Some wallet →
  (purchase env i u w).1 = Returns response →
  ∃ rows calls mails ids,
    (purchase env i u w).2
      = settled w (User.id u)
          (Wallet.set_balance (Wallet.balance wallet - selling_price) wallet)
          rows calls mails ids.
Proof.
  intros Hq Hw.
  destruct (purchase_outcome_sound env i u w)
    as [| |wallet' p s ? ? Hq' Hw' Hlt'| |]; cbn [fst snd]; intros Hret;
    try discriminate.
  rewrite Hq in Hq'. rewrite Hw in Hw'. apply Returns_inj in Hq'.
  assert (wallet' = wallet) as -> by congruence.
  assert (s = selling_price) as -> by congruence.
  by eexists _, _, _, _.
Qed.

(** X23: consecutive purchases of a user draw on one balance.  After a
    purchase that returned, delivered at price [s1], the next purchase is
    quoted as before and measured against what is left: it is turned away
    with [Insufficient funds], changing nothing, when the balance less
    [s1] is below its price, and when it returns as well the wallet holds
    the balance less both prices. *)
Theorem consecutive_purchases_share_the_balance
    (env : Env) (i1 i2 : intent) (u : User.t) (w : World) (wallet : Wallet.t)
    (p1 s1 p2 s2 : float) (response1 : dict) :
  quote i1 w = Returns (p1, s1) →
  quote i2 w = Returns (p2, s2) →
  wallets w !! User.id u = Some wallet →
  (purchase env i1 u w).1 = Returns response1 →
  let w1 := (purchase env i1 u w).2 in
  balance_of (User.id u) w1 = Some (Wallet.balance wallet - s1) ∧
  ((Wallet.balance wallet - s1 <? s2) = true →
   purchase env i2 u w1
     = (Raises (HTTPException 400 "Insufficient funds"), w1)) ∧
  (∀ response2,
     (purchase env i2 u w1).1 = Returns response2 →
     balance_of (User.id u) (purchase env i2 u w1).2
       = Some (Wallet.balance wallet - s1 - s2)).
Proof.
  intros Hq1 Hq2 Hw Hret1 w1.
  destruct (purchase_returned env i1 u w wallet p1 s1 response1 Hq1 Hw Hret1)
    as (rows & calls & mails & ids & Hw1).
  fold w1 in Hw1.
  assert (Hq : quote i2 w1 = Returns (p2, s2))
    by (by rewrite Hw1, quote_settled).
  assert (Hwallet : wallets w1 !! User.id u
             = Some (Wallet.set_balance (Wallet.balance wallet - s1) wallet)).
  { rewrite Hw1. unfold settled. cbn [wallets]. apply lookup_insert_eq. }
  split; [|split].
  - rewrite Hw1. apply balance_of_settled.
  - intros Hlt2. by eapply purchase_turned_away.
  - intros response2 Hret2.
    destruct (purchase_returned env i2 u w1 _ p2 s2 response2 Hq Hwallet Hret2)
      as (rows2 & calls2 & mails2 & ids2 & ->).
    by rewrite balance_of_settled.
Qed.

Lemma consecutive_purchases_share_the_balance_witness :
  let w1 := (purchase vendors_up (airtime_of 50) alice (ledger 100)).2 in
  (purchase vendors_up (airtime_of 50) alice (ledger 100)).1
    = Returns [ ("message", VStr "Airtime purchase successful");
                ("transaction_id", VInt 1) ] ∧
  balance_of 1 w1 = Some 50 ∧
  purchase vendors_up (airtime_of 60) alice w1
    = (Raises (HTTPException 400 "Insufficient funds"), w1).
Proof.
  intros w1.
  assert (Hret : (purchase vendors_up (airtime_of 50) alice (ledger 100)).1
                 = Returns [ ("message", VStr "Airtime purchase successful");
                             ("transaction_id", VInt 1) ])
    by (vm_compute; reflexivity).
  split; [exact Hret|].
  destruct (consecutive_purchases_share_the_balance vendors_up
              (airtime_of 50) (airtime_of 60) alice (ledger 100)
              (alice_wallet 100) 0 50 0 60 _ eq_refl eq_refl eq_refl Hret)
    as (Hbalance & Hreject & _).
  split.
  - etrans; [exact Hbalance|]. vm_compute. reflexivity.
  - apply Hreject. vm_compute. reflexivity.
Defined.

(** ** The token of an electricity purchase *)

(** X24: the token of a delivered eBills electricity purchase reaches the
    buyer by e-mail and the audit trail only.  When the purchase reply
    carries a non-empty token, the debit record ends with
    [ | Token: <token>], the success e-mail names the recipient as
    [<meter> (Token: <token>)], and the response holds the message and the
    transaction id but no token. *)
Theorem electricity_token_goes_by_mail
    (env : Env) (request : ElectricityRequest.t) (u : User.t) (w : World)
    (wallet : Wallet.t) (profit selling_price : float)
    (verify reply : EbillsResponse.t) (data : dict) (token : value) :
  quote (Electricity request) w = Returns (profit, selling_price) →
  wallets w !! User.id u = Some wallet →
  (Wallet.balance wallet <? selling_price) = false →
  is_enugu_alias (ElectricityRequest.provider request) →
  ebills_verify_reply env (ElectricityRequest.meter_number request)
    "enugu-electric" (ebills_variation_id (ElectricityRequest.type request))
    = Returns verify →
  EbillsResponse.code verify = Some (VStr "success") →
  ebills_purchase_reply env (next_trans_id env w)
    (ElectricityRequest.meter_number request) "enugu-electric"
    (ebills_variation_id (ElectricityRequest.type request))
    (ElectricityRequest.amount request) = Returns reply →
  EbillsResponse.code reply = Some (VStr "success") →
  EbillsResponse.data reply = Some (VDict data) →
  dict_get "token" data = Some token →
  truthy token = true →
  ∃ debit mail,
    (purchase env (Electricity request) u w).1
      = Returns [ ("message", VStr "Electricity purchase successful");
                  ("transaction_id", VInt (S (length (transactions w)))) ] ∧
    transactions (purchase env (Electricity request) u w).2
      = transactions w ++ [debit] ∧
    background_tasks (purchase env (Electricity request) u w).2
      = background_tasks w ++ [mail] ∧
    Transaction.status debit = "success" ∧
    Transaction.meta_data debit
      = (initial_meta_data (Electricity request) +:+
         " | eBills Response: " +:+ EbillsResponse.text reply) +:+
        " | Token: " +:+ str env token ∧
    Email.kind mail = PurchaseSuccess ∧
    Email.extra mail
      = Some (ElectricityRequest.meter_number request +:+
              " (Token: " +:+ str env token +:+ ")").
Proof.
  intros Hq Hw Hlt Halias Hvr Hvc Hpr Hpc Hdata Htoken Htruthy.
  apply routes_to_ebills_alias in Halias.
  apply eq_str_true in Hvc, Hpc.
  unfold quote, price_config_of in Hq. unfold next_trans_id in *.
  simp in Hq.
  admit_purchase Hq Hw Hlt.
  fold (routes_to_ebills (ElectricityRequest.provider request)).
  rewrite Halias. simp.
  rewrite Hvr. simp. rewrite Hvc. simp. rewrite Hpr. simp. rewrite Hpc.
  simp. rewrite Hdata. simp. rewrite Htoken. simp. rewrite Htruthy. simp.
  rewrite insert_last.
  eexists _, _. repeat split; reflexivity.
Qed.

Lemma electricity_token_goes_by_mail_witness :
  ∃ debit mail,
    transactions (purchase vendors_up (Electricity eedc_request) alice
                    (ledger 100)).2 = [debit] ∧
    background_tasks (purchase vendors_up (Electricity eedc_request) alice
                        (ledger 100)).2 = [mail] ∧
    Email.extra mail = Some "45067198783 (Token: 1234-5678-9012-3456)".
Proof.
  destruct (electricity_token_goes_by_mail vendors_up eedc_request alice
              (ledger 100) (alice_wallet 100) 0 50 reply_success reply_success
              [("token", VStr "1234-5678-9012-3456")]
              (VStr "1234-5678-9012-3456"))
    as (debit & mail & _ & Hrows & Hmails & _ & _ & _ & Hextra).
  - vm_compute. reflexivity.
  - vm_compute. reflexivity.
  - vm_compute. reflexivity.
  - right; left. vm_compute. reflexivity.
  - reflexivity.
  - reflexivity.
  - reflexivity.
  - reflexivity.
  - reflexivity.
  - reflexivity.
  - reflexivity.
  - exists debit, mail. split; [exact Hrows|]. split; [exact Hmails|].
    exact Hextra.
Defined.
